(** * CompRep: comparison of two spreadsheet exports

    A shallow embedding of [CompRep.py]: the header locator
    ([detect_header_row]), the column normaliser ([rename_unnamed_columns]),
    the loader ([load_excel_clean]), the key discoverer ([find_unique_key])
    and the script from loading on (key validation, key normalisation,
    outer merge and the three result-collection loops).  Exceptions are an
    error type and a bind; the frames the script mutates are passed along.

    The script is written against pandas.  The pandas operations it calls
    ([read_excel], [Series.is_unique], [astype(str)], [drop_duplicates],
    [merge], [Series.get], [isna]) are library code, not code of the
    repository; each one is given here as an executable definition whose
    comment says which pandas behaviour it stands for.

    Text is a string of bytes: [strip] removes the ASCII blanks and
    [lower] changes the ASCII letters, nothing beyond.  Cells are text,
    integers, finite floats (by their exact value) and NaN; Excel booleans
    and dates are not represented.  Three things are left
    open, as variables of the section [Model]: how Python prints a float,
    how pandas names the columns of a header row, and which text cells
    pandas' parser reads as a missing value or as a number.  The command line
    and the choice of the two files are modelled apart from the run, with
    Python's [int] and the file system as given; printing and the Excel
    export are not part of the model. *)

From Stdlib Require Import List String Ascii ZArith QArith Qcanon Bool Lia.
From Stdlib Require Import Permutation DecimalString Arith.
From Stdlib Require DecimalPos DecimalZ Sorted.
Import ListNotations.

Set Implicit Arguments.
Close Scope Qc_scope.
Close Scope Q_scope.
Open Scope nat_scope.

(** ** Python strings *)

Module PyStr.

(** [str.isspace] on the ASCII range: TAB..CR, FS..US and the blank. *)
Definition isspace (c : ascii) : bool :=
  let n := nat_of_ascii c in
  ((9 <=? n) && (n <=? 13)) || ((28 <=? n) && (n <=? 32)).

Fixpoint lstrip (s : string) : string :=
  match s with
  | EmptyString => EmptyString
  | String c t => if isspace c then lstrip t else s
  end.

Fixpoint rstrip (s : string) : string :=
  match s with
  | EmptyString => EmptyString
  | String c t =>
      match rstrip t with
      | EmptyString => if isspace c then EmptyString else String c EmptyString
      | t' => String c t'
      end
  end.

(** [s.strip()] *)
Definition strip (s : string) : string := rstrip (lstrip s).

Definition lower_char (c : ascii) : ascii :=
  let n := nat_of_ascii c in
  if (65 <=? n) && (n <=? 90) then ascii_of_nat (n + 32) else c.

(** [s.lower()]; only the letters A..Z change. *)
Fixpoint lower (s : string) : string :=
  match s with
  | EmptyString => EmptyString
  | String c t => String (lower_char c) (lower t)
  end.

(** [s.startswith(p)] *)
Definition startswith (s p : string) : bool := String.prefix p s.

(** [needle in hay] *)
Fixpoint contains (needle hay : string) : bool :=
  String.prefix needle hay ||
  match hay with
  | EmptyString => false
  | String _ t => contains needle t
  end.

(** [sep.join(parts)] *)
Definition join (sep : string) (parts : list string) : string :=
  String.concat sep parts.

(** [str(z)] for an integer. *)
Definition str_of_int (z : Z) : string := NilZero.string_of_int (Z.to_int z).

(** A Python string is truthy when it is not empty. *)
Definition truthy (s : string) : bool :=
  match s with EmptyString => false | String _ _ => true end.

End PyStr.

(** ** Data model *)

(** A column label.  Labels read from a header row are text; a frame read
    with [header=None] has its columns labelled by position. *)
Inductive Label : Type :=
| LStr (s : string)
| LInt (z : Z).

Definition Label_eq_dec (a b : Label) : {a = b} + {a <> b}.
Proof. decide equality; [apply string_dec | apply Z.eq_dec]. Defined.

Definition Label_eqb (a b : Label) : bool :=
  if Label_eq_dec a b then true else false.

(** [c in labels] *)
Definition label_in (c : Label) (labels : list Label) : bool :=
  existsb (Label_eqb c) labels.

(** [str(label)], as used by f-strings. *)
Definition label_str (l : Label) : string :=
  match l with
  | LStr s => s
  | LInt z => PyStr.str_of_int z
  end.

(** A cell value: text, an integer, a (finite) float given by its exact
    rational value, or the missing value NaN. *)
Inductive Value : Type :=
| VStr (s : string)
| VInt (z : Z)
| VFloat (q : Qc)
| VNaN.

(** Column dtypes as far as the script looks at them. *)
Inductive Dtype : Type := DInt | DFloat | DObject.

(** A frame: labels, one dtype per column, rows aligned to the labels. *)
Record DataFrame : Type := mkFrame {
  columns : list Label;
  dtypes : list Dtype;
  data : list (list Value)
}.

(** A row seen as a pandas Series: values indexed by labels. *)
Definition Series : Type := list (Label * Value).

(** Result of looking a label up in a Series: absent, exactly one value,
    or several values (a sub-Series, when the label is repeated). *)
Inductive Lookup : Type :=
| Absent
| One (v : Value)
| Many.

(** What pandas' parser takes a text cell for: one of its markers of a
    missing value (["NA"], ["N/A"], ...), a number written as text, or
    text. *)
Inductive Parsed : Type :=
| PNa
| PInt (z : Z)
| PFloat (q : Qc)
| PText.

(** Exceptions the script can end with.  [Raised] is the script's own
    [raise Exception(msg)]; [NotModelled] marks the one place where the
    script goes on with a value this model has no text for. *)
Inductive Error : Type :=
| KeyError (l : Label)
| ValueError
| TypeError
| MergeError
| IndexError
| AttributeError
| Raised (msg : string)
| NotModelled.

Inductive Exc (A : Type) : Type :=
| Ok (a : A)
| Err (e : Error).

Arguments Ok {A} a.
Arguments Err {A} e.

Definition bind {A B : Type} (m : Exc A) (k : A -> Exc B) : Exc B :=
  match m with
  | Ok a => k a
  | Err e => Err e
  end.

Declare Scope exc_scope.
Delimit Scope exc_scope with exc.
Notation "x <- m ;; k" := (bind m (fun x => k))
  (at level 61, m at next level, right associativity) : exc_scope.
Open Scope exc_scope.

(** ** Generic list helpers *)

Section ListHelpers.
Variable A : Type.
Variable eqb : A -> A -> bool.

(** First occurrences, in order ([drop_duplicates], [factorize]). *)
Fixpoint drop_duplicates (l : list A) : list A :=
  match l with
  | [] => []
  | x :: t => x :: filter (fun y => negb (eqb x y)) (drop_duplicates t)
  end.

(** No two positions hold equal elements. *)
Fixpoint all_distinct (l : list A) : bool :=
  match l with
  | [] => true
  | x :: t => negb (existsb (eqb x) t) && all_distinct t
  end.

(** [itertools.combinations(l, r)]. *)
Fixpoint combinations (l : list A) (r : nat) : list (list A) :=
  match r with
  | O => [[]]
  | S r' =>
      match l with
      | [] => []
      | x :: t => map (cons x) (combinations t r') ++ combinations t (S r')
      end
  end.
End ListHelpers.

(** [sorted(l)] for the order [leb], by insertion. *)
Section Sorting.
Variable A : Type.
Variable leb : A -> A -> bool.

Fixpoint insert_by (x : A) (l : list A) : list A :=
  match l with
  | [] => [x]
  | y :: t => if leb x y then x :: l else y :: insert_by x t
  end.

Definition sort_by (l : list A) : list A := fold_right insert_by [] l.
End Sorting.

Fixpoint list_eqb {A : Type} (eqb : A -> A -> bool) (l1 l2 : list A) : bool :=
  match l1, l2 with
  | [], [] => true
  | x :: t1, y :: t2 => eqb x y && list_eqb eqb t1 t2
  | _, _ => false
  end.

(** A key: the tuple of stringified key-column values of a row. *)
Definition Key : Type := list string.

Definition Key_eqb (a b : Key) : bool := list_eqb String.eqb a b.

(** [a <= b] on tuples of text: the first component that differs decides,
    a proper prefix comes first. *)
Fixpoint Key_leb (a b : Key) : bool :=
  match a, b with
  | [], _ => true
  | _ :: _, [] => false
  | x :: a', y :: b' =>
      match String.compare x y with
      | Lt => true
      | Gt => false
      | Eq => Key_leb a' b'
      end
  end.

(** ** Values *)

(** [pd.isna(v)] *)
Definition isna (v : Value) : bool :=
  match v with VNaN => true | _ => false end.

(** Python [a == b] on cell values: text with text, numbers by value
    (an integer equals the float of the same value), NaN equal to nothing. *)
Definition py_eq (a b : Value) : bool :=
  match a, b with
  | VStr s, VStr t => String.eqb s t
  | VInt x, VInt y => Z.eqb x y
  | VFloat p, VFloat q => Qc_eq_bool p q
  | VInt x, VFloat q => Qc_eq_bool (Q2Qc (inject_Z x)) q
  | VFloat q, VInt x => Qc_eq_bool q (Q2Qc (inject_Z x))
  | _, _ => false
  end.

(** The integer a float64 holds after [float(z)]: [z] itself up to 53
    significant bits, beyond that the nearest multiple of the unit in the
    last place, a tie going to the even significand.  (No integer of an
    int64 column is large enough to overflow.) *)
Definition nearest_float64 (z : Z) : Z :=
  let n := Z.abs z in
  let e := (Z.log2 n - 52)%Z in
  if (e <=? 0)%Z then z
  else
    let q := Z.shiftr n e in
    let r := (n - Z.shiftl q e)%Z in
    let half := Z.shiftl 1 (e - 1) in
    let q' := if (half <? r)%Z || ((r =? half)%Z && Z.odd q)
              then (q + 1)%Z else q in
    (Z.sgn z * Z.shiftl q' e)%Z.

Definition float64_of_int (z : Z) : Qc := Q2Qc (inject_Z (nearest_float64 z)).

(** Equality used by the pandas hash tables behind [is_unique]: as [==],
    and two NaN count as the same value. *)
Definition same_value (a b : Value) : bool :=
  py_eq a b || (isna a && isna b).

(** ** Header locator (CompRep.py, lines 78-84) *)

(** [isinstance(cell, str) and cell.strip()] *)
Definition is_text_cell (cell : Value) : bool :=
  match cell with
  | VStr s => PyStr.truthy (PyStr.strip s)
  | _ => false
  end.

(** [sum(1 for cell in row if ...)] *)
Definition text_count (row : list Value) : nat :=
  List.length (filter is_text_cell row).

(** The loop of [detect_header_row] from row [i] on. *)
Fixpoint detect_from (rows : list (list Value)) (i : nat) (min_named : nat)
  : option nat :=
  match rows with
  | [] => None
  | row :: rest =>
      if min_named <=? text_count row then Some i
      else detect_from rest (S i) min_named
  end.

Definition detect_header_row (df : DataFrame) (min_named : nat) : option nat :=
  detect_from (data df) 0 min_named.

(** ** Column normaliser (CompRep.py, lines 86-95) *)

(** [isinstance(col, str) and col.strip().lower().startswith("unnamed:")] *)
Definition is_placeholder (col : Label) : bool :=
  match col with
  | LStr s => PyStr.startswith (PyStr.lower (PyStr.strip s)) "unnamed:"
  | LInt _ => false
  end.

(** The loop of [rename_unnamed_columns]; [prev] is the tracked name. *)
Fixpoint rename_from (prev : Label) (cols : list Label) : list Label :=
  match cols with
  | [] => []
  | col :: rest =>
      if is_placeholder col
      then LStr (label_str prev ++ " (Text)") :: rename_from prev rest
      else col :: rename_from col rest
  end.

Definition rename_unnamed_columns (cols : list Label) : list Label :=
  rename_from (LStr "Unnamed") cols.

(** The rule in the words of the specification: the most recent real name
    before a position, ["Unnamed"] when there is none. *)
Definition last_real_name (before : list Label) : Label :=
  last (filter (fun c => negb (is_placeholder c)) before) (LStr "Unnamed").

(** ** Frames *)

(** Position of the first column carrying a label. *)
Fixpoint index_of (c : Label) (labels : list Label) : option nat :=
  match labels with
  | [] => None
  | l :: rest =>
      if Label_eqb l c then Some 0
      else match index_of c rest with
           | Some i => Some (S i)
           | None => None
           end
  end.

(** The values of column number [j], top to bottom. *)
Definition column_at (rows : list (list Value)) (j : nat) : list Value :=
  map (fun row => nth j row VNaN) rows.

(** [df[c]] for a label that names one column. *)
Definition column_values (df : DataFrame) (c : Label) : list Value :=
  match index_of c (columns df) with
  | Some j => column_at (data df) j
  | None => []
  end.

Definition dtype_of (df : DataFrame) (c : Label) : Dtype :=
  match index_of c (columns df) with
  | Some j => nth j (dtypes df) DObject
  | None => DObject
  end.

(** The cell of a row under the first column labelled [c]. *)
Definition cell (labels : list Label) (row : list Value) (c : Label) : Value :=
  match index_of c labels with
  | Some j => nth j row VNaN
  | None => VNaN
  end.

(** [df.iterrows()]: each row as a Series over the frame's labels. *)
Definition to_series (labels : list Label) (row : list Value) : Series :=
  combine labels row.

(** [row.get(l)] / [row[l]] *)
Definition series_get (row : Series) (l : Label) : Lookup :=
  match filter (fun p => Label_eqb (fst p) l) row with
  | [] => Absent
  | [p] => One (snd p)
  | _ :: _ :: _ => Many
  end.

(** Indices at which a key occurs, ascending. *)
Definition positions (g : Key) (keys : list Key) : list nat :=
  map fst (filter (fun p => Key_eqb g (snd p))
                  (combine (seq 0 (List.length keys)) keys)).

(** ** The parts of the Python runtime and of pandas left open *)

Section Model.

(** [repr] of a float (shortest text that reads back as the same float);
    its digits are not computed here. *)
Variable repr_float : Qc -> string.

(** The labels pandas derives from a header row: a text cell names its
    column, an empty cell yields ["Unnamed: j"], repeated names are
    suffixed.  Taken as given. *)
Variable header_labels : list Value -> list Label.

(** How pandas' parser reads a text cell.  Taken as given. *)
Variable parse_text : string -> Parsed.

(** [str(v)], the element-wise action of [astype(str)]. *)
Definition py_str (v : Value) : string :=
  match v with
  | VStr s => s
  | VInt z => PyStr.str_of_int z
  | VFloat q => repr_float q
  | VNaN => "nan"%string
  end.

(** ** Reading a sheet (pandas [read_excel]) *)

(** A sheet: rows of cells, an empty cell being NaN. *)
Definition Sheet : Type := list (list Value).

(** A workbook: its sheets by name, in order. *)
Definition Workbook : Type := list (string * Sheet).

Definition sheet_width (s : Sheet) : nat :=
  fold_right (fun row w => Nat.max (List.length row) w) 0 s.

Definition pad_row (w : nat) (row : list Value) : list Value :=
  row ++ repeat VNaN (w - List.length row).

Definition is_number (v : Value) : bool :=
  match v with VInt _ | VFloat _ | VNaN => true | VStr _ => false end.

Definition is_int (v : Value) : bool :=
  match v with VInt _ => true | _ => false end.

(** dtype pandas infers for a column of cells: int64 when every cell is an
    integer, float64 when every cell is a number or empty, else object. *)
Definition infer_dtype (vals : list Value) : Dtype :=
  match vals with
  | [] => DObject
  | _ =>
      if forallb is_int vals then DInt
      else if forallb is_number vals then DFloat
      else DObject
  end.

(** In a float64 column the integers are stored as floats. *)
Definition coerce (d : Dtype) (v : Value) : Value :=
  match d, v with
  | DFloat, VInt z => VFloat (float64_of_int z)
  | _, _ => v
  end.

Fixpoint coerce_row (ds : list Dtype) (row : list Value) : list Value :=
  match ds, row with
  | d :: ds', v :: row' => coerce d v :: coerce_row ds' row'
  | _, _ => row
  end.

(** The parser works column by column.  A marker of a missing value is
    read as NaN.  When every cell of the column is then a number, NaN or
    text that reads as a number, the column is numeric and such text is
    replaced by its number; otherwise the text cells stay as they are. *)
Definition parse_na (v : Value) : Value :=
  match v with
  | VStr s => match parse_text s with PNa => VNaN | _ => v end
  | _ => v
  end.

Definition is_numeric (v : Value) : bool :=
  match v with
  | VStr s => match parse_text s with PText => false | _ => true end
  | _ => true
  end.

Definition parse_numeric (v : Value) : Value :=
  match v with
  | VStr s =>
      match parse_text s with
      | PNa => VNaN
      | PInt z => VInt z
      | PFloat q => VFloat q
      | PText => v
      end
  | _ => v
  end.

Fixpoint parse_row (numeric : list bool) (row : list Value) : list Value :=
  match numeric, row with
  | b :: numeric', v :: row' =>
      (if b then parse_numeric v else parse_na v) :: parse_row numeric' row'
  | _, _ => row
  end.

(** The cells of [w] columns after parsing. *)
Definition parse_cells (w : nat) (body : list (list Value))
  : list (list Value) :=
  let numeric := map (fun j => forallb is_numeric (column_at body j))
                     (seq 0 w) in
  map (parse_row numeric) body.

(** [nrows]: keep the first rows of the data; a negative count raises. *)
Definition cut_rows (nrows : option Z) (body : list (list Value))
  : Exc (list (list Value)) :=
  match nrows with
  | None => Ok body
  | Some n => if (n <? 0)%Z then Err ValueError
              else Ok (firstn (Z.to_nat n) body)
  end.

(** The frame over [w] columns of cells. *)
Definition build_frame (w : nat) (labels : list Label)
           (body : list (list Value)) : DataFrame :=
  let ds := map (fun j => infer_dtype (column_at body j)) (seq 0 w) in
  mkFrame labels ds (map (coerce_row ds) body).

(** The labels of a frame read without a header: 0, 1, ... *)
Definition positional_labels (w : nat) : list Label :=
  map (fun j => LInt (Z.of_nat j)) (seq 0 w).

(** [pd.read_excel(sheet, header=header, nrows=nrows)].
    [header = None] labels the columns 0, 1, ... and keeps every row as
    data; [header = Some h] takes the labels from row [h] and the data from
    the rows below it.  The data cells are parsed, then typed. *)
Definition read_excel (s : Sheet) (header : option nat) (nrows : option Z)
  : Exc DataFrame :=
  let w := sheet_width s in
  let rows := map (pad_row w) s in
  match header with
  | None =>
      body <- cut_rows nrows rows ;;
      Ok (build_frame w (positional_labels w) (parse_cells w body))
  | Some h =>
      if List.length rows <=? h then Err ValueError
      else
        body <- cut_rows nrows (skipn (S h) rows) ;;
        Ok (build_frame w (header_labels (nth h rows [])) (parse_cells w body))
  end.

(** ** Loader (CompRep.py, lines 97-115) *)

Definition min_named_cols : nat := 3.

(** [next((s for s in xls.sheet_names if "hiddensheet" not in s.lower()), None)] *)
Definition select_sheet (wb : Workbook) : option Sheet :=
  match find (fun p => negb (PyStr.contains "hiddensheet" (PyStr.lower (fst p)))) wb with
  | Some p => Some (snd p)
  | None => None
  end.

(** [load_excel_clean]; the debug printing is left out.  With no eligible
    sheet, [sheet_name=None] makes [read_excel] return a dict of frames,
    on which the attribute accesses that follow fail. *)
Definition load_excel_clean (max_lines : option Z) (wb : Workbook)
  : Exc DataFrame :=
  match select_sheet wb with
  | None => Err AttributeError
  | Some sheet =>
      preview <- read_excel sheet None (Some 20%Z) ;;
      let header_row := detect_header_row preview min_named_cols in
      df <- read_excel sheet header_row max_lines ;;
      Ok (mkFrame (rename_unnamed_columns (columns df)) (dtypes df) (data df))
  end.

(** ** Key discoverer (CompRep.py, lines 117-129) *)

(** [df[c].isnull().all()] *)
Definition all_null (df : DataFrame) (c : Label) : bool :=
  forallb isna (column_values df c).

(** [pd.api.types.is_float_dtype(df[c])] *)
Definition is_float_dtype (df : DataFrame) (c : Label) : bool :=
  match dtype_of df c with DFloat => true | _ => false end.

(** [df[c].is_unique] *)
Definition is_unique (df : DataFrame) (c : Label) : bool :=
  all_distinct same_value (column_values df c).

(** [df[list(combo)].astype(str)], row by row. *)
Definition stringified_projection (df : DataFrame) (combo : list Label)
  : list Key :=
  map (fun row => map (fun c => py_str (cell (columns df) row c)) combo)
      (data df).

(** [df[list(combo)].astype(str).drop_duplicates().shape[0] == df.shape[0]] *)
Definition combo_is_key (df : DataFrame) (combo : list Label) : bool :=
  List.length (drop_duplicates Key_eqb (stringified_projection df combo))
  =? List.length (data df).

(** The candidate columns. *)
Definition candidates (df : DataFrame) : list Label :=
  filter (fun c => negb (all_null df c) && negb (is_float_dtype df c))
         (columns df).

(** [find_unique_key].  When a label is repeated, [df[c]] is a frame,
    [df[c].isnull().all()] a Series, and [not] of it raises. *)
Definition find_unique_key (df : DataFrame) (max_columns : nat)
  : Exc (option (list Label)) :=
  if negb (all_distinct Label_eqb (columns df)) then Err ValueError
  else
    let cols := candidates df in
    match find (is_unique df) cols with
    | Some col => Ok (Some [col])
    | None =>
        Ok (find (combo_is_key df)
                 (flat_map (combinations cols) (seq 2 (max_columns - 1))))
    end.

(** ** Choice of the key columns (CompRep.py, lines 154-168) *)

Definition nonempty {A : Type} (l : list A) : bool :=
  match l with [] => false | _ :: _ => true end.

(** [[k for k in user_keys if k not in df.columns]] *)
Definition missing_keys (user_keys : list string) (df : DataFrame)
  : list string :=
  filter (fun k => negb (label_in (LStr k) (columns df))) user_keys.

Definition is_text_label (l : Label) : bool :=
  match l with LStr _ => true | LInt _ => false end.

(** [user_keys] is the list read from [keys=...]; unset and empty are both
    falsy.  In the automatic branch the key is printed with
    [", ".join(key_columns)], which raises on a label that is not text. *)
Definition choose_keys (user_keys : list string)
           (df_base df_compare : DataFrame) : Exc (list Label) :=
  if nonempty user_keys then
    let missing_base := missing_keys user_keys df_base in
    let missing_compare := missing_keys user_keys df_compare in
    if nonempty missing_base then
      Err (Raised ("The following key columns are missing in the base file: "
                   ++ PyStr.join ", " missing_base))
    else if nonempty missing_compare then
      Err (Raised ("The following key columns are missing in the compare file: "
                   ++ PyStr.join ", " missing_compare))
    else Ok (map LStr user_keys)
  else
    found <- find_unique_key df_base 3 ;;
    match found with
    | None | Some [] => Err (Raised "No unique key columns found in base file.")
    | Some key_columns =>
        if forallb is_text_label key_columns then Ok key_columns
        else Err TypeError
    end.

(** ** Key normalisation (CompRep.py, lines 170-173) *)

Fixpoint astype_str_row (labels : list Label) (col : Label)
         (row : list Value) : list Value :=
  match labels, row with
  | l :: labels', v :: row' =>
      (if Label_eqb l col then VStr (py_str v) else v)
      :: astype_str_row labels' col row'
  | _, _ => row
  end.

Fixpoint astype_str_dtypes (labels : list Label) (col : Label)
         (ds : list Dtype) : list Dtype :=
  match labels, ds with
  | l :: labels', d :: ds' =>
      (if Label_eqb l col then DObject else d)
      :: astype_str_dtypes labels' col ds'
  | _, _ => ds
  end.

(** The frame after [df[col] = df[col].astype(str)]. *)
Definition astype_str_frame (df : DataFrame) (col : Label) : DataFrame :=
  mkFrame (columns df)
          (astype_str_dtypes (columns df) col (dtypes df))
          (map (astype_str_row (columns df) col) (data df)).

(** [df[col] = df[col].astype(str)] *)
Definition astype_str (df : DataFrame) (col : Label) : Exc DataFrame :=
  if label_in col (columns df) then Ok (astype_str_frame df col)
  else Err (KeyError col).

(** [for col in key_columns: df[col] = df[col].astype(str)] *)
Fixpoint normalize_keys (df : DataFrame) (key_columns : list Label)
  : Exc DataFrame :=
  match key_columns with
  | [] => Ok df
  | col :: rest => df' <- astype_str df col ;; normalize_keys df' rest
  end.

(** The frame [normalize_keys] returns when every key column exists. *)
Definition normalized (df : DataFrame) (key_columns : list Label) : DataFrame :=
  fold_left astype_str_frame key_columns df.

(** ** Outer merge (pandas [merge], called at CompRep.py line 176) *)

(** The key tuple of a row.  The script merges after [normalize_keys], so
    the key cells are text and [py_str] returns them as they are. *)
Definition key_of (labels key_columns : list Label) (row : list Value) : Key :=
  map (fun k => py_str (cell labels row k)) key_columns.

Definition keys_of (df : DataFrame) (key_columns : list Label) : list Key :=
  map (key_of (columns df) key_columns) (data df).

(** The rows joined for one key [g]: every left row with every right row,
    or the rows of the one side that has the key. *)
Definition join_group (lk rk : list Key) (g : Key)
  : list (option nat * option nat) :=
  let L := positions g lk in
  let R := positions g rk in
  match L, R with
  | _, [] => map (fun i => (Some i, None)) L
  | [], _ => map (fun j => (None, Some j)) R
  | _, _ => flat_map (fun i => map (fun j => (Some i, Some j)) R) L
  end.

(** The join indexers of an outer merge: one group per distinct key, the
    keys sorted lexicographically. *)
Definition full_outer_join (lk rk : list Key) : list (option nat * option nat) :=
  flat_map (join_group lk rk)
           (sort_by Key_leb (drop_duplicates Key_eqb (lk ++ rk))).

Definition count_label (c : Label) (labels : list Label) : nat :=
  List.length (filter (Label_eqb c) labels).

(** [Index.duplicated()]: true at every occurrence but the first. *)
Fixpoint duplicated (seen : list Label) (labels : list Label) : list bool :=
  match labels with
  | [] => []
  | l :: rest => label_in l seen :: duplicated (l :: seen) rest
  end.

(** Duplicates among the renamed labels that the originals did not have. *)
Definition suffix_duplicates (orig renamed : list Label) : bool :=
  existsb (fun p => fst p && negb (snd p))
          (combine (duplicated [] renamed) (duplicated [] orig)).

(** pandas' [renamer]: [f"{x}{suffix}"] for an overlapping label. *)
Definition suffix_label (suffix : string) (to_rename : list Label)
           (x : Label) : Label :=
  if label_in x to_rename then LStr (label_str x ++ suffix) else x.

(** The right frame's labels once its key columns are dropped. *)
Definition right_labels (B : DataFrame) (K : list Label) : list Label :=
  filter (fun c => negb (label_in c K)) (columns B).

(** Labels found on both sides after that. *)
Definition to_rename (A B : DataFrame) (K : list Label) : list Label :=
  filter (fun c => label_in c (right_labels B K)) (columns A).

Definition left_renamed (A B : DataFrame) (K : list Label) : list Label :=
  map (suffix_label "_base" (to_rename A B K)) (columns A).

Definition right_renamed (A B : DataFrame) (K : list Label) : list Label :=
  map (suffix_label "_compare" (to_rename A B K)) (right_labels B K).

(** [merged.columns] *)
Definition merged_columns (A B : DataFrame) (K : list Label) : list Label :=
  left_renamed A B K ++ right_renamed A B K ++ [LStr "_merge"].

Definition indicator (p : option nat * option nat) : string :=
  match p with
  | (Some _, Some _) => "both"
  | (Some _, None) => "left_only"
  | (None, _) => "right_only"
  end%string.

(** A cell of an int64 column once the column is float64. *)
Definition promote (d : Dtype) (v : Value) : Value :=
  match d, v with
  | DInt, VInt z => VFloat (float64_of_int z)
  | _, _ => v
  end.

(** A row whose cells outside the key columns are promoted. *)
Fixpoint promote_row (K labels : list Label) (ds : list Dtype)
         (row : list Value) : list Value :=
  match labels, row with
  | l :: labels', v :: row' =>
      (if label_in l K then v else promote (hd DObject ds) v)
      :: promote_row K labels' (tl ds) row'
  | _, _ => row
  end.

(** The merge fills the columns of a side with NaN in every row that has
    no partner on that side: the base columns in the right-only rows, the
    compare columns in the left-only rows.  An int64 column that receives
    NaN becomes float64 as a whole. *)
Definition left_gets_nan (A B : DataFrame) (K : list Label) : bool :=
  existsb (fun p => String.eqb (indicator p) "right_only")
          (full_outer_join (keys_of A K) (keys_of B K)).

Definition right_gets_nan (A B : DataFrame) (K : list Label) : bool :=
  existsb (fun p => String.eqb (indicator p) "left_only")
          (full_outer_join (keys_of A K) (keys_of B K)).

(** Row [i] of the base frame and row [j] of the compare frame as the
    merged frame holds them. *)
Definition left_row (A B : DataFrame) (K : list Label) (i : nat) : list Value :=
  let row := nth i (data A) [] in
  if left_gets_nan A B K then promote_row K (columns A) (dtypes A) row
  else row.

Definition right_row (A B : DataFrame) (K : list Label) (j : nat) : list Value :=
  let row := nth j (data B) [] in
  if right_gets_nan A B K then promote_row K (columns B) (dtypes B) row
  else row.

(** One row of the merged frame, for a pair of the join indexers.  A side
    without a row is filled with NaN; the key columns of a right-only row
    take the right row's key. *)
Definition merged_row (A B : DataFrame) (K : list Label)
           (p : option nat * option nat) : Series :=
  let rowB := option_map (right_row A B K) (snd p) in
  let left_part :=
    match fst p with
    | Some i =>
        map (fun cv => (suffix_label "_base" (to_rename A B K) (fst cv), snd cv))
            (to_series (columns A) (left_row A B K i))
    | None =>
        map (fun c => (suffix_label "_base" (to_rename A B K) c,
                       match rowB with
                       | Some rb => if label_in c K then cell (columns B) rb c
                                    else VNaN
                       | None => VNaN
                       end))
            (columns A)
    end in
  let right_part :=
    match rowB with
    | Some rb =>
        map (fun cv => (suffix_label "_compare" (to_rename A B K) (fst cv), snd cv))
            (filter (fun cv => negb (label_in (fst cv) K))
                    (to_series (columns B) rb))
    | None =>
        map (fun c => (suffix_label "_compare" (to_rename A B K) c, VNaN))
            (right_labels B K)
    end in
  left_part ++ right_part ++ [(LStr "_merge", VStr (indicator p))].

Record Merged : Type := mkMerged {
  mcolumns : list Label;
  mrows : list Series
}.

Definition reserved_labels : list Label :=
  [LStr "_left_indicator"; LStr "_right_indicator"; LStr "_merge"]%string.

(** [pd.merge(A, B, how="outer", on=K, suffixes=("_base", "_compare"),
    indicator=True)].  It raises when a key label is missing or names
    several columns, when a frame already has a column with one of the
    indicator's names, when there is no key column at all, and when the
    suffixes produce a repeated label on one side. *)
Definition merge (A B : DataFrame) (K : list Label) : Exc Merged :=
  match find (fun k => negb (label_in k (columns A) && label_in k (columns B))) K with
  | Some k => Err (KeyError k)
  | None =>
      if existsb (fun k => (1 <? count_label k (columns A))
                           || (1 <? count_label k (columns B))) K
      then Err ValueError
      else if existsb (fun r => label_in r (columns A) || label_in r (columns B))
                      reserved_labels
      then Err ValueError
      else if negb (nonempty K) then Err IndexError
      else if suffix_duplicates (columns A) (left_renamed A B K)
              || suffix_duplicates (right_labels B K) (right_renamed A B K)
      then Err MergeError
      else
        Ok (mkMerged (merged_columns A B K)
                     (map (merged_row A B K)
                          (full_outer_join (keys_of A K) (keys_of B K))))
  end.

(** ** Result collection (CompRep.py, lines 178-202) *)

(** What [row.get(l)] hands to the loop: [None] stands for Python's
    [None], returned for an absent label. *)
Definition PyVal : Type := option Value.

(** [pd.isna] on such a value. *)
Definition pd_isna (v : PyVal) : bool :=
  match v with None => true | Some x => isna x end.

(** [a != b] *)
Definition py_ne (a b : PyVal) : bool :=
  match a, b with
  | Some x, Some y => negb (py_eq x y)
  | None, None => false
  | _, _ => true
  end.

(** A recorded difference: column, base value, compare value.  The script
    prints it as [f"{col}: {val_a} / {val_b}"]. *)
Definition Entry : Type := (Label * PyVal * PyVal)%type.

(** [merged[merged['_merge'] == tag]] keeps the rows for which this holds. *)
Definition indicator_is (tag : string) (row : Series) : bool :=
  match series_get row (LStr "_merge") with
  | One (VStr t) => String.eqb t tag
  | _ => false
  end.

(** The body of the inner loop for one column of the base frame.  A label
    held by several columns makes [row.get] return a Series, and the
    tests that follow raise on its truth value. *)
Definition compare_column (K mcols : list Label) (row : Series) (col : Label)
  : Exc (list Entry) :=
  if label_in col K
     || negb (label_in (LStr (label_str col ++ "_compare")) mcols)
  then Ok []
  else
    match series_get row (LStr (label_str col ++ "_base")),
          series_get row (LStr (label_str col ++ "_compare")) with
    | Many, _ | _, Many => Err ValueError
    | a, b =>
        let val_a := match a with One v => Some v | _ => None end in
        let val_b := match b with One v => Some v | _ => None end in
        if pd_isna val_a && pd_isna val_b then Ok []
        else if py_ne val_a val_b then Ok [(col, val_a, val_b)]
        else Ok []
    end.

(** [differences] after the inner loop. *)
Fixpoint differences (base_cols K mcols : list Label) (row : Series)
  : Exc (list Entry) :=
  match base_cols with
  | [] => Ok []
  | col :: rest =>
      d <- compare_column K mcols row col ;;
      ds <- differences rest K mcols row ;;
      Ok (d ++ ds)
  end.

(** [" | ".join(str(row[k]) for k in key_columns)] *)
Fixpoint key_parts (K : list Label) (row : Series) : Exc (list string) :=
  match K with
  | [] => Ok []
  | k :: rest =>
      match series_get row k with
      | Absent => Err (KeyError k)
      | Many => Err NotModelled
      | One v => parts <- key_parts rest row ;; Ok (py_str v :: parts)
      end
  end.

Definition key_repr (K : list Label) (row : Series) : Exc string :=
  parts <- key_parts K row ;; Ok (PyStr.join " | " parts).

(** A row of [diff_rows].  The script joins the printed entries with
    [" | "]; the entries are kept apart here. *)
Record DiffRow : Type := mkDiffRow {
  Key_ : string;
  Differences : list Entry
}.

(** The first loop, over the rows already filtered to [both]. *)
Fixpoint collect_diff_rows (base_cols K mcols : list Label)
         (rows : list Series) : Exc (list DiffRow) :=
  match rows with
  | [] => Ok []
  | row :: rest =>
      ds <- differences base_cols K mcols row ;;
      if nonempty ds then
        k <- key_repr K row ;;
        more <- collect_diff_rows base_cols K mcols rest ;;
        Ok (mkDiffRow k ds :: more)
      else collect_diff_rows base_cols K mcols rest
  end.

(** The second and third loops. *)
Fixpoint collect_keys (K : list Label) (rows : list Series)
  : Exc (list string) :=
  match rows with
  | [] => Ok []
  | row :: rest =>
      k <- key_repr K row ;;
      more <- collect_keys K rest ;;
      Ok (k :: more)
  end.

Record Report : Type := mkReport {
  diff_rows : list DiffRow;
  only_in_base : list string;
  only_in_compare : list string
}.

Definition collect (df_base : DataFrame) (K : list Label) (merged : Merged)
  : Exc Report :=
  d <- collect_diff_rows (columns df_base) K (mcolumns merged)
         (filter (indicator_is "both") (mrows merged)) ;;
  l <- collect_keys K (filter (indicator_is "left_only") (mrows merged)) ;;
  r <- collect_keys K (filter (indicator_is "right_only") (mrows merged)) ;;
  Ok (mkReport d l r).

(** Lines 170-202: normalise the key columns of both frames, merge,
    collect. *)
Definition reconcile (df_base df_compare : DataFrame) (key_columns : list Label)
  : Exc Report :=
  base <- normalize_keys df_base key_columns ;;
  compare <- normalize_keys df_compare key_columns ;;
  merged <- merge base compare key_columns ;;
  collect base key_columns merged.

(** Lines 154-202: choose the key columns, then reconcile. *)
Definition compare_frames (user_keys : list string)
           (df_base df_compare : DataFrame) : Exc Report :=
  key_columns <- choose_keys user_keys df_base df_compare ;;
  reconcile df_base df_compare key_columns.

(** The script from loading on (lines 150-202), for the two workbooks and
    the options [keys=] and [maxline=]. *)
Definition main (user_keys : list string) (max_lines : option Z)
           (base_file compare_file : Workbook) : Exc Report :=
  df_base <- load_excel_clean max_lines base_file ;;
  df_compare <- load_excel_clean max_lines compare_file ;;
  compare_frames user_keys df_base df_compare.

End Model.

(** * The script before loading *)

(** ** Command line (CompRep.py, lines 6-71) *)

Module CommandLine.

(** The module-level settings the loop fills in. *)
Record Options : Type := mkOptions {
  user_keys : option (list string);
  max_lines : option Z;
  base_file : option string;
  compare_file : option string;
  excel_output : option string;
  debug_mode : bool
}.

(** Their values before the loop. *)
Definition defaults : Options :=
  mkOptions None None None None (Some "comp_result.xlsx"%string) false.

Definition valid_options : list string :=
  ["keys="; "maxline="; "base="; "compare="; "exc="; "debug=1"; "--help"]%string.

(** How the loop ends: all arguments read, [sys.exit(code)], or the
    exception raised for a bad [maxline]. *)
Inductive Outcome : Type :=
| Parsed (o : Options)
| Exit (code : Z)
| Failed (msg : string).

(** [s[n:]] *)
Fixpoint drop (n : nat) (s : string) : string :=
  match n, s with
  | O, _ => s
  | S n', String _ t => drop n' t
  | S _, EmptyString => EmptyString
  end.

(** [s.split(sep)] for a separator of one character. *)
Fixpoint split (sep : ascii) (s : string) : list string :=
  match s with
  | EmptyString => [EmptyString]
  | String c t =>
      if Ascii.eqb c sep then EmptyString :: split sep t
      else match split sep t with
           | p :: rest => String c p :: rest
           | [] => [String c EmptyString]
           end
  end.

(** [[k.strip() for k in text.split(",") if k.strip()]] *)
Definition parse_keys (text : string) : list string :=
  map PyStr.strip
      (filter (fun k => PyStr.truthy (PyStr.strip k)) (split ","%char text)).

Section Parse.

(** [int(text)], [None] standing for its [ValueError]. *)
Variable py_int : string -> option Z.

(** The body of the loop for one argument. *)
Definition parse_arg (o : Options) (arg : string) : Outcome :=
  if String.eqb arg "--help" then Exit 0
  else if negb (existsb (PyStr.startswith arg) valid_options) then Exit 1
  else if PyStr.startswith arg "keys=" then
    Parsed (mkOptions (Some (parse_keys (drop 5 arg))) (max_lines o)
                      (base_file o) (compare_file o) (excel_output o)
                      (debug_mode o))
  else if PyStr.startswith arg "maxline=" then
    match py_int (drop 8 arg) with
    | Some n =>
        Parsed (mkOptions (user_keys o) (Some n) (base_file o)
                          (compare_file o) (excel_output o) (debug_mode o))
    | None => Failed "Invalid maxline value. Use an integer."
    end
  else if PyStr.startswith arg "base=" then
    Parsed (mkOptions (user_keys o) (max_lines o)
                      (Some (PyStr.strip (drop 5 arg))) (compare_file o)
                      (excel_output o) (debug_mode o))
  else if PyStr.startswith arg "compare=" then
    Parsed (mkOptions (user_keys o) (max_lines o) (base_file o)
                      (Some (PyStr.strip (drop 8 arg))) (excel_output o)
                      (debug_mode o))
  else if PyStr.startswith arg "exc=" then
    let value := PyStr.strip (drop 4 arg) in
    Parsed (mkOptions (user_keys o) (max_lines o) (base_file o)
                      (compare_file o)
                      (if String.eqb (PyStr.lower value) "none" then None
                       else Some value)
                      (debug_mode o))
  else if PyStr.startswith arg "debug=1" then
    Parsed (mkOptions (user_keys o) (max_lines o) (base_file o)
                      (compare_file o) (excel_output o) true)
  else Parsed o.

(** [for arg in sys.argv[1:]: ...] *)
Fixpoint parse_args (o : Options) (args : list string) : Outcome :=
  match args with
  | [] => Parsed o
  | arg :: rest =>
      match parse_arg o arg with
      | Parsed o' => parse_args o' rest
      | stop => stop
      end
  end.

(** An argument the loop goes past. *)
Definition accepted (arg : string) : bool :=
  negb (String.eqb arg "--help")
  && existsb (PyStr.startswith arg) valid_options
  && (if PyStr.startswith arg "maxline=" then
        match py_int (drop 8 arg) with Some _ => true | None => false end
      else true).

End Parse.

(** The keys as [main] takes them: unset and empty are both falsy. *)
Definition keys_in_use (o : Options) : list string :=
  match user_keys o with Some ks => ks | None => [] end.

End CommandLine.

(** ** Choice of the two files (CompRep.py, lines 131-145) *)

Module FileChoice.

(** [s.endswith(suffix)] *)
Fixpoint endswith (s suffix : string) : bool :=
  String.eqb s suffix ||
  match s with
  | EmptyString => false
  | String _ t => endswith t suffix
  end.

(** [sorted] on strings, by insertion. *)
Fixpoint insert (x : string) (l : list string) : list string :=
  match l with
  | [] => [x]
  | y :: t => if String.leb x y then x :: l else y :: insert x t
  end.

Definition sorted (l : list string) : list string := fold_right insert [] l.

(** A file name counts as given when it is set and not empty. *)
Definition given (p : option string) : option string :=
  match p with
  | Some s => if PyStr.truthy s then Some s else None
  | None => None
  end.

(** [[f for f in os.listdir() if f.lower().endswith(".xlsx")]] *)
Definition xlsx_files (listdir : list string) : list string :=
  filter (fun f => endswith (PyStr.lower f) ".xlsx") listdir.

Definition check_exists (isfile : string -> bool) (message : string)
           (p : option string) : Exc unit :=
  match p with
  | Some f => if isfile f then Ok tt else Err (Raised (message ++ f))
  | None => Ok tt
  end.

(** File validation and the fallback to auto-detection.  [isfile] is
    [os.path.isfile] and [listdir] the result of [os.listdir()]. *)
Definition choose_files (isfile : string -> bool) (listdir : list string)
           (base_file compare_file : option string) : Exc (string * string) :=
  let base := given base_file in
  let compare := given compare_file in
  u <- check_exists isfile "Base file not found: " base ;;
  v <- check_exists isfile "Compare file not found: " compare ;;
  match base, compare with
  | Some b, Some c => Ok (b, c)
  | _, _ =>
      match sorted (xlsx_files listdir) with
      | f0 :: f1 :: _ =>
          Ok (match base with Some b => b | None => f0 end,
              match compare with Some c => c | None => f1 end)
      | _ => Err (Raised
                    "At least two .xlsx files are required in the current directory.")
      end
  end.

End FileChoice.

(** * Sample data *)

(** An instance of the float rendering: exact on integral floats below
    10^16 (["2.0"]); the sample tables hold no other float. *)
Definition sample_repr_float (q : Qc) : string :=
  (PyStr.str_of_int (Qnum (this q)) ++
   (if Pos.eqb (Qden (this q)) 1 then ".0"
    else "/" ++ PyStr.str_of_int (Zpos (Qden (this q)))))%string.

(** An instance of the header naming, for header rows without repeated
    names: a text cell names its column, an integer cell labels it, any
    other cell yields ["Unnamed: j"]. *)
Definition sample_header_labels (row : list Value) : list Label :=
  map (fun p => match snd p with
                | VStr s => LStr s
                | VInt z => LInt z
                | _ => LStr ("Unnamed: " ++ PyStr.str_of_int (Z.of_nat (fst p)))
                end)
      (combine (seq 0 (List.length row)) row).

(** An instance of the parser's reading of text: a few markers of a
    missing value, plain decimal numerals, anything else text. *)
Definition sample_parse_text (s : string) : Parsed :=
  if existsb (String.eqb s) ["NA"; "N/A"; "NaN"; "nan"; "NULL"; "null"]%string
  then PNa
  else match s with
       | EmptyString => PNa
       | _ => match NilZero.int_of_string s with
              | Some d => PInt (Z.of_int d)
              | None => PText
              end
       end.

(** A frame of text-labelled columns. *)
Definition frame_of (labels : list string) (ds : list Dtype)
           (rows : list (list Value)) : DataFrame :=
  mkFrame (map LStr labels) ds rows.

(** A sheet without any text: no header row can be found in it. *)
Definition numeric_sheet : list (list Value) :=
  [[VInt 1; VInt 2]; [VInt 3; VNaN]].

(** The table of scenario 3: [ID] repeats a value, [Code] does not. *)
Definition codes_table : DataFrame :=
  frame_of ["ID"; "Code"]%string [DInt; DObject]
           [[VInt 1; VStr "A"]; [VInt 2; VStr "B"]; [VInt 2; VStr "C"]].

(** The tables of scenario 4: one key, two amounts. *)
Definition amounts_base : DataFrame :=
  frame_of ["key"; "amt"]%string [DInt; DInt] [[VInt 1; VInt 10]].

Definition amounts_compare : DataFrame :=
  frame_of ["key"; "amt"]%string [DInt; DInt] [[VInt 1; VInt 20]].

(** The tables of scenario 6. *)
Definition scenario_base : DataFrame :=
  frame_of ["id"; "v"]%string [DInt; DInt] [[VInt 1; VInt 10]; [VInt 2; VInt 5]].

Definition scenario_compare : DataFrame :=
  frame_of ["id"; "v"]%string [DInt; DInt] [[VInt 1; VInt 10]; [VInt 3; VInt 7]].

(** A base table whose key is repeated, against a single compare row. *)
Definition repeated_base : DataFrame :=
  frame_of ["k"; "v"]%string [DInt; DInt] [[VInt 1; VInt 10]; [VInt 1; VInt 20]].

Definition repeated_compare : DataFrame :=
  frame_of ["k"; "v"]%string [DInt; DInt] [[VInt 1; VInt 10]].

(** Two tables with no column in common: the key found in the first one is
    not a column of the second. *)
Definition ids_base : DataFrame :=
  frame_of ["ID"]%string [DInt] [[VInt 1]; [VInt 2]].

Definition codes_compare : DataFrame :=
  frame_of ["Code"]%string [DObject] [[VStr "A"]].

(** Rows whose key cell is empty. *)
Definition blank_key_base : DataFrame :=
  frame_of ["id"; "v"]%string [DObject; DInt] [[VNaN; VInt 1]; [VStr "a"; VInt 2]].

Definition blank_key_compare : DataFrame :=
  frame_of ["id"; "v"]%string [DObject; DInt] [[VStr "b"; VInt 3]; [VNaN; VInt 4]].

(** A base table with the columns [X] and [X_compare], against a compare
    table that has neither. *)
Definition suffixed_base : DataFrame :=
  frame_of ["k"; "X"; "X_compare"]%string [DObject; DInt; DInt]
           [[VStr "1"; VInt 5; VInt 7]].

Definition suffixed_compare : DataFrame :=
  frame_of ["k"; "Y"]%string [DObject; DInt] [[VStr "1"; VInt 0]].

(** A table in which no single column is a key, but two together are. *)
Definition pairs_table : DataFrame :=
  frame_of ["Doc"; "Item"]%string [DInt; DInt]
           [[VInt 1; VInt 1]; [VInt 1; VInt 2]; [VInt 2; VInt 1]].


(** A sheet with a banner line above its header row, the workbook that
    holds it, and its first rows as read without a header. *)
Definition banner_sheet : Sheet :=
  [[VStr "Report"]; [VStr "ID"; VStr "Name"; VStr "Amount"];
   [VInt 1; VStr "a"; VInt 10]; [VInt 2; VStr "b"; VInt 20]].

Definition banner_workbook : Workbook := [("Sheet1"%string, banner_sheet)].

Definition banner_preview : DataFrame :=
  mkFrame [LInt 0; LInt 1; LInt 2] [DObject; DObject; DObject]
          (map (pad_row 3) banner_sheet).

(** A directory listing. *)
Definition sample_listing : list string :=
  ["b.xlsx"; "notes.txt"; "a.XLSX"; "c.xlsx"]%string.

(** An instance of [int] on text: plain decimal numerals. *)
Definition sample_py_int (s : string) : option Z :=
  match s with
  | EmptyString => None
  | _ => option_map Z.of_int (NilZero.int_of_string s)
  end.

(** Two tables with a row each that has no partner, so that the merge
    promotes the integer column [v] on both sides. *)
Definition partial_base : DataFrame :=
  frame_of ["id"; "v"]%string [DInt; DInt] [[VInt 1; VInt 1]; [VInt 2; VInt 5]].

Definition partial_compare : DataFrame :=
  frame_of ["id"; "v"]%string [DInt; DInt] [[VInt 1; VInt 9]; [VInt 3; VInt 7]].

(** Two integers of 54 bits that differ by one, in a row with the same
    key; the second compare table lacks the row without partner. *)
Definition wide_base : DataFrame :=
  frame_of ["k"; "v"]%string [DInt; DInt] [[VInt 1; VInt 9007199254740993]].

Definition wide_compare : DataFrame :=
  frame_of ["k"; "v"]%string [DInt; DInt]
           [[VInt 1; VInt 9007199254740992]; [VInt 2; VInt 0]].


(** * Notions used to state the properties *)

(** The names of a list that are not placeholders. *)
Definition real_names (cols : list Label) : list Label :=
  filter (fun c => negb (is_placeholder c)) cols.

(** The name given to a placeholder that follows [prev]. *)
Definition generated (prev : Label) : Label :=
  LStr (label_str prev ++ " (Text)").

(** The positions that hold a placeholder. *)
Definition placeholder_positions (cols : list Label) : list nat :=
  filter (fun i => match nth_error cols i with
                   | Some c => is_placeholder c
                   | None => false
                   end)
         (seq 0 (List.length cols)).

(** For each placeholder, in order, the name it is named after: the most
    recent real name before its position, [prev] when there is none. *)
Definition named_after_from (prev : Label) (cols : list Label) : list Label :=
  map (fun i => last (real_names (firstn i cols)) prev)
      (placeholder_positions cols).

Definition named_after (cols : list Label) : list Label :=
  named_after_from (LStr "Unnamed") cols.

(** No two rows of a column (or of a projection) hold the same value. *)
Definition pairwise_distinct {A : Type} (same : A -> A -> bool) (l : list A)
  : Prop :=
  forall i j x y,
    i <> j -> nth_error l i = Some x -> nth_error l j = Some y ->
    same x y = false.

(** The first 20 rows of a sheet as the header locator sees them: padded
    to the width of the sheet and parsed. *)
Definition preview_rows (parse_text : string -> Parsed) (sheet : Sheet)
  : list (list Value) :=
  parse_cells parse_text (sheet_width sheet)
              (firstn 20 (map (pad_row (sheet_width sheet)) sheet)).

(** The number of rows the header-less read keeps. *)
Definition kept_rows (max_lines : option Z) (sheet : list (list Value)) : nat :=
  match max_lines with
  | None => List.length sheet
  | Some n => Nat.min (Z.to_nat n) (List.length sheet)
  end.

(** ** Reconciliation in the words of the specification *)

Section Reconciliation.
Variable repr_float : Qc -> string.

(** Every row has one value per column. *)
Definition wf_frame (df : DataFrame) : bool :=
  forallb (fun row => List.length row =? List.length (columns df)) (data df).

(** The inputs on which the merge is unambiguous: aligned rows, a key
    set that is not empty, its columns present on both sides, no repeated
    label in either table nor in the merged frame (so no clash produced by
    the suffixes), and no column with one of the indicator's names. *)
Definition well_formed (A B : DataFrame) (K : list Label) : bool :=
  wf_frame A && wf_frame B
  && nonempty K
  && forallb (fun k => label_in k (columns A) && label_in k (columns B)) K
  && all_distinct Label_eqb (columns B)
  && all_distinct Label_eqb (merged_columns A B K)
  && negb (existsb (fun r => label_in r (columns A) || label_in r (columns B))
                   reserved_labels).

(** The join of the two tables on the key columns. *)
Definition join_of (A B : DataFrame) (K : list Label)
  : list (option nat * option nat) :=
  full_outer_join (keys_of repr_float A K) (keys_of repr_float B K).

Definition is_both (p : option nat * option nat) : bool :=
  match p with (Some _, Some _) => true | _ => false end.

Definition is_left_only (p : option nat * option nat) : bool :=
  match p with (Some _, None) => true | _ => false end.

Definition is_right_only (p : option nat * option nat) : bool :=
  match p with (None, Some _) => true | _ => false end.

(** The key of a joined pair: that of its base row, or of its compare row
    when there is no base row. *)
Definition pair_key (A B : DataFrame) (K : list Label)
           (p : option nat * option nat) : Key :=
  match p with
  | (Some i, _) => key_of repr_float (columns A) K (nth i (data A) [])
  | (None, Some j) => key_of repr_float (columns B) K (nth j (data B) [])
  | (None, None) => []
  end.

(** The differences recorded for a joined pair. *)
Definition row_differences (A B : DataFrame) (K : list Label)
           (p : option nat * option nat) : list Entry :=
  match differences (columns A) K (merged_columns A B K) (merged_row repr_float A B K p) with
  | Ok ds => ds
  | Err _ => []
  end.

(** The three classes of the joined pairs, plus the matched pairs without
    difference, which the report drops. *)
Definition changed_pairs (A B : DataFrame) (K : list Label) :=
  filter (fun p => is_both p && nonempty (row_differences A B K p))
         (join_of A B K).

Definition identical_pairs (A B : DataFrame) (K : list Label) :=
  filter (fun p => is_both p && negb (nonempty (row_differences A B K p)))
         (join_of A B K).

Definition left_only_pairs (A B : DataFrame) (K : list Label) :=
  filter is_left_only (join_of A B K).

Definition right_only_pairs (A B : DataFrame) (K : list Label) :=
  filter is_right_only (join_of A B K).

Definition render_key (A B : DataFrame) (K : list Label)
           (p : option nat * option nat) : string :=
  PyStr.join " | " (pair_key A B K p).

(** The report: Changed, LeftOnly, RightOnly. *)
Definition report_of (A B : DataFrame) (K : list Label) : Report :=
  mkReport
    (map (fun p => mkDiffRow (render_key A B K p) (row_differences A B K p))
         (changed_pairs A B K))
    (map (render_key A B K) (left_only_pairs A B K))
    (map (render_key A B K) (right_only_pairs A B K)).

(** The keys found in a class. *)
Definition class_keys (A B : DataFrame) (K : list Label)
           (class : list (option nat * option nat)) : list Key :=
  map (pair_key A B K) class.

End Reconciliation.

(** The indices of a pair point into the two tables. *)
Definition in_range (A B : DataFrame) (p : option nat * option nat) : Prop :=
  match fst p with Some i => i < List.length (data A) | None => True end /\
  match snd p with Some j => j < List.length (data B) | None => True end.

(** [well_formed], as propositions. *)
Record inputs_ok (A B : DataFrame) (K : list Label) : Prop := {
  rows_A : forall row, In row (data A) -> List.length row = List.length (columns A);
  rows_B : forall row, In row (data B) -> List.length row = List.length (columns B);
  keys_given : K <> [];
  keys_A : incl K (columns A);
  keys_B : incl K (columns B);
  labels_A : NoDup (columns A);
  labels_B : NoDup (columns B);
  labels_merged : NoDup (merged_columns A B K);
  no_reserved : forall r, In r reserved_labels ->
                          ~ In r (columns A) /\ ~ In r (columns B)
}.

(** Exactly one of three propositions holds. *)
Definition exactly_one (P Q R : Prop) : Prop :=
  (P /\ ~ Q /\ ~ R) \/ (~ P /\ Q /\ ~ R) \/ (~ P /\ ~ Q /\ R).

(** No column that only one table has passes the loop's test
    [f"{col}_compare" in merged.columns]. *)
Definition no_stray_suffix (A B : DataFrame) (K : list Label) : Prop :=
  forall c, In c (columns A) -> ~ In c K -> ~ In c (columns B) ->
            ~ In (LStr (label_str c ++ "_compare")) (merged_columns A B K).

(** A pair of the join with its sides exchanged. *)
Definition swap_pair (p : option nat * option nat) : option nat * option nat :=
  (snd p, fst p).

(** A cell that a float64 holds exactly: anything but an integer of more
    than 53 bits. *)
Definition exact_in_float64 (v : Value) : bool :=
  match v with
  | VInt z => (Z.abs z <=? 9007199254740992)%Z
  | _ => true
  end.

(** A text cell. *)
Definition is_text (v : Value) : bool :=
  match v with VStr _ => true | _ => false end.

(** * Properties *)

Unset Implicit Arguments.

(** ** Lists *)

Lemma last_cons_default (A : Type) (l : list A) (a d : A) :
  last (a :: l) d = last l a.
Proof.
  revert a d. induction l as [|b l IH]; intros a d; [reflexivity|].
  change (last (a :: b :: l) d) with (last (b :: l) d).
  rewrite (IH b d), (IH b a). reflexivity.
Qed.

Lemma Label_eqb_eq (a b : Label) : Label_eqb a b = true <-> a = b.
Proof. unfold Label_eqb. destruct (Label_eq_dec a b); split; congruence. Qed.

Lemma Label_eqb_refl (a : Label) : Label_eqb a a = true.
Proof. apply Label_eqb_eq. reflexivity. Qed.

Lemma label_in_In (c : Label) (l : list Label) : label_in c l = true <-> In c l.
Proof.
  unfold label_in. rewrite existsb_exists. split.
  - intros [x [Hx He]]. apply Label_eqb_eq in He. subst. assumption.
  - intros H. exists c. split; [assumption | apply Label_eqb_refl].
Qed.

Lemma label_in_not_In (c : Label) (l : list Label) :
  label_in c l = false <-> ~ In c l.
Proof.
  rewrite <- label_in_In. destruct (label_in c l); split; congruence.
Qed.

Lemma string_length_append (s t : string) :
  String.length (s ++ t) = String.length s + String.length t.
Proof. induction s as [|a s IH]; simpl; [reflexivity | rewrite IH; reflexivity]. Qed.

Lemma append_inj_l (s t u : string) : (s ++ u)%string = (t ++ u)%string -> s = t.
Proof.
  intros H.
  assert (Hlen : String.length s = String.length t).
  { apply (f_equal String.length) in H. rewrite !string_length_append in H. lia. }
  revert t H Hlen. induction s as [|a s IH]; intros [|b t] H Hlen;
    simpl in *; try discriminate; [reflexivity|].
  injection H as -> H. f_equal. apply IH; [assumption | lia].
Qed.

Lemma filter_nil (A : Type) (f : A -> bool) (l : list A) :
  (forall x, In x l -> f x = false) -> filter f l = [].
Proof.
  induction l as [|a l IH]; simpl; intros H; [reflexivity|].
  rewrite (H a (or_introl eq_refl)). apply IH. auto.
Qed.

Section Distinct.
Variable A : Type.
Variable eqb : A -> A -> bool.

Lemma all_distinct_pairwise (l : list A) :
  (forall x y, eqb x y = eqb y x) ->
  all_distinct eqb l = true -> pairwise_distinct eqb l.
Proof.
  intros Hsym. induction l as [|a l IH]; intros Hd i j x y Hij Hi Hj.
  - destruct i; discriminate.
  - simpl in Hd. apply andb_true_iff in Hd as [Hhead Htail].
    apply negb_true_iff in Hhead.
    assert (Hall : forall z, In z l -> eqb a z = false).
    { intros z Hz. destruct (eqb a z) eqn:E; [|reflexivity].
      rewrite <- Hhead. symmetry. apply existsb_exists. exists z. auto. }
    destruct i as [|i], j as [|j]; simpl in Hi, Hj.
    + contradiction.
    + injection Hi as <-. apply Hall. eapply nth_error_In; eassumption.
    + injection Hj as <-. rewrite Hsym. apply Hall.
      eapply nth_error_In; eassumption.
    + apply (IH Htail i j); auto.
Qed.

Hypothesis eqb_eq : forall x y, eqb x y = true <-> x = y.

Lemma drop_duplicates_In (l : list A) (x : A) :
  In x (drop_duplicates eqb l) <-> In x l.
Proof.
  induction l as [|a l IH]; simpl; [tauto|].
  rewrite filter_In, IH. split.
  - intros [H | [H _]]; auto.
  - intros [H | H]; [auto|].
    destruct (eqb a x) eqn:E.
    + left. apply eqb_eq. assumption.
    + right. split; [assumption | reflexivity].
Qed.

Lemma drop_duplicates_NoDup (l : list A) : NoDup (drop_duplicates eqb l).
Proof.
  induction l as [|a l IH]; simpl; constructor.
  - rewrite filter_In. intros [_ H]. apply negb_true_iff in H.
    assert (eqb a a = true) by (apply eqb_eq; reflexivity). congruence.
  - apply NoDup_filter. assumption.
Qed.

Lemma drop_duplicates_length (l : list A) :
  List.length (drop_duplicates eqb l) <= List.length l.
Proof.
  induction l as [|a l IH]; simpl; [lia|].
  pose proof (filter_length_le (fun y => negb (eqb a y)) (drop_duplicates eqb l)).
  lia.
Qed.

Lemma filter_all_length (f : A -> bool) (l : list A) :
  List.length (filter f l) = List.length l -> forall x, In x l -> f x = true.
Proof.
  induction l as [|a l IH]; simpl; intros H x Hx; [contradiction|].
  pose proof (filter_length_le f l).
  destruct (f a) eqn:E; simpl in H; [|lia].
  destruct Hx as [<- | Hx]; [assumption | apply IH; [lia | assumption]].
Qed.

Lemma drop_duplicates_full (l : list A) :
  List.length (drop_duplicates eqb l) = List.length l -> NoDup l.
Proof.
  induction l as [|a l IH]; simpl; intros H; constructor.
  - pose proof (filter_length_le (fun y => negb (eqb a y)) (drop_duplicates eqb l)).
    pose proof (drop_duplicates_length l).
    intros Hin. apply drop_duplicates_In in Hin.
    assert (Hf : negb (eqb a a) = true).
    { apply (filter_all_length (fun y => negb (eqb a y)) (drop_duplicates eqb l));
        [lia | assumption]. }
    apply negb_true_iff in Hf.
    assert (eqb a a = true) by (apply eqb_eq; reflexivity). congruence.
  - apply IH.
    pose proof (filter_length_le (fun y => negb (eqb a y)) (drop_duplicates eqb l)).
    pose proof (drop_duplicates_length l). lia.
Qed.

Lemma NoDup_pairwise (l : list A) : NoDup l -> pairwise_distinct eqb l.
Proof.
  intros Hnd i j x y Hij Hi Hj.
  destruct (eqb x y) eqn:E; [|reflexivity].
  apply eqb_eq in E. subst y. exfalso. apply Hij.
  apply (proj1 (NoDup_nth_error l) Hnd).
  - apply nth_error_Some. congruence.
  - congruence.
Qed.

Lemma combinations_In (l : list A) (r : nat) (combo : list A) :
  In combo (combinations l r) -> List.length combo = r /\ incl combo l.
Proof.
  revert r combo. induction l as [|a l IH]; intros [|r] combo H; simpl in H.
  - destruct H as [<- | []]. split; [reflexivity | intros x []].
  - contradiction.
  - destruct H as [<- | []]. split; [reflexivity | intros x []].
  - apply in_app_or in H as [H | H].
    + apply in_map_iff in H as [c [<- Hc]]. apply IH in Hc as [Hlen Hincl].
      split; [simpl; lia|]. intros x [<- | Hx]; [left; reflexivity|].
      right. apply Hincl. assumption.
    + apply IH in H as [Hlen Hincl]. split; [assumption|].
      intros x Hx. right. apply Hincl. assumption.
Qed.
End Distinct.

Lemma list_eqb_eq (A : Type) (eqb : A -> A -> bool) :
  (forall x y, eqb x y = true <-> x = y) ->
  forall l1 l2, list_eqb eqb l1 l2 = true <-> l1 = l2.
Proof.
  intros Heq. induction l1 as [|a l1 IH]; intros [|b l2]; simpl;
    try (split; [discriminate | discriminate]); [tauto|].
  rewrite andb_true_iff, Heq, IH. split.
  - intros [-> ->]. reflexivity.
  - intros H. injection H as -> ->. split; reflexivity.
Qed.

Lemma Key_eqb_eq (a b : Key) : Key_eqb a b = true <-> a = b.
Proof. apply list_eqb_eq. apply String.eqb_eq. Qed.

Lemma Key_eqb_refl (a : Key) : Key_eqb a a = true.
Proof. apply Key_eqb_eq. reflexivity. Qed.

(** ** Values *)

Lemma Qc_eq_bool_sym (p q : Qc) : Qc_eq_bool p q = Qc_eq_bool q p.
Proof.
  unfold Qc_eq_bool. destruct (Qc_eq_dec p q), (Qc_eq_dec q p); congruence.
Qed.

Lemma py_eq_sym (a b : Value) : py_eq a b = py_eq b a.
Proof.
  destruct a, b; simpl; try reflexivity.
  - apply String.eqb_sym.
  - apply Z.eqb_sym.
  - apply Qc_eq_bool_sym.
  - apply Qc_eq_bool_sym.
  - apply Qc_eq_bool_sym.
Qed.

Lemma same_value_sym (a b : Value) : same_value a b = same_value b a.
Proof.
  unfold same_value. rewrite py_eq_sym, (andb_comm (isna a)). reflexivity.
Qed.

(** ** Column normaliser *)

Lemma rename_from_length (cols : list Label) (prev : Label) :
  List.length (rename_from prev cols) = List.length cols.
Proof.
  revert prev. induction cols as [|c cols IH]; intros prev; simpl; [reflexivity|].
  destruct (is_placeholder c); simpl; rewrite IH; reflexivity.
Qed.

Lemma real_names_cons (c : Label) (l : list Label) :
  real_names (c :: l) =
  if is_placeholder c then real_names l else c :: real_names l.
Proof. unfold real_names. simpl. destruct (is_placeholder c); reflexivity. Qed.

Lemma rename_from_nth (cols : list Label) (prev : Label) (i : nat) (col : Label) :
  nth_error cols i = Some col ->
  nth_error (rename_from prev cols) i =
  Some (if is_placeholder col
        then generated (last (real_names (firstn i cols)) prev)
        else col).
Proof.
  revert prev i. induction cols as [|c cols IH]; intros prev [|i] H;
    simpl in H; try discriminate.
  - injection H as ->. simpl. destruct (is_placeholder col); reflexivity.
  - rewrite firstn_cons, real_names_cons. simpl rename_from.
    destruct (is_placeholder c) eqn:Hc; simpl nth_error.
    + apply IH. assumption.
    + rewrite (IH c i H), last_cons_default. reflexivity.
Qed.

(** C7. [rename_unnamed_columns] keeps the length; at every position a name
    that is not a placeholder is returned unchanged and a placeholder is
    replaced by ["<lastRealName> (Text)"], where [lastRealName] is the most
    recent real name before that position, ["Unnamed"] when there is none. *)
Theorem rename_unnamed_columns_spec (cols : list Label) :
  List.length (rename_unnamed_columns cols) = List.length cols /\
  (forall i col, nth_error cols i = Some col ->
     nth_error (rename_unnamed_columns cols) i =
     Some (if is_placeholder col
           then LStr (label_str (last_real_name (firstn i cols)) ++ " (Text)")
           else col)) /\
  (forall i col, nth_error cols i = Some col ->
     is_placeholder col = true ->
     (forall c, In c (firstn i cols) -> is_placeholder c = true) ->
     nth_error (rename_unnamed_columns cols) i = Some (LStr "Unnamed (Text)")).
Proof.
  split; [apply rename_from_length|]. split.
  - intros i col H. unfold rename_unnamed_columns.
    rewrite (rename_from_nth _ _ _ _ H). reflexivity.
  - intros i col H Hp Hall. unfold rename_unnamed_columns.
    rewrite (rename_from_nth _ _ _ _ H), Hp.
    replace (real_names (firstn i cols)) with (@nil Label); [reflexivity|].
    symmetry. unfold real_names.
    induction (firstn i cols) as [|c l IH]; [reflexivity|]. simpl.
    rewrite (Hall c (or_introl eq_refl)). simpl.
    apply IH. intros c' Hc'. apply Hall. right. assumption.
Qed.

Lemma placeholder_positions_cons (c : Label) (cols : list Label) :
  placeholder_positions (c :: cols)
  = (if is_placeholder c then [0] else [])
    ++ map S (placeholder_positions cols).
Proof.
  unfold placeholder_positions. cbn [List.length seq filter nth_error].
  rewrite <- seq_shift, filter_map_swap. cbn [nth_error].
  destruct (is_placeholder c); reflexivity.
Qed.

Lemma named_after_from_cons (prev c : Label) (cols : list Label) :
  named_after_from prev (c :: cols)
  = if is_placeholder c then prev :: named_after_from prev cols
    else named_after_from c cols.
Proof.
  unfold named_after_from. rewrite placeholder_positions_cons, map_app, map_map.
  destruct (is_placeholder c) eqn:Hc; cbn [map app firstn real_names];
    [f_equal|]; apply map_ext; intros i;
    rewrite real_names_cons, Hc; [reflexivity | apply last_cons_default].
Qed.

(** The normalised names are the real names together with one generated
    name per placeholder. *)
Lemma rename_from_split (cols : list Label) (prev : Label) :
  Permutation (rename_from prev cols)
              (real_names cols ++ map generated (named_after_from prev cols)).
Proof.
  revert prev. induction cols as [|c cols IH]; intros prev;
    [apply perm_nil|].
  cbn [rename_from]. rewrite real_names_cons, named_after_from_cons.
  destruct (is_placeholder c).
  - cbn [map]. apply Permutation_cons_app. apply IH.
  - cbn [app]. apply perm_skip. apply IH.
Qed.

Lemma generated_inj (r r' : Label) :
  generated r = generated r' -> label_str r = label_str r'.
Proof.
  unfold generated. intros H. injection H as H.
  apply append_inj_l in H. exact H.
Qed.

Lemma NoDup_generated (l : list Label) :
  NoDup (map generated l) <-> NoDup (map label_str l).
Proof.
  split.
  - induction l as [|r l IH]; intros H; [constructor|].
    cbn [map] in *. inversion H as [|? ? Hn Hd]; subst.
    constructor; [|apply IH; exact Hd].
    intros Hin. apply Hn. apply in_map_iff in Hin as [r' [E Hr']].
    apply in_map_iff. exists r'. split; [|exact Hr'].
    unfold generated. rewrite E. reflexivity.
  - induction l as [|r l IH]; intros H; [constructor|].
    cbn [map] in *. inversion H as [|? ? Hn Hd]; subst.
    constructor; [|apply IH; exact Hd].
    intros Hin. apply Hn. apply in_map_iff in Hin as [r' [E Hr']].
    apply in_map_iff. exists r'. split; [|exact Hr'].
    apply generated_inj. exact E.
Qed.

Lemma NoDup_app_iff (A : Type) (l l' : list A) :
  NoDup (l ++ l') <->
  NoDup l /\ NoDup l' /\ (forall a, In a l -> ~ In a l').
Proof.
  split.
  - intros H. split; [apply (NoDup_app_remove_r _ _ H)|].
    split; [apply (NoDup_app_remove_l _ _ H)|].
    induction l as [|x l IH]; [intros a []|].
    cbn [app] in H. inversion H as [|? ? Hn Hd]; subst.
    intros a [<- | Ha] Hin.
    + apply Hn. apply in_or_app. right. exact Hin.
    + apply (IH Hd a Ha Hin).
  - intros [H1 [H2 H3]]. apply NoDup_app; assumption.
Qed.

(** C8 (as stated, refuted). Pairwise-distinct raw names do not make the
    normalised names pairwise unique: two placeholders that follow the same
    real name receive the same new name. *)
Lemma rename_unnamed_columns_not_unique :
  ~ (forall cols : list Label,
        NoDup cols -> NoDup (rename_unnamed_columns cols)).
Proof.
  intros H.
  specialize (H [LStr "ID"; LStr "Unnamed: 1"; LStr "Unnamed: 2"]).
  assert (Hnd : NoDup [LStr "ID"; LStr "Unnamed: 1"; LStr "Unnamed: 2"]).
  { repeat constructor; simpl; intuition discriminate. }
  specialize (H Hnd). vm_compute in H.
  inversion H as [|? ? _ H1]; subst.
  inversion H1 as [|? ? Hn _]; subst.
  apply Hn. left. reflexivity.
Qed.

(** C8 (amended). The normalised names are pairwise unique exactly when
    the real names are pairwise distinct, no two placeholders are named
    after real names with the same text (so no two placeholders follow
    the same real name, and at most one comes before the first real
    name), and no real name is the name generated for a placeholder
    (["<name it follows> (Text)"]). *)
Theorem rename_unnamed_columns_unique (cols : list Label) :
  NoDup (rename_unnamed_columns cols) <->
  NoDup (real_names cols) /\
  NoDup (map label_str (named_after cols)) /\
  (forall r c, In r (named_after cols) -> In c (real_names cols) ->
               c <> generated r).
Proof.
  unfold rename_unnamed_columns, named_after.
  pose proof (rename_from_split cols (LStr "Unnamed")) as Hp.
  assert (Hiff : NoDup (rename_from (LStr "Unnamed") cols) <->
                 NoDup (real_names cols
                        ++ map generated
                             (named_after_from (LStr "Unnamed") cols))).
  { split; apply Permutation_NoDup;
      [exact Hp | apply Permutation_sym; exact Hp]. }
  rewrite Hiff, NoDup_app_iff, NoDup_generated.
  split; intros [H1 [H2 H3]]; (split; [exact H1|]; split; [exact H2|]).
  - intros r c Hr Hc E. apply (H3 c Hc). rewrite E. apply in_map. exact Hr.
  - intros c Hc Hin. apply in_map_iff in Hin as [r [E Hr]].
    apply (H3 r c Hr Hc). symmetry. exact E.
Qed.

Lemma rename_unnamed_columns_unique_witness :
  NoDup (rename_unnamed_columns
           [LStr "Unnamed: 0"; LStr "ID"; LStr "Unnamed: 2"; LStr "Amount"]).
Proof.
  apply (proj2 (rename_unnamed_columns_unique
                  [LStr "Unnamed: 0"; LStr "ID"; LStr "Unnamed: 2";
                   LStr "Amount"])).
  split; [|split].
  - vm_compute. repeat constructor; simpl; intuition discriminate.
  - vm_compute. repeat constructor; simpl; intuition discriminate.
  - vm_compute. intros r c [<- | [<- | []]] [<- | [<- | []]]; discriminate.
Defined.

Section Facts.

(** The open parts of the model, see [Model]. *)
Variable rf : Qc -> string.
Variable hl : list Value -> list Label.
Variable pt : string -> Parsed.

(** ** Key discoverer *)

Lemma candidates_incl (df : DataFrame) : incl (candidates df) (columns df).
Proof. intros c H. apply filter_In in H. tauto. Qed.

Lemma find_unique_key_incl (df : DataFrame) (max_columns : nat)
      (key : list Label) :
  find_unique_key rf df max_columns = Ok (Some key) ->
  key <> [] /\ incl key (columns df).
Proof.
  unfold find_unique_key.
  destruct (negb (all_distinct Label_eqb (columns df))); [discriminate|].
  destruct (find (is_unique df) (candidates df)) as [col|] eqn:F.
  - intros H. injection H as <-. apply find_some in F as [Hin _].
    split; [discriminate|].
    intros c [<- | []]. apply candidates_incl. assumption.
  - intros H. injection H as H. apply find_some in H as [Hin _].
    apply in_flat_map in Hin as [r [Hr Hc]].
    apply combinations_In in Hc as [Hlen Hincl]. apply in_seq in Hr.
    split; [intros ->; simpl in Hlen; lia|].
    intros c Hc. apply candidates_incl. apply Hincl. assumption.
Qed.

(** C2. A column list returned by [find_unique_key] is not empty, names
    columns of the table and is a key of it: a single column holds
    pairwise distinct values (compared natively, as [is_unique] does), a
    combination of two to [max_columns] columns has pairwise distinct
    stringified row projections. *)
Theorem find_unique_key_is_key (df : DataFrame) (max_columns : nat)
        (key : list Label) :
  find_unique_key rf df max_columns = Ok (Some key) ->
  key <> [] /\ incl key (columns df) /\
  ((exists col, key = [col] /\
                pairwise_distinct same_value (column_values df col)) \/
   (2 <= List.length key <= max_columns /\
    pairwise_distinct Key_eqb (stringified_projection rf df key))).
Proof.
  unfold find_unique_key.
  destruct (negb (all_distinct Label_eqb (columns df))); [discriminate|].
  destruct (find (is_unique df) (candidates df)) as [col|] eqn:F.
  - intros H. injection H as <-. apply find_some in F as [Hin Hu].
    split; [discriminate|]. split.
    + intros c [<- | []]. apply candidates_incl. assumption.
    + left. exists col. split; [reflexivity|].
      apply all_distinct_pairwise; [apply same_value_sym | exact Hu].
  - intros H. injection H as H. apply find_some in H as [Hin Hk].
    apply in_flat_map in Hin as [r [Hr Hc]].
    apply combinations_In in Hc as [Hlen Hincl].
    apply in_seq in Hr.
    assert (Hbound : 2 <= List.length key <= max_columns) by lia.
    split; [intros ->; simpl in Hbound; lia|]. split.
    + intros c Hc. apply candidates_incl. apply Hincl. assumption.
    + right. split; [assumption|].
      apply NoDup_pairwise; [apply Key_eqb_eq|].
      apply (drop_duplicates_full _ Key_eqb Key_eqb_eq).
      unfold combo_is_key in Hk. apply Nat.eqb_eq in Hk.
      rewrite Hk. unfold stringified_projection. rewrite length_map.
      reflexivity.
Qed.

(** ** Header locator and loader *)

Lemma detect_from_None (rows : list (list Value)) (i m : nat) :
  (forall row, In row rows -> text_count row < m) ->
  detect_from rows i m = None.
Proof.
  revert i. induction rows as [|row rows IH]; intros i H; simpl; [reflexivity|].
  destruct (m <=? text_count row) eqn:E.
  - apply Nat.leb_le in E. specialize (H row (or_introl eq_refl)). lia.
  - apply IH. intros r Hr. apply H. right. assumption.
Qed.

Lemma text_count_coerce_row (ds : list Dtype) (row : list Value) :
  text_count (coerce_row ds row) = text_count row.
Proof.
  unfold text_count. revert row.
  induction ds as [|d ds IH]; intros [|v row]; simpl; try reflexivity.
  assert (Hv : is_text_cell (coerce d v) = is_text_cell v)
    by (destruct d, v; reflexivity).
  rewrite Hv. destruct (is_text_cell v); simpl; rewrite IH; reflexivity.
Qed.

Lemma text_count_pad_row (w : nat) (row : list Value) :
  text_count (pad_row w row) = text_count row.
Proof.
  unfold text_count, pad_row. rewrite filter_app, length_app.
  induction (w - List.length row) as [|n IH]; simpl; lia.
Qed.

Lemma is_text_cell_parse (b : bool) (v : Value) :
  is_text_cell (if b then parse_numeric pt v else parse_na pt v) = true ->
  is_text_cell v = true.
Proof.
  destruct b, v as [s| | |]; simpl; try discriminate;
    destruct (pt s); simpl; intros H; try discriminate; exact H.
Qed.

(** Parsing never makes a text cell. *)
Lemma text_count_parse_row (numeric : list bool) (row : list Value) :
  text_count (parse_row pt numeric row) <= text_count row.
Proof.
  unfold text_count. revert row.
  induction numeric as [|b numeric IH]; intros [|v row]; simpl; try lia.
  specialize (IH row).
  destruct (is_text_cell (if b then parse_numeric pt v else parse_na pt v))
    eqn:E.
  - rewrite (is_text_cell_parse b v E). simpl. lia.
  - destruct (is_text_cell v); simpl; lia.
Qed.

Lemma parse_cells_length (w : nat) (body : list (list Value)) :
  List.length (parse_cells pt w body) = List.length body.
Proof. unfold parse_cells. apply length_map. Qed.

Lemma rename_from_positional (prev : Label) (l : list nat) :
  rename_from prev (map (fun j => LInt (Z.of_nat j)) l)
  = map (fun j => LInt (Z.of_nat j)) l.
Proof.
  revert prev. induction l as [|j l IH]; intros prev; simpl; [reflexivity|].
  rewrite IH. reflexivity.
Qed.

(** ** Key normalisation *)

Lemma astype_str_columns (df df' : DataFrame) (col : Label) :
  astype_str rf df col = Ok df' ->
  In col (columns df) /\ columns df' = columns df.
Proof.
  unfold astype_str. destruct (label_in col (columns df)) eqn:E;
    [|discriminate].
  intros H. injection H as <-. split; [apply label_in_In; exact E | reflexivity].
Qed.

Lemma normalize_keys_Ok (K : list Label) :
  forall df df', normalize_keys rf df K = Ok df' ->
                 incl K (columns df) /\ columns df' = columns df.
Proof.
  induction K as [|k K IH]; intros df df' H; simpl in H.
  - injection H as <-. split; [intros x [] | reflexivity].
  - destruct (astype_str rf df k) as [d|e] eqn:E; simpl in H; [|discriminate].
    apply astype_str_columns in E as [Hin Hc].
    apply IH in H as [Hincl Hc']. rewrite Hc in *. split; [|assumption].
    intros x [<- | Hx]; [assumption | apply Hincl; assumption].
Qed.

Lemma normalize_keys_total (K : list Label) :
  forall df, incl K (columns df) ->
             exists df', normalize_keys rf df K = Ok df'.
Proof.
  induction K as [|k K IH]; intros df Hincl; simpl.
  - exists df. reflexivity.
  - unfold astype_str at 1.
    rewrite (proj2 (label_in_In k (columns df)) (Hincl k (or_introl eq_refl))).
    cbn [bind]. apply IH. cbn [columns].
    intros x Hx. apply Hincl. right. assumption.
Qed.

Lemma normalize_keys_missing (K : list Label) :
  forall df k,
    find (fun k => negb (label_in k (columns df))) K = Some k ->
    normalize_keys rf df K = Err (KeyError k).
Proof.
  induction K as [|k0 K IH]; intros df k H; simpl in H; [discriminate|].
  simpl. unfold astype_str at 1.
  destruct (label_in k0 (columns df)) eqn:E; simpl in H.
  - cbn [bind]. apply IH. cbn [columns]. assumption.
  - injection H as <-. reflexivity.
Qed.

(** ** Choice and validation of the key columns *)

Lemma nonempty_true (A : Type) (l : list A) : l <> [] -> nonempty l = true.
Proof. destruct l; [congruence | reflexivity]. Qed.

Lemma choose_keys_auto_incl (df_base df_compare : DataFrame) (K : list Label) :
  choose_keys rf [] df_base df_compare = Ok K -> incl K (columns df_base).
Proof.
  unfold choose_keys. cbn [nonempty].
  destruct (find_unique_key rf df_base 3) as [[key|]|e] eqn:F; cbn [bind];
    try discriminate.
  destruct key as [|k key]; [discriminate|].
  destruct (forallb is_text_label (k :: key)); [|discriminate].
  intros H. injection H as <-.
  apply find_unique_key_incl in F. tauto.
Qed.

(** C4 (amended). Keys given by the user are validated against both
    tables before anything else: columns missing from the base table end
    the run with a failure that names them and the base file, otherwise
    columns missing from the compare table end it with a failure that
    names them and the compare file.  A key discovered automatically
    consists of columns of the base table and is not validated against the
    compare table: when one of its columns is missing there, the run ends
    with a [KeyError] for the first such column, raised while the compare
    table's key columns are converted to text.  In every case the merge is
    reached only with every key column present in both tables. *)
Theorem key_validation (user_keys : list string)
        (df_base df_compare : DataFrame) :
  (user_keys <> [] -> missing_keys user_keys df_base <> [] ->
   compare_frames rf user_keys df_base df_compare =
   Err (Raised ("The following key columns are missing in the base file: "
                ++ PyStr.join ", " (missing_keys user_keys df_base)))) /\
  (user_keys <> [] -> missing_keys user_keys df_base = [] ->
   missing_keys user_keys df_compare <> [] ->
   compare_frames rf user_keys df_base df_compare =
   Err (Raised ("The following key columns are missing in the compare file: "
                ++ PyStr.join ", " (missing_keys user_keys df_compare)))) /\
  (forall K, user_keys = [] ->
     choose_keys rf user_keys df_base df_compare = Ok K ->
     incl K (columns df_base) /\
     forall k,
       find (fun k => negb (label_in k (columns df_compare))) K = Some k ->
       compare_frames rf user_keys df_base df_compare = Err (KeyError k)) /\
  (forall K base compare,
     choose_keys rf user_keys df_base df_compare = Ok K ->
     normalize_keys rf df_base K = Ok base ->
     normalize_keys rf df_compare K = Ok compare ->
     forall k, In k K ->
       In k (columns df_base) /\ In k (columns df_compare) /\
       In k (columns base) /\ In k (columns compare)).
Proof.
  split; [|split; [|split]].
  - intros Hu Hm. unfold compare_frames, choose_keys.
    rewrite (nonempty_true _ _ Hu), (nonempty_true _ _ Hm). reflexivity.
  - intros Hu Hb Hm. unfold compare_frames, choose_keys.
    rewrite (nonempty_true _ _ Hu), Hb, (nonempty_true _ _ Hm). reflexivity.
  - intros K -> HK. pose proof (choose_keys_auto_incl _ _ _ HK) as Hincl.
    split; [assumption|]. intros k Hk.
    unfold compare_frames. rewrite HK. cbn [bind]. unfold reconcile.
    destruct (normalize_keys_total K df_base Hincl) as [base Hbase].
    rewrite Hbase. cbn [bind].
    rewrite (normalize_keys_missing K df_compare k Hk). reflexivity.
  - intros K base compare _ Hb Hc k Hk.
    apply normalize_keys_Ok in Hb as [Hib Hcb].
    apply normalize_keys_Ok in Hc as [Hic Hcc].
    rewrite Hcb, Hcc. auto.
Qed.

(** ** A table read without header is never compared *)

Lemma missing_keys_headerless (user_keys : list string) (df : DataFrame) :
  (forall c, In c (columns df) -> is_text_label c = false) ->
  missing_keys user_keys df = user_keys.
Proof.
  intros Hcols. unfold missing_keys.
  induction user_keys as [|k ks IH]; simpl; [reflexivity|].
  replace (label_in (LStr k) (columns df)) with false; [simpl; congruence|].
  symmetry. apply label_in_not_In. intros Hin.
  specialize (Hcols _ Hin). discriminate.
Qed.

Lemma compare_frames_headerless_base (user_keys : list string)
      (df_base df_compare : DataFrame) :
  (forall c, In c (columns df_base) -> is_text_label c = false) ->
  exists e, compare_frames rf user_keys df_base df_compare = Err e.
Proof.
  intros Hcols. unfold compare_frames, choose_keys.
  destruct (nonempty user_keys) eqn:Hu.
  - rewrite (missing_keys_headerless user_keys df_base Hcols), Hu.
    eexists; reflexivity.
  - destruct (find_unique_key rf df_base 3) as [[[|k key]|]|e] eqn:F;
      cbn [bind]; try (eexists; reflexivity).
    apply find_unique_key_incl in F as [_ Hincl].
    cbn [forallb]. rewrite (Hcols k (Hincl k (or_introl eq_refl))).
    eexists; reflexivity.
Qed.

Lemma compare_frames_headerless_compare (user_keys : list string)
      (df_base df_compare : DataFrame) :
  (forall c, In c (columns df_compare) -> is_text_label c = false) ->
  exists e, compare_frames rf user_keys df_base df_compare = Err e.
Proof.
  intros Hcols. unfold compare_frames.
  destruct (choose_keys rf user_keys df_base df_compare) as [K|e] eqn:HK;
    cbn [bind]; [|eexists; reflexivity].
  assert (Hmiss : exists k, find (fun k => negb (label_in k (columns df_compare))) K
                            = Some k).
  { unfold choose_keys in HK. destruct (nonempty user_keys) eqn:Hu.
    - rewrite (missing_keys_headerless user_keys df_compare Hcols), Hu in HK.
      destruct (nonempty (missing_keys user_keys df_base)); discriminate.
    - destruct (find_unique_key rf df_base 3) as [[[|k key]|]|e];
        cbn [bind] in HK; try discriminate.
      destruct (forallb is_text_label (k :: key)) eqn:Ht; [|discriminate].
      injection HK as <-. exists k. cbn [find].
      replace (label_in k (columns df_compare)) with false; [reflexivity|].
      symmetry. apply label_in_not_In. intros Hin.
      cbn [forallb] in Ht. apply andb_true_iff in Ht as [Ht _].
      rewrite (Hcols k Hin) in Ht. discriminate. }
  destruct Hmiss as [k Hk]. unfold reconcile.
  destruct (normalize_keys rf df_base K); cbn [bind]; [|eexists; reflexivity].
  rewrite (normalize_keys_missing K df_compare k Hk). eexists; reflexivity.
Qed.

Lemma positional_labels_not_text (w : nat) (c : Label) :
  In c (positional_labels w) -> is_text_label c = false.
Proof.
  unfold positional_labels. intros H. apply in_map_iff in H as [j [<- _]].
  reflexivity.
Qed.

Lemma read_excel_no_header_labels (sheet : Sheet) (nrows : option Z)
      (df : DataFrame) :
  read_excel hl pt sheet None nrows = Ok df ->
  columns df = positional_labels (sheet_width sheet).
Proof.
  unfold read_excel.
  destruct (cut_rows nrows (map (pad_row (sheet_width sheet)) sheet));
    cbn [bind]; [|discriminate].
  intros H. injection H as <-. reflexivity.
Qed.

(** C3 (amended). When none of the first 20 rows of the selected sheet
    has [min_named_cols] non-empty text cells, [detect_header_row] finds
    no header and [load_excel_clean] does not fail on that account: it is
    the header-less read of the sheet, which for a valid row cap returns a
    table whose columns are labelled 0, 1, ... and whose data are the
    sheet's rows from the first one on.  The run, however, never compares
    such a table: with it on either side the script ends with a failure. *)
Theorem load_without_header (max_lines : option Z) (wb : Workbook)
        (sheet : Sheet) :
  select_sheet wb = Some sheet ->
  (forall row, In row (firstn 20 sheet) -> text_count row < min_named_cols) ->
  (exists preview,
      read_excel hl pt sheet None (Some 20%Z) = Ok preview /\
      detect_header_row preview min_named_cols = None) /\
  load_excel_clean hl pt max_lines wb = read_excel hl pt sheet None max_lines /\
  (match max_lines with Some n => (0 <= n)%Z | None => True end ->
   exists df,
     load_excel_clean hl pt max_lines wb = Ok df /\
     columns df = positional_labels (sheet_width sheet) /\
     List.length (data df) = kept_rows max_lines sheet) /\
  (forall user_keys other,
      (exists e, main rf hl pt user_keys max_lines wb other = Err e) /\
      (exists e, main rf hl pt user_keys max_lines other wb = Err e)).
Proof.
  intros Hsel Hrows.
  set (w := sheet_width sheet).
  set (body := parse_cells pt w (firstn (Z.to_nat 20) (map (pad_row w) sheet))).
  assert (Hprev : read_excel hl pt sheet None (Some 20%Z)
                  = Ok (build_frame w (positional_labels w) body))
    by reflexivity.
  assert (Hdet : detect_header_row (build_frame w (positional_labels w) body)
                                   min_named_cols = None).
  { unfold detect_header_row, build_frame. cbn [data].
    apply detect_from_None. intros row Hin.
    apply in_map_iff in Hin as [r [<- Hr]].
    rewrite text_count_coerce_row. unfold body, parse_cells in Hr.
    apply in_map_iff in Hr as [r1 [<- Hr1]].
    rewrite firstn_map in Hr1. apply in_map_iff in Hr1 as [r0 [<- Hr0]].
    eapply Nat.le_lt_trans; [apply text_count_parse_row|].
    rewrite text_count_pad_row. apply Hrows. exact Hr0. }
  assert (Hload : load_excel_clean hl pt max_lines wb
                  = read_excel hl pt sheet None max_lines).
  { unfold load_excel_clean. rewrite Hsel, Hprev. cbn [bind]. rewrite Hdet.
    unfold read_excel. fold w.
    destruct (cut_rows max_lines (map (pad_row w) sheet)) as [b|e];
      cbn [bind]; [|reflexivity].
    unfold build_frame. cbn [columns dtypes data].
    unfold rename_unnamed_columns, positional_labels.
    rewrite rename_from_positional. reflexivity. }
  split; [exists (build_frame w (positional_labels w) body); auto|].
  split; [exact Hload|].
  split.
  2:{ intros user_keys other. unfold main. rewrite Hload.
      split.
      - destruct (read_excel hl pt sheet None max_lines) as [df|e] eqn:R;
          cbn [bind]; [|eexists; reflexivity].
        destruct (load_excel_clean hl pt max_lines other) as [df'|e];
          cbn [bind]; [|eexists; reflexivity].
        apply compare_frames_headerless_base.
        rewrite (read_excel_no_header_labels _ _ _ R).
        apply positional_labels_not_text.
      - destruct (load_excel_clean hl pt max_lines other) as [df'|e];
          cbn [bind]; [|eexists; reflexivity].
        destruct (read_excel hl pt sheet None max_lines) as [df|e] eqn:R;
          cbn [bind]; [|eexists; reflexivity].
        apply compare_frames_headerless_compare.
        rewrite (read_excel_no_header_labels _ _ _ R).
        apply positional_labels_not_text. }
  intros Hcap. rewrite Hload. unfold read_excel. fold w.
  destruct max_lines as [n|]; cbn [cut_rows].
  - destruct (n <? 0)%Z eqn:E; [apply Z.ltb_lt in E; lia|]. cbn [bind].
    eexists. split; [reflexivity|]. split; [reflexivity|].
    unfold build_frame. cbn [data kept_rows].
    rewrite length_map, parse_cells_length, length_firstn, length_map.
    reflexivity.
  - cbn [bind]. eexists. split; [reflexivity|]. split; [reflexivity|].
    unfold build_frame. cbn [data kept_rows].
    rewrite length_map, parse_cells_length, length_map. reflexivity.
Qed.

(** ** Labels, cells and Series *)

Lemma all_distinct_NoDup (l : list Label) :
  all_distinct Label_eqb l = true <-> NoDup l.
Proof.
  induction l as [|a l IH]; simpl.
  - split; [constructor | reflexivity].
  - rewrite andb_true_iff, IH, negb_true_iff. split.
    + intros [Hn Hd]. constructor; [|assumption].
      apply label_in_not_In. exact Hn.
    + intros H. inversion H; subst. split; [|assumption].
      apply (proj2 (label_in_not_In a l)). assumption.
Qed.

Lemma cell_cons (l : Label) (ls : list Label) (v : Value) (vs : list Value)
      (c : Label) :
  cell (l :: ls) (v :: vs) c = if Label_eqb l c then v else cell ls vs c.
Proof.
  unfold cell. simpl. destruct (Label_eqb l c); [reflexivity|].
  destruct (index_of c ls); reflexivity.
Qed.

Lemma cell_In (labels : list Label) (row : list Value) (c : Label) :
  In c labels -> List.length row = List.length labels ->
  In (c, cell labels row c) (combine labels row).
Proof.
  revert row. induction labels as [|l ls IH]; intros [|v vs] Hin Hlen;
    simpl in Hlen; try discriminate; [contradiction|].
  rewrite cell_cons. simpl. destruct (Label_eqb l c) eqn:E.
  - left. apply Label_eqb_eq in E. subst. reflexivity.
  - right. apply IH; [|lia].
    destruct Hin as [-> | Hin]; [|assumption].
    rewrite Label_eqb_refl in E. discriminate.
Qed.

Lemma map_fst_combine (labels : list Label) (row : list Value) :
  List.length row = List.length labels ->
  map fst (combine labels row) = labels.
Proof.
  revert row. induction labels as [|l ls IH]; intros [|v vs] H; simpl in *;
    try discriminate; [reflexivity|]. rewrite IH; [reflexivity | lia].
Qed.

Lemma filter_label_nil (s : Series) (l : Label) :
  ~ In l (map fst s) -> filter (fun p => Label_eqb (fst p) l) s = [].
Proof.
  induction s as [|[l0 v0] s IH]; simpl; intros H; [reflexivity|].
  destruct (Label_eqb l0 l) eqn:E.
  - apply Label_eqb_eq in E. subst. exfalso. apply H. left. reflexivity.
  - apply IH. intros Hin. apply H. right. assumption.
Qed.

Lemma series_get_Absent (s : Series) (l : Label) :
  ~ In l (map fst s) -> series_get s l = Absent.
Proof. intros H. unfold series_get. rewrite filter_label_nil; auto. Qed.

Lemma series_get_One (s : Series) (l : Label) (v : Value) :
  NoDup (map fst s) -> In (l, v) s -> series_get s l = One v.
Proof.
  unfold series_get.
  induction s as [|[l0 v0] s IH]; simpl; intros Hnd Hin; [contradiction|].
  inversion Hnd as [|? ? Hnotin Hnd']; subst.
  destruct (Label_eqb l0 l) eqn:E.
  - apply Label_eqb_eq in E. subst l0.
    rewrite filter_label_nil by assumption.
    destruct Hin as [Heq | Hin]; [injection Heq as ->; reflexivity|].
    exfalso. apply Hnotin. apply (in_map fst) in Hin. assumption.
  - apply IH; [assumption|].
    destruct Hin as [Heq | Hin]; [|assumption].
    injection Heq as -> ->. rewrite Label_eqb_refl in E. discriminate.
Qed.

Lemma series_get_cases (s : Series) (l : Label) :
  NoDup (map fst s) ->
  (series_get s l = Absent /\ ~ In l (map fst s)) \/
  (exists v, series_get s l = One v /\ In (l, v) s).
Proof.
  intros Hnd. destruct (in_dec Label_eq_dec l (map fst s)) as [Hin | Hn].
  - right. apply in_map_iff in Hin as [[l0 v] [E Hin]]. simpl in E. subst l0.
    exists v. split; [apply series_get_One; assumption | assumption].
  - left. split; [apply series_get_Absent; assumption | assumption].
Qed.

(** ** The join indexers *)

Lemma combine_seq_In (A : Type) (l : list A) (s i : nat) (x : A) :
  In (i, x) (combine (seq s (List.length l)) l) <->
  s <= i /\ nth_error l (i - s) = Some x.
Proof.
  revert s. induction l as [|a l IH]; intros s; simpl.
  - split; [contradiction|]. intros [_ H]. destruct (i - s); discriminate.
  - rewrite IH. split.
    + intros [H | [Hle Hn]].
      * injection H as <- <-. rewrite Nat.sub_diag. auto.
      * replace (i - s) with (S (i - S s)) by lia. split; [lia | assumption].
    + intros [Hle Hn]. destruct (Nat.eq_dec s i) as [<- | Hne].
      * rewrite Nat.sub_diag in Hn. injection Hn as <-. left. reflexivity.
      * right. split; [lia|].
        replace (i - s) with (S (i - S s)) in Hn by lia. exact Hn.
Qed.

Lemma NoDup_map_filter (A B : Type) (g : A -> B) (f : A -> bool) (l : list A) :
  NoDup (map g l) -> NoDup (map g (filter f l)).
Proof.
  induction l as [|a l IH]; simpl; intros H; [constructor|].
  inversion H as [|? ? Hn Hd]; subst.
  destruct (f a); simpl; [constructor|]; auto.
  intros Hin. apply Hn. apply in_map_iff in Hin as [x [E Hx]].
  apply filter_In in Hx as [Hx _]. rewrite <- E. apply in_map. assumption.
Qed.

Lemma NoDup_flat_map (A B : Type) (f : A -> list B) (l : list A) :
  NoDup l ->
  (forall x, In x l -> NoDup (f x)) ->
  (forall x y b, In x l -> In y l -> In b (f x) -> In b (f y) -> x = y) ->
  NoDup (flat_map f l).
Proof.
  induction l as [|a l IH]; simpl; intros Hnd Hf Hdisj; [constructor|].
  inversion Hnd as [|? ? Hn Hd]; subst.
  apply NoDup_app.
  - apply Hf. left. reflexivity.
  - apply IH; [assumption | intros; apply Hf; right; assumption |].
    intros x y b Hx Hy. apply Hdisj; right; assumption.
  - intros b Hb Hb'. apply in_flat_map in Hb' as [y [Hy Hby]].
    assert (E : a = y).
    { apply (Hdisj a y b);
        [left; reflexivity | right; assumption | assumption | assumption]. }
    subst y. contradiction.
Qed.

Lemma positions_In (g : Key) (keys : list Key) (i : nat) :
  In i (positions g keys) <-> nth_error keys i = Some g.
Proof.
  unfold positions. rewrite in_map_iff. split.
  - intros [[i' x] [E H]]. simpl in E. subst i'.
    apply filter_In in H as [H Hk]. simpl in Hk. apply Key_eqb_eq in Hk.
    apply combine_seq_In in H as [_ H]. rewrite Nat.sub_0_r in H. congruence.
  - intros H. exists (i, g). split; [reflexivity|]. apply filter_In. split.
    + apply combine_seq_In. rewrite Nat.sub_0_r. split; [lia | assumption].
    + apply Key_eqb_refl.
Qed.

Lemma positions_NoDup (g : Key) (keys : list Key) : NoDup (positions g keys).
Proof.
  unfold positions. apply NoDup_map_filter.
  assert (H : map fst (combine (seq 0 (List.length keys)) keys)
              = seq 0 (List.length keys)).
  { generalize 0. induction keys as [|k keys IH]; intros s; simpl;
      [reflexivity | rewrite IH; reflexivity]. }
  rewrite H. apply seq_NoDup.
Qed.

Lemma positions_nil (g : Key) (keys : list Key) :
  positions g keys = [] <-> ~ In g keys.
Proof.
  split.
  - intros H Hin. apply In_nth_error in Hin as [i Hi].
    apply positions_In in Hi. rewrite H in Hi. contradiction.
  - intros H. destruct (positions g keys) as [|i l] eqn:E; [reflexivity|].
    exfalso. apply H. apply (nth_error_In keys i).
    apply positions_In. rewrite E. left. reflexivity.
Qed.

Lemma join_group_both (lk rk : list Key) (g : Key) (i j : nat) :
  In (Some i, Some j) (join_group lk rk g) <->
  nth_error lk i = Some g /\ nth_error rk j = Some g.
Proof.
  rewrite <- !positions_In. unfold join_group.
  destruct (positions g lk) as [|a L], (positions g rk) as [|b R].
  - simpl. tauto.
  - split; [|simpl; tauto]. intros H.
    apply in_map_iff in H as [x [E _]]. discriminate.
  - split; [|simpl; tauto]. intros H.
    apply in_map_iff in H as [x [E _]]. discriminate.
  - rewrite in_flat_map. split.
    + intros [x [Hx H]]. apply in_map_iff in H as [y [E Hy]].
      injection E as <- <-. auto.
    + intros [Hi Hj]. exists i. split; [assumption|].
      apply in_map_iff. exists j. auto.
Qed.

Lemma join_group_left (lk rk : list Key) (g : Key) (i : nat) :
  In (Some i, None) (join_group lk rk g) <->
  nth_error lk i = Some g /\ ~ In g rk.
Proof.
  rewrite <- positions_In, <- positions_nil. unfold join_group.
  destruct (positions g lk) as [|a L], (positions g rk) as [|b R].
  - simpl. tauto.
  - split; [|intros [[] _]]. intros H.
    apply in_map_iff in H as [x [E _]]. discriminate.
  - rewrite in_map_iff. split.
    + intros [x [E Hx]]. injection E as <-. auto.
    + intros [H _]. exists i. auto.
  - split; [|intros [_ H]; discriminate]. intros H.
    apply in_flat_map in H as [x [_ H]].
    apply in_map_iff in H as [y [E _]]. discriminate.
Qed.

Lemma join_group_right (lk rk : list Key) (g : Key) (j : nat) :
  In (None, Some j) (join_group lk rk g) <->
  nth_error rk j = Some g /\ ~ In g lk.
Proof.
  rewrite <- positions_In, <- positions_nil. unfold join_group.
  destruct (positions g lk) as [|a L], (positions g rk) as [|b R].
  - simpl. tauto.
  - rewrite in_map_iff. split.
    + intros [x [E Hx]]. injection E as <-. auto.
    + intros [H _]. exists j. auto.
  - split; [|intros [_ H]; discriminate]. intros H.
    apply in_map_iff in H as [x [E _]]. discriminate.
  - split; [|intros [_ H]; discriminate]. intros H.
    apply in_flat_map in H as [x [_ H]].
    apply in_map_iff in H as [y [E _]]. discriminate.
Qed.

Lemma join_group_none (lk rk : list Key) (g : Key) :
  ~ In (None, None) (join_group lk rk g).
Proof.
  unfold join_group.
  destruct (positions g lk) as [|a L], (positions g rk) as [|b R]; intros H.
  - contradiction.
  - apply in_map_iff in H as [x [E _]]. discriminate.
  - apply in_map_iff in H as [x [E _]]. discriminate.
  - apply in_flat_map in H as [x [_ H]].
    apply in_map_iff in H as [y [E _]]. discriminate.
Qed.

Lemma join_group_NoDup (lk rk : list Key) (g : Key) :
  NoDup (join_group lk rk g).
Proof.
  unfold join_group.
  pose proof (positions_NoDup g lk) as HL.
  pose proof (positions_NoDup g rk) as HR.
  assert (Hinj1 : forall l, NoDup l ->
            NoDup (map (fun i : nat => (Some i, @None nat)) l)).
  { intros l Hl. apply NoDup_map_NoDup_ForallPairs; [|assumption].
    intros x y _ _ E. injection E. auto. }
  assert (Hinj2 : forall l, NoDup l ->
            NoDup (map (fun j : nat => (@None nat, Some j)) l)).
  { intros l Hl. apply NoDup_map_NoDup_ForallPairs; [|assumption].
    intros x y _ _ E. injection E. auto. }
  destruct (positions g lk) as [|a L], (positions g rk) as [|b R]; auto.
  apply NoDup_flat_map; [assumption | |].
  - intros i _. apply NoDup_map_NoDup_ForallPairs; [|assumption].
    intros x y _ _ E. injection E. auto.
  - intros x y p _ _ Hx Hy.
    apply in_map_iff in Hx as [j [<- _]].
    apply in_map_iff in Hy as [j' [E _]]. injection E. auto.
Qed.

Lemma join_group_key (lk rk : list Key) (g g' : Key) (p : option nat * option nat) :
  In p (join_group lk rk g) -> In p (join_group lk rk g') -> g = g'.
Proof.
  destruct p as [[i|] [j|]]; intros H H'.
  - apply join_group_both in H as [H _], H' as [H' _]. congruence.
  - apply join_group_left in H as [H _], H' as [H' _]. congruence.
  - apply join_group_right in H as [H _], H' as [H' _]. congruence.
  - apply join_group_none in H. contradiction.
Qed.

Lemma insert_by_perm (A : Type) (leb : A -> A -> bool) (x : A) (l : list A) :
  Permutation (insert_by leb x l) (x :: l).
Proof.
  induction l as [|y l IH]; simpl; [apply Permutation_refl|].
  destruct (leb x y); [apply Permutation_refl|].
  apply Permutation_trans with (y :: x :: l);
    [apply perm_skip; exact IH | apply perm_swap].
Qed.

Lemma sort_by_perm (A : Type) (leb : A -> A -> bool) (l : list A) :
  Permutation (sort_by leb l) l.
Proof.
  induction l as [|x l IH]; simpl; [apply perm_nil|].
  apply Permutation_trans with (x :: sort_by leb l);
    [apply insert_by_perm | apply perm_skip; exact IH].
Qed.

(** The groups of the join are the distinct keys of the two sides. *)
Lemma join_groups_In (lk rk : list Key) (g : Key) :
  In g (sort_by Key_leb (drop_duplicates Key_eqb (lk ++ rk))) <->
  In g lk \/ In g rk.
Proof.
  rewrite <- in_app_iff. split; intros H.
  - apply (Permutation_in _ (sort_by_perm _ Key_leb _)) in H.
    exact (proj1 (drop_duplicates_In _ Key_eqb Key_eqb_eq _ _) H).
  - apply (Permutation_in _ (Permutation_sym (sort_by_perm _ Key_leb _))).
    exact (proj2 (drop_duplicates_In _ Key_eqb Key_eqb_eq _ _) H).
Qed.

Lemma join_groups_NoDup (lk rk : list Key) :
  NoDup (sort_by Key_leb (drop_duplicates Key_eqb (lk ++ rk))).
Proof.
  apply (Permutation_NoDup (Permutation_sym (sort_by_perm _ _ _))).
  apply (drop_duplicates_NoDup _ Key_eqb Key_eqb_eq).
Qed.

Lemma join_both (lk rk : list Key) (i j : nat) :
  In (Some i, Some j) (full_outer_join lk rk) <->
  exists g, nth_error lk i = Some g /\ nth_error rk j = Some g.
Proof.
  unfold full_outer_join. rewrite in_flat_map. split.
  - intros [g [_ H]]. exists g. apply join_group_both. assumption.
  - intros [g H]. exists g. split; [|apply join_group_both; assumption].
    apply join_groups_In. left.
    apply (nth_error_In lk i). tauto.
Qed.

Lemma join_left (lk rk : list Key) (i : nat) :
  In (Some i, None) (full_outer_join lk rk) <->
  exists g, nth_error lk i = Some g /\ ~ In g rk.
Proof.
  unfold full_outer_join. rewrite in_flat_map. split.
  - intros [g [_ H]]. exists g. apply join_group_left. assumption.
  - intros [g H]. exists g. split; [|apply join_group_left; assumption].
    apply join_groups_In. left.
    apply (nth_error_In lk i). tauto.
Qed.

Lemma join_right (lk rk : list Key) (j : nat) :
  In (None, Some j) (full_outer_join lk rk) <->
  exists g, nth_error rk j = Some g /\ ~ In g lk.
Proof.
  unfold full_outer_join. rewrite in_flat_map. split.
  - intros [g [_ H]]. exists g. apply join_group_right. assumption.
  - intros [g H]. exists g. split; [|apply join_group_right; assumption].
    apply join_groups_In. right.
    apply (nth_error_In rk j). tauto.
Qed.

Lemma join_none (lk rk : list Key) : ~ In (None, None) (full_outer_join lk rk).
Proof.
  unfold full_outer_join. rewrite in_flat_map. intros [g [_ H]].
  apply join_group_none in H. assumption.
Qed.

Lemma join_NoDup (lk rk : list Key) : NoDup (full_outer_join lk rk).
Proof.
  unfold full_outer_join. apply NoDup_flat_map.
  - apply join_groups_NoDup.
  - intros g _. apply join_group_NoDup.
  - intros g g' p _ _. apply join_group_key.
Qed.

(** ** Rows of the merged frame *)

Lemma wf_frame_rows (df : DataFrame) :
  wf_frame df = true ->
  forall row, In row (data df) -> List.length row = List.length (columns df).
Proof.
  unfold wf_frame. rewrite forallb_forall. intros H row Hin.
  apply Nat.eqb_eq. apply H. assumption.
Qed.

Lemma well_formed_inputs_ok (A B : DataFrame) (K : list Label) :
  well_formed A B K = true -> inputs_ok A B K.
Proof.
  unfold well_formed. rewrite !andb_true_iff, negb_true_iff.
  intros [[[[[[HA HB] Hne] HK] HdB] Hd] Hres].
  rewrite forallb_forall in HK.
  apply all_distinct_NoDup in Hd. apply all_distinct_NoDup in HdB.
  constructor.
  - apply wf_frame_rows. assumption.
  - apply wf_frame_rows. assumption.
  - intros ->. discriminate.
  - intros k Hk. specialize (HK k Hk). apply andb_true_iff in HK as [H _].
    apply label_in_In. assumption.
  - intros k Hk. specialize (HK k Hk). apply andb_true_iff in HK as [_ H].
    apply label_in_In. assumption.
  - unfold merged_columns in Hd. apply NoDup_app_remove_r in Hd.
    unfold left_renamed in Hd. apply NoDup_map_inv in Hd. assumption.
  - assumption.
  - assumption.
  - intros r Hr.
    assert (H : label_in r (columns A) || label_in r (columns B) = false).
    { destruct (label_in r (columns A) || label_in r (columns B)) eqn:E;
        [|reflexivity].
      rewrite <- Hres. symmetry. apply existsb_exists. exists r. auto. }
    apply orb_false_iff in H as [H1 H2].
    split; apply label_in_not_In; assumption.
Qed.

Lemma map_fst_filter (A B : Type) (f : A -> bool) (l : list (A * B)) :
  map fst (filter (fun cv => f (fst cv)) l) = filter f (map fst l).
Proof.
  induction l as [|[a b] l IH]; simpl; [reflexivity|].
  destruct (f a); simpl; rewrite IH; reflexivity.
Qed.

Lemma nth_In_data (rows : list (list Value)) (i : nat) :
  i < List.length rows -> In (nth i rows []) rows.
Proof. intros H. apply nth_In. assumption. Qed.

(** *** Promotion of integer columns *)

Lemma promote_row_length (K labels : list Label) (ds : list Dtype)
      (row : list Value) :
  List.length (promote_row K labels ds row) = List.length row.
Proof.
  revert ds row. induction labels as [|l labels IH]; intros ds [|v row]; simpl;
    try reflexivity. rewrite IH. reflexivity.
Qed.

Lemma promote_NaN (d : Dtype) : promote d VNaN = VNaN.
Proof. destruct d; reflexivity. Qed.

Lemma cell_nil (labels : list Label) (c : Label) : cell labels [] c = VNaN.
Proof.
  unfold cell. destruct (index_of c labels) as [[|j]|]; reflexivity.
Qed.

Lemma nth_tl (A : Type) (l : list A) (i : nat) (d : A) :
  nth i (tl l) d = nth (S i) l d.
Proof. destruct l; [destruct i|]; reflexivity. Qed.

(** A promoted row holds the promoted cells, the key cells as they were. *)
Lemma cell_promote_row (K labels : list Label) (ds : list Dtype)
      (row : list Value) (c : Label) :
  cell labels (promote_row K labels ds row) c
  = if label_in c K then cell labels row c
    else promote (match index_of c labels with
                  | Some j => nth j ds DObject
                  | None => DObject
                  end)
                 (cell labels row c).
Proof.
  revert ds row. induction labels as [|l labels IH]; intros ds row.
  - cbn [promote_row]. unfold cell. cbn [index_of].
    destruct (label_in c K); reflexivity.
  - destruct row as [|v row].
    + cbn [promote_row]. rewrite cell_nil, promote_NaN.
      destruct (label_in c K); reflexivity.
    + cbn [promote_row]. rewrite !cell_cons. cbn [index_of].
      destruct (Label_eqb l c) eqn:E.
      * apply Label_eqb_eq in E. subst l.
        destruct ds; reflexivity.
      * rewrite IH. destruct (label_in c K); [reflexivity|].
        destruct (index_of c labels) as [j|]; [|reflexivity].
        rewrite nth_tl. reflexivity.
Qed.

Lemma left_row_length (A B : DataFrame) (K : list Label) (i : nat) :
  List.length (left_row rf A B K i) = List.length (nth i (data A) []).
Proof.
  unfold left_row. destruct (left_gets_nan rf A B K);
    [apply promote_row_length | reflexivity].
Qed.

Lemma right_row_length (A B : DataFrame) (K : list Label) (j : nat) :
  List.length (right_row rf A B K j) = List.length (nth j (data B) []).
Proof.
  unfold right_row. destruct (right_gets_nan rf A B K);
    [apply promote_row_length | reflexivity].
Qed.

(** The cells of a base row in the merged frame: promoted when the merge
    puts NaN into the base columns, the key cells excepted. *)
Lemma cell_left_row (A B : DataFrame) (K : list Label) (i : nat) (c : Label) :
  cell (columns A) (left_row rf A B K i) c
  = if left_gets_nan rf A B K && negb (label_in c K)
    then promote (dtype_of A c) (cell (columns A) (nth i (data A) []) c)
    else cell (columns A) (nth i (data A) []) c.
Proof.
  unfold left_row, dtype_of. destruct (left_gets_nan rf A B K); [|reflexivity].
  rewrite cell_promote_row. destruct (label_in c K); reflexivity.
Qed.

Lemma cell_right_row (A B : DataFrame) (K : list Label) (j : nat) (c : Label) :
  cell (columns B) (right_row rf A B K j) c
  = if right_gets_nan rf A B K && negb (label_in c K)
    then promote (dtype_of B c) (cell (columns B) (nth j (data B) []) c)
    else cell (columns B) (nth j (data B) []) c.
Proof.
  unfold right_row, dtype_of. destruct (right_gets_nan rf A B K); [|reflexivity].
  rewrite cell_promote_row. destruct (label_in c K); reflexivity.
Qed.

Lemma cell_left_row_key (A B : DataFrame) (K : list Label) (i : nat) (k : Label) :
  In k K ->
  cell (columns A) (left_row rf A B K i) k
  = cell (columns A) (nth i (data A) []) k.
Proof.
  intros Hk. rewrite cell_left_row, (proj2 (label_in_In k K) Hk), andb_false_r.
  reflexivity.
Qed.

Lemma cell_right_row_key (A B : DataFrame) (K : list Label) (j : nat) (k : Label) :
  In k K ->
  cell (columns B) (right_row rf A B K j) k
  = cell (columns B) (nth j (data B) []) k.
Proof.
  intros Hk. rewrite cell_right_row, (proj2 (label_in_In k K) Hk), andb_false_r.
  reflexivity.
Qed.

Lemma merged_row_labels (A B : DataFrame) (K : list Label)
      (p : option nat * option nat) :
  inputs_ok A B K -> in_range A B p ->
  map fst (merged_row rf A B K p) = merged_columns A B K.
Proof.
  intros Hok [Hi Hj]. destruct p as [oi oj]. simpl in Hi, Hj.
  unfold merged_row, merged_columns, left_renamed, right_renamed.
  cbn [fst snd]. rewrite !map_app. f_equal; [|f_equal].
  - destruct oi as [i|].
    + rewrite map_map. cbn [fst]. rewrite <- (map_map fst).
      unfold to_series. rewrite map_fst_combine; [reflexivity|].
      rewrite left_row_length.
      apply (rows_A Hok). apply nth_In_data. assumption.
    + rewrite map_map. reflexivity.
  - destruct oj as [j|]; cbn [option_map].
    + rewrite map_map. cbn [fst]. rewrite <- (map_map fst).
      rewrite (map_fst_filter _ _ (fun c => negb (label_in c K))).
      unfold to_series. rewrite map_fst_combine; [reflexivity|].
      rewrite right_row_length.
      apply (rows_B Hok). apply nth_In_data. assumption.
    + rewrite map_map. reflexivity.
Qed.

Lemma merged_row_NoDup (A B : DataFrame) (K : list Label)
      (p : option nat * option nat) :
  inputs_ok A B K -> in_range A B p -> NoDup (map fst (merged_row rf A B K p)).
Proof.
  intros Hok Hr. rewrite merged_row_labels by assumption.
  apply (labels_merged Hok).
Qed.

Lemma suffix_label_key (A B : DataFrame) (K : list Label) (suffix : string)
      (k : Label) :
  In k K -> suffix_label suffix (to_rename A B K) k = k.
Proof.
  intros Hk. unfold suffix_label.
  destruct (label_in k (to_rename A B K)) eqn:E; [|reflexivity].
  apply label_in_In in E. unfold to_rename in E. apply filter_In in E as [_ E].
  apply label_in_In in E. unfold right_labels in E.
  apply filter_In in E as [_ E]. apply negb_true_iff in E.
  apply label_in_not_In in E. contradiction.
Qed.

Lemma suffix_label_common (A B : DataFrame) (K : list Label) (suffix : string)
      (c : Label) :
  In c (columns A) -> In c (columns B) -> ~ In c K ->
  suffix_label suffix (to_rename A B K) c = LStr (label_str c ++ suffix).
Proof.
  intros HA HB HK. unfold suffix_label.
  replace (label_in c (to_rename A B K)) with true; [reflexivity|].
  symmetry. apply label_in_In. unfold to_rename. apply filter_In.
  split; [assumption|]. apply label_in_In. unfold right_labels.
  apply filter_In. split; [assumption|]. apply negb_true_iff.
  apply label_in_not_In. assumption.
Qed.

(** The base side of a joined row holds the cells of the base row, as
    the merge has them. *)
Lemma merged_row_left (A B : DataFrame) (K : list Label) (i : nat)
      (oj : option nat) (c : Label) :
  inputs_ok A B K -> i < List.length (data A) -> In c (columns A) ->
  In (suffix_label "_base" (to_rename A B K) c,
      cell (columns A) (left_row rf A B K i) c)
     (merged_row rf A B K (Some i, oj)).
Proof.
  intros Hok Hi Hc. unfold merged_row. cbn [fst]. apply in_or_app. left.
  apply in_map_iff. exists (c, cell (columns A) (left_row rf A B K i) c).
  split; [reflexivity|]. apply cell_In; [assumption|].
  rewrite left_row_length.
  apply (rows_A Hok). apply nth_In_data. assumption.
Qed.

Lemma merged_row_left_key (A B : DataFrame) (K : list Label) (i : nat)
      (oj : option nat) (k : Label) :
  inputs_ok A B K -> i < List.length (data A) -> In k K ->
  In (k, cell (columns A) (nth i (data A) []) k)
     (merged_row rf A B K (Some i, oj)).
Proof.
  intros Hok Hi Hk.
  rewrite <- (suffix_label_key A B K "_base" k Hk) at 1.
  rewrite <- (cell_left_row_key A B K i k Hk).
  apply merged_row_left; [assumption | assumption |].
  apply (keys_A Hok). assumption.
Qed.

(** The compare side holds the cells of the compare row, key columns
    excepted. *)
Lemma merged_row_right (A B : DataFrame) (K : list Label) (oi : option nat)
      (j : nat) (c : Label) :
  inputs_ok A B K -> j < List.length (data B) -> In c (columns B) ->
  ~ In c K ->
  In (suffix_label "_compare" (to_rename A B K) c,
      cell (columns B) (right_row rf A B K j) c)
     (merged_row rf A B K (oi, Some j)).
Proof.
  intros Hok Hj Hc HK. unfold merged_row. cbn [snd option_map].
  apply in_or_app. right. apply in_or_app. left.
  apply in_map_iff. exists (c, cell (columns B) (right_row rf A B K j) c).
  split; [reflexivity|]. apply filter_In. split.
  - apply cell_In; [assumption|].
    rewrite right_row_length.
    apply (rows_B Hok). apply nth_In_data. assumption.
  - cbn [fst]. apply negb_true_iff. apply label_in_not_In. assumption.
Qed.

(** The key columns of a row without base row take the compare row's key. *)
Lemma merged_row_right_key (A B : DataFrame) (K : list Label) (j : nat)
      (k : Label) :
  inputs_ok A B K -> In k K ->
  In (k, cell (columns B) (nth j (data B) []) k)
     (merged_row rf A B K (None, Some j)).
Proof.
  intros Hok Hk. unfold merged_row. cbn [fst snd option_map].
  apply in_or_app. left. apply in_map_iff. exists k. split.
  - rewrite suffix_label_key by assumption.
    rewrite (proj2 (label_in_In k K) Hk), cell_right_row_key by assumption.
    reflexivity.
  - apply (keys_A Hok). assumption.
Qed.

Lemma merged_row_indicator (A B : DataFrame) (K : list Label)
      (p : option nat * option nat) :
  In (LStr "_merge", VStr (indicator p)) (merged_row rf A B K p).
Proof.
  unfold merged_row. apply in_or_app. right. apply in_or_app. right.
  left. reflexivity.
Qed.

Lemma indicator_is_merged_row (A B : DataFrame) (K : list Label)
      (p : option nat * option nat) (tag : string) :
  inputs_ok A B K -> in_range A B p ->
  indicator_is tag (merged_row rf A B K p) = String.eqb (indicator p) tag.
Proof.
  intros Hok Hr. unfold indicator_is.
  rewrite (series_get_One _ _ (VStr (indicator p))); [reflexivity | |].
  - apply merged_row_NoDup; assumption.
  - apply merged_row_indicator.
Qed.

(** ** The result-collection loops on the merged frame *)

Lemma compare_column_total (K mcols : list Label) (row : Series) (col : Label) :
  NoDup (map fst row) -> exists d, compare_column K mcols row col = Ok d.
Proof.
  intros Hnd. unfold compare_column.
  destruct (label_in col K || negb (label_in (LStr (label_str col ++ "_compare")) mcols));
    [eexists; reflexivity|].
  destruct (series_get_cases row (LStr (label_str col ++ "_base")) Hnd)
    as [[-> _] | [va [-> _]]];
    destruct (series_get_cases row (LStr (label_str col ++ "_compare")) Hnd)
      as [[-> _] | [vb [-> _]]];
    match goal with
    | |- context [if ?c then _ else _] => destruct c
    end;
    try (eexists; reflexivity);
    match goal with
    | |- context [if ?c then _ else _] => destruct c
    end; eexists; reflexivity.
Qed.

Lemma differences_total (cols K mcols : list Label) (row : Series) :
  NoDup (map fst row) -> exists ds, differences cols K mcols row = Ok ds.
Proof.
  intros Hnd. induction cols as [|c cols [ds IH]]; simpl.
  - eexists; reflexivity.
  - destruct (compare_column_total K mcols row c Hnd) as [d ->].
    rewrite IH. cbn [bind]. eexists; reflexivity.
Qed.

Lemma row_differences_Ok (A B : DataFrame) (K : list Label)
      (p : option nat * option nat) :
  inputs_ok A B K -> in_range A B p ->
  differences (columns A) K (merged_columns A B K) (merged_row rf A B K p)
  = Ok (row_differences rf A B K p).
Proof.
  intros Hok Hr. unfold row_differences.
  destruct (differences_total (columns A) K (merged_columns A B K)
              (merged_row rf A B K p) (merged_row_NoDup A B K p Hok Hr)) as [ds ->].
  reflexivity.
Qed.

Lemma key_parts_left (A B : DataFrame) (K K' : list Label) (i : nat)
      (oj : option nat) :
  inputs_ok A B K -> in_range A B (Some i, oj) -> incl K' K ->
  key_parts rf K' (merged_row rf A B K (Some i, oj))
  = Ok (key_of rf (columns A) K' (nth i (data A) [])).
Proof.
  intros Hok Hr. induction K' as [|k K' IH]; intros Hincl; simpl;
    [reflexivity|].
  rewrite (series_get_One _ _ (cell (columns A) (nth i (data A) []) k)).
  - rewrite IH; [reflexivity|]. intros x Hx. apply Hincl. right. assumption.
  - apply merged_row_NoDup; assumption.
  - apply merged_row_left_key; [assumption | apply Hr |].
    apply Hincl. left. reflexivity.
Qed.

Lemma key_parts_right (A B : DataFrame) (K K' : list Label) (j : nat) :
  inputs_ok A B K -> in_range A B (None, Some j) -> incl K' K ->
  key_parts rf K' (merged_row rf A B K (None, Some j))
  = Ok (key_of rf (columns B) K' (nth j (data B) [])).
Proof.
  intros Hok Hr. induction K' as [|k K' IH]; intros Hincl; simpl;
    [reflexivity|].
  rewrite (series_get_One _ _ (cell (columns B) (nth j (data B) []) k)).
  - rewrite IH; [reflexivity|]. intros x Hx. apply Hincl. right. assumption.
  - apply merged_row_NoDup; assumption.
  - apply merged_row_right_key; [assumption|]. apply Hincl. left. reflexivity.
Qed.

Lemma key_repr_merged_row (A B : DataFrame) (K : list Label)
      (p : option nat * option nat) :
  inputs_ok A B K -> in_range A B p -> p <> (None, None) ->
  key_repr rf K (merged_row rf A B K p) = Ok (render_key rf A B K p).
Proof.
  intros Hok Hr Hp. unfold key_repr, render_key.
  destruct p as [[i|] [j|]]; cbn [pair_key].
  - rewrite key_parts_left; auto using incl_refl.
  - rewrite key_parts_left; auto using incl_refl.
  - rewrite key_parts_right; auto using incl_refl.
  - congruence.
Qed.

Lemma collect_keys_map (A B : DataFrame) (K : list Label)
      (P : list (option nat * option nat)) :
  inputs_ok A B K ->
  (forall p, In p P -> in_range A B p /\ p <> (None, None)) ->
  collect_keys rf K (map (merged_row rf A B K) P)
  = Ok (map (render_key rf A B K) P).
Proof.
  intros Hok. induction P as [|p P IH]; intros HP; simpl; [reflexivity|].
  destruct (HP p (or_introl eq_refl)) as [Hr Hp].
  rewrite key_repr_merged_row by assumption. cbn [bind].
  rewrite IH; [reflexivity|]. intros q Hq. apply HP. right. assumption.
Qed.

Lemma collect_diff_rows_map (A B : DataFrame) (K : list Label)
      (P : list (option nat * option nat)) :
  inputs_ok A B K ->
  (forall p, In p P -> in_range A B p /\ p <> (None, None)) ->
  collect_diff_rows rf (columns A) K (merged_columns A B K)
                    (map (merged_row rf A B K) P)
  = Ok (map (fun p => mkDiffRow (render_key rf A B K p)
                                (row_differences rf A B K p))
            (filter (fun p => nonempty (row_differences rf A B K p)) P)).
Proof.
  intros Hok. induction P as [|p P IH]; intros HP; simpl; [reflexivity|].
  destruct (HP p (or_introl eq_refl)) as [Hr Hp].
  rewrite row_differences_Ok by assumption. cbn [bind].
  assert (IH' := IH (fun q Hq => HP q (or_intror Hq))).
  destruct (nonempty (row_differences rf A B K p)).
  - rewrite key_repr_merged_row by assumption. cbn [bind].
    rewrite IH'. reflexivity.
  - exact IH'.
Qed.

(** ** The merge succeeds on well-formed inputs *)

Lemma find_none (A : Type) (f : A -> bool) (l : list A) :
  (forall x, In x l -> f x = false) -> find f l = None.
Proof.
  induction l as [|a l IH]; simpl; intros H; [reflexivity|].
  rewrite (H a (or_introl eq_refl)). apply IH. auto.
Qed.

Lemma existsb_false (A : Type) (f : A -> bool) (l : list A) :
  (forall x, In x l -> f x = false) -> existsb f l = false.
Proof.
  induction l as [|a l IH]; simpl; intros H; [reflexivity|].
  rewrite (H a (or_introl eq_refl)). apply IH. auto.
Qed.

Lemma NoDup_count_label (k : Label) (l : list Label) :
  NoDup l -> count_label k l <= 1.
Proof.
  unfold count_label. induction l as [|a l IH]; simpl; intros H; [lia|].
  inversion H as [|? ? Hn Hd]; subst. specialize (IH Hd).
  destruct (Label_eqb k a) eqn:E; [|lia].
  apply Label_eqb_eq in E. subst a. simpl.
  replace (filter (Label_eqb k) l) with (@nil Label); [simpl; lia|].
  symmetry. clear IH Hd H. induction l as [|b l IH]; simpl; [reflexivity|].
  destruct (Label_eqb k b) eqn:E.
  - apply Label_eqb_eq in E. subst. exfalso. apply Hn. left. reflexivity.
  - apply IH. intros H. apply Hn. right. assumption.
Qed.

Lemma duplicated_NoDup (l seen : list Label) :
  NoDup l -> (forall x, In x l -> ~ In x seen) ->
  forall b, In b (duplicated seen l) -> b = false.
Proof.
  revert seen. induction l as [|a l IH]; simpl; intros seen Hnd Hs b Hb;
    [contradiction|].
  inversion Hnd as [|? ? Hn Hd]; subst. destruct Hb as [<- | Hb].
  - apply label_in_not_In. apply Hs. left. reflexivity.
  - apply (IH (a :: seen)); [assumption | | assumption].
    intros x Hx [<- | Hin]; [contradiction|].
    apply (Hs x); [right; assumption | assumption].
Qed.

Lemma suffix_duplicates_NoDup (orig renamed : list Label) :
  NoDup renamed -> suffix_duplicates orig renamed = false.
Proof.
  intros Hnd. unfold suffix_duplicates. apply existsb_false.
  intros [b c] Hin. apply in_combine_l in Hin. cbn [fst snd].
  rewrite (duplicated_NoDup renamed [] Hnd (fun _ _ H => H) b Hin).
  reflexivity.
Qed.

Lemma merge_Ok (A B : DataFrame) (K : list Label) :
  inputs_ok A B K ->
  merge rf A B K
  = Ok (mkMerged (merged_columns A B K)
                 (map (merged_row rf A B K) (join_of rf A B K))).
Proof.
  intros Hok. unfold merge.
  rewrite find_none.
  2:{ intros k Hk. apply negb_false_iff. apply andb_true_iff.
      split; apply label_in_In;
        [apply (keys_A Hok) | apply (keys_B Hok)]; assumption. }
  rewrite existsb_false.
  2:{ intros k _. apply orb_false_iff. split; apply Nat.ltb_ge;
        apply NoDup_count_label;
        [apply (labels_A Hok) | apply (labels_B Hok)]. }
  rewrite existsb_false.
  2:{ intros r Hr. destruct (no_reserved Hok Hr) as [H1 H2].
      apply orb_false_iff. split; apply label_in_not_In; assumption. }
  rewrite (nonempty_true _ _ (keys_given Hok)). cbn [negb].
  pose proof (labels_merged Hok) as Hm. unfold merged_columns in Hm.
  rewrite !suffix_duplicates_NoDup; [reflexivity | |].
  - apply NoDup_app_remove_l in Hm. apply NoDup_app_remove_r in Hm. assumption.
  - apply NoDup_app_remove_r in Hm. assumption.
Qed.

Lemma keys_of_length (df : DataFrame) (K : list Label) :
  List.length (keys_of rf df K) = List.length (data df).
Proof. unfold keys_of. apply length_map. Qed.

Lemma nth_error_lt (A : Type) (l : list A) (i : nat) (x : A) :
  nth_error l i = Some x -> i < List.length l.
Proof. intros H. apply nth_error_Some. congruence. Qed.

Lemma join_of_in_range (A B : DataFrame) (K : list Label)
      (p : option nat * option nat) :
  In p (join_of rf A B K) -> in_range A B p /\ p <> (None, None).
Proof.
  unfold join_of, in_range. destruct p as [[i|] [j|]]; cbn [fst snd]; intros H.
  - apply join_both in H as [g [Hi Hj]].
    apply nth_error_lt in Hi, Hj. rewrite keys_of_length in Hi, Hj.
    repeat split; [assumption | assumption | discriminate].
  - apply join_left in H as [g [Hi _]].
    apply nth_error_lt in Hi. rewrite keys_of_length in Hi.
    repeat split; [assumption | discriminate].
  - apply join_right in H as [g [Hj _]].
    apply nth_error_lt in Hj. rewrite keys_of_length in Hj.
    repeat split; [assumption | discriminate].
  - apply join_none in H. contradiction.
Qed.

Lemma filter_indicator (A B : DataFrame) (K : list Label) (tag : string)
      (f : option nat * option nat -> bool) :
  inputs_ok A B K ->
  (forall p, p <> (None, None) -> String.eqb (indicator p) tag = f p) ->
  filter (indicator_is tag) (map (merged_row rf A B K) (join_of rf A B K))
  = map (merged_row rf A B K) (filter f (join_of rf A B K)).
Proof.
  intros Hok Hf. rewrite filter_map_swap. f_equal.
  apply filter_ext_in. intros p Hp. apply join_of_in_range in Hp as [Hr Hp].
  rewrite indicator_is_merged_row by assumption. apply Hf. assumption.
Qed.

Lemma filter_andb (A : Type) (f g : A -> bool) (l : list A) :
  filter (fun x => f x && g x) l = filter g (filter f l).
Proof.
  induction l as [|a l IH]; simpl; [reflexivity|].
  destruct (f a); simpl; [destruct (g a)|]; rewrite IH; reflexivity.
Qed.

Lemma collect_report (A B : DataFrame) (K : list Label) :
  inputs_ok A B K ->
  collect rf A K (mkMerged (merged_columns A B K)
                           (map (merged_row rf A B K) (join_of rf A B K)))
  = Ok (report_of rf A B K).
Proof.
  intros Hok. unfold collect. cbn [mcolumns mrows].
  rewrite (filter_indicator A B K "both" is_both Hok)
    by (intros [[i|] [j|]] Hp; [reflexivity .. | congruence]).
  rewrite (filter_indicator A B K "left_only" is_left_only Hok)
    by (intros [[i|] [j|]] Hp; [reflexivity .. | congruence]).
  rewrite (filter_indicator A B K "right_only" is_right_only Hok)
    by (intros [[i|] [j|]] Hp; [reflexivity .. | congruence]).
  assert (Hin : forall f p, In p (filter f (join_of rf A B K)) ->
                            in_range A B p /\ p <> (None, None)).
  { intros f p Hp. apply filter_In in Hp as [Hp _].
    apply (join_of_in_range A B K). assumption. }
  rewrite (collect_diff_rows_map A B K _ Hok (Hin is_both)). cbn [bind].
  rewrite (collect_keys_map A B K _ Hok (Hin is_left_only)). cbn [bind].
  rewrite (collect_keys_map A B K _ Hok (Hin is_right_only)). cbn [bind].
  unfold report_of, changed_pairs, left_only_pairs, right_only_pairs.
  rewrite filter_andb. reflexivity.
Qed.

(** ** The frames after key normalisation *)

Lemma astype_str_row_length (labels : list Label) (col : Label)
      (row : list Value) :
  List.length (astype_str_row rf labels col row) = List.length row.
Proof.
  revert row. induction labels as [|l labels IH]; intros [|v row]; simpl;
    try reflexivity. rewrite IH. reflexivity.
Qed.

Lemma normalized_columns (K : list Label) (df : DataFrame) :
  columns (normalized rf df K) = columns df.
Proof.
  unfold normalized. revert df. induction K as [|k K IH]; intros df; simpl;
    [reflexivity|]. rewrite IH. reflexivity.
Qed.

Lemma normalized_rows (K : list Label) (df : DataFrame) :
  (forall row, In row (data df) -> List.length row = List.length (columns df)) ->
  forall row, In row (data (normalized rf df K)) ->
              List.length row = List.length (columns df).
Proof.
  unfold normalized. revert df. induction K as [|k K IH]; intros df H; simpl;
    [assumption|].
  intros row Hrow. apply (IH (astype_str_frame rf df k)); [|assumption].
  cbn [astype_str_frame data columns]. intros r Hr.
  apply in_map_iff in Hr as [r0 [<- Hr0]].
  rewrite astype_str_row_length. apply H. assumption.
Qed.

Lemma normalize_keys_normalized (K : list Label) (df : DataFrame) :
  incl K (columns df) -> normalize_keys rf df K = Ok (normalized rf df K).
Proof.
  unfold normalized. revert df. induction K as [|k K IH]; intros df Hincl;
    simpl; [reflexivity|].
  unfold astype_str at 1.
  rewrite (proj2 (label_in_In k (columns df)) (Hincl k (or_introl eq_refl))).
  cbn [bind]. apply IH. cbn [astype_str_frame columns].
  intros x Hx. apply Hincl. right. assumption.
Qed.

Lemma merged_columns_ext (A A' B B' : DataFrame) (K : list Label) :
  columns A' = columns A -> columns B' = columns B ->
  merged_columns A' B' K = merged_columns A B K.
Proof.
  intros HA HB.
  unfold merged_columns, left_renamed, right_renamed, to_rename, right_labels.
  rewrite HA, HB. reflexivity.
Qed.

Lemma inputs_ok_normalized (A B : DataFrame) (K : list Label) :
  inputs_ok A B K -> inputs_ok (normalized rf A K) (normalized rf B K) K.
Proof.
  intros Hok.
  pose proof (normalized_columns K A) as HA.
  pose proof (normalized_columns K B) as HB.
  constructor; rewrite ?HA, ?HB,
    ?(merged_columns_ext A (normalized rf A K) B (normalized rf B K) K HA HB).
  - apply normalized_rows. apply (rows_A Hok).
  - apply normalized_rows. apply (rows_B Hok).
  - apply (keys_given Hok).
  - apply (keys_A Hok).
  - apply (keys_B Hok).
  - apply (labels_A Hok).
  - apply (labels_B Hok).
  - apply (labels_merged Hok).
  - intros r Hr. apply (no_reserved Hok Hr).
Qed.

(** On well-formed inputs the script's result is the report of the
    specification, taken on the frames with their key columns as text. *)
Lemma reconcile_report (A B : DataFrame) (K : list Label) :
  well_formed A B K = true ->
  reconcile rf A B K
  = Ok (report_of rf (normalized rf A K) (normalized rf B K) K).
Proof.
  intros Hwf. apply well_formed_inputs_ok in Hwf.
  unfold reconcile.
  rewrite (normalize_keys_normalized K A (keys_A Hwf)). cbn [bind].
  rewrite (normalize_keys_normalized K B (keys_B Hwf)). cbn [bind].
  apply inputs_ok_normalized in Hwf.
  rewrite (merge_Ok _ _ _ Hwf). cbn [bind].
  apply collect_report. assumption.
Qed.

(** ** Cells and keys after normalisation *)

Lemma cell_astype_str_row (labels : list Label) (col : Label)
      (row : list Value) (c : Label) :
  List.length row = List.length labels -> In c labels ->
  cell labels (astype_str_row rf labels col row) c
  = if Label_eqb c col then VStr (py_str rf (cell labels row c))
    else cell labels row c.
Proof.
  revert row. induction labels as [|l labels IH]; intros [|v row] Hlen Hin;
    simpl in Hlen; try discriminate; [contradiction|].
  cbn [astype_str_row]. rewrite !cell_cons.
  destruct (Label_eqb l c) eqn:E.
  - apply Label_eqb_eq in E. subst l. reflexivity.
  - apply IH; [lia|]. destruct Hin as [-> | Hin]; [|assumption].
    rewrite Label_eqb_refl in E. discriminate.
Qed.

(** The action of [normalize_keys] on one row. *)
Lemma normalized_data (K : list Label) (df : DataFrame) :
  data (normalized rf df K)
  = map (fun row => fold_left (fun r col => astype_str_row rf (columns df) col r)
                              K row)
        (data df).
Proof.
  unfold normalized. revert df. induction K as [|k K IH]; intros df; simpl.
  - rewrite map_id. reflexivity.
  - rewrite IH. cbn [astype_str_frame columns data]. rewrite map_map.
    reflexivity.
Qed.

Lemma cell_fold_astype (labels K : list Label) (row : list Value) (c : Label) :
  List.length row = List.length labels -> In c labels ->
  cell labels (fold_left (fun r col => astype_str_row rf labels col r) K row) c
  = if label_in c K then VStr (py_str rf (cell labels row c))
    else cell labels row c.
Proof.
  revert row. induction K as [|k K IH]; intros row Hlen Hin; simpl;
    [reflexivity|].
  rewrite IH by (rewrite ?astype_str_row_length; assumption).
  rewrite cell_astype_str_row by assumption.
  destruct (Label_eqb c k), (label_in c K); reflexivity.
Qed.

Lemma nth_normalized (K : list Label) (df : DataFrame) (i : nat) :
  nth i (data (normalized rf df K)) []
  = fold_left (fun r col => astype_str_row rf (columns df) col r) K
              (nth i (data df) []).
Proof.
  rewrite normalized_data.
  set (f := fun row => fold_left _ K row).
  replace (@nil Value) with (f []) at 1; [apply map_nth|].
  unfold f. clear f. induction K as [|k K IH]; simpl; [reflexivity|].
  destruct (columns df); exact IH.
Qed.

(** A cell outside the key columns is not touched; a key cell becomes the
    text of what it held. *)
Lemma cell_normalized (K : list Label) (df : DataFrame) (i : nat) (c : Label) :
  (forall row, In row (data df) -> List.length row = List.length (columns df)) ->
  i < List.length (data df) -> In c (columns df) ->
  cell (columns df) (nth i (data (normalized rf df K)) []) c
  = if label_in c K
    then VStr (py_str rf (cell (columns df) (nth i (data df) []) c))
    else cell (columns df) (nth i (data df) []) c.
Proof.
  intros Hrows Hi Hc. rewrite nth_normalized.
  apply cell_fold_astype; [|assumption].
  apply Hrows. apply nth_In. assumption.
Qed.

Lemma key_of_normalized (K : list Label) (df : DataFrame) (i : nat) :
  (forall row, In row (data df) -> List.length row = List.length (columns df)) ->
  incl K (columns df) -> i < List.length (data df) ->
  key_of rf (columns df) K (nth i (data (normalized rf df K)) [])
  = key_of rf (columns df) K (nth i (data df) []).
Proof.
  intros Hrows Hincl Hi. unfold key_of. apply map_ext_in. intros k Hk.
  rewrite cell_normalized by auto.
  rewrite (proj2 (label_in_In k K) Hk). reflexivity.
Qed.

Lemma nth_error_keys_of (df : DataFrame) (K : list Label) (i : nat) (g : Key) :
  nth_error (keys_of rf df K) i = Some g <->
  i < List.length (data df) /\
  key_of rf (columns df) K (nth i (data df) []) = g.
Proof.
  unfold keys_of. rewrite nth_error_map. split.
  - intros H. destruct (nth_error (data df) i) as [row|] eqn:E;
      [|discriminate].
    simpl in H. injection H as <-. split.
    + apply nth_error_lt in E. assumption.
    + rewrite (nth_error_nth _ _ [] E). reflexivity.
  - intros [Hi <-]. rewrite (nth_error_nth' _ [] Hi). reflexivity.
Qed.

(** The key of a row of the normalised frame is the stringified key of
    the row it comes from. *)
Lemma nth_error_keys_of_normalized (df : DataFrame) (K : list Label)
      (i : nat) (g : Key) :
  (forall row, In row (data df) -> List.length row = List.length (columns df)) ->
  incl K (columns df) ->
  nth_error (keys_of rf (normalized rf df K) K) i = Some g <->
  i < List.length (data df) /\
  key_of rf (columns df) K (nth i (data df) []) = g.
Proof.
  intros Hrows Hincl. rewrite nth_error_keys_of, normalized_columns.
  rewrite normalized_data, length_map.
  split; intros [Hi H]; (split; [assumption|]).
  - rewrite <- key_of_normalized by assumption.
    rewrite normalized_data. assumption.
  - rewrite <- key_of_normalized in H by assumption.
    rewrite normalized_data in H. assumption.
Qed.

Lemma keys_of_normalized (df : DataFrame) (K : list Label) :
  (forall row, In row (data df) -> List.length row = List.length (columns df)) ->
  incl K (columns df) ->
  keys_of rf (normalized rf df K) K = keys_of rf df K.
Proof.
  intros Hrows Hincl. apply nth_error_ext. intros i.
  destruct (nth_error (keys_of rf (normalized rf df K) K) i) as [g|] eqn:E.
  - apply (nth_error_keys_of_normalized df K i g Hrows Hincl) in E.
    symmetry. apply nth_error_keys_of. assumption.
  - destruct (nth_error (keys_of rf df K) i) as [g|] eqn:E'; [|reflexivity].
    apply nth_error_keys_of in E'.
    apply (nth_error_keys_of_normalized df K i g Hrows Hincl) in E'.
    congruence.
Qed.

Lemma pair_key_left (A B : DataFrame) (K : list Label) (i : nat)
      (oj : option nat) (g : Key) :
  nth_error (keys_of rf A K) i = Some g -> pair_key rf A B K (Some i, oj) = g.
Proof. intros H. apply nth_error_keys_of in H as [_ H]. exact H. Qed.

Lemma pair_key_right (A B : DataFrame) (K : list Label) (j : nat) (g : Key) :
  nth_error (keys_of rf B K) j = Some g -> pair_key rf A B K (None, Some j) = g.
Proof. intros H. apply nth_error_keys_of in H as [_ H]. exact H. Qed.

(** ** Missing key values *)

(** C10. Key normalisation turns a missing key cell into the text ["nan"],
    so a base row and a compare row that agree on every key column, a
    column counting as agreeing when it is missing on both sides, are
    joined with each other and neither is reported as present on one side
    only. *)
Theorem missing_keys_match (A B : DataFrame) (K : list Label) (i j : nat) :
  well_formed A B K = true ->
  i < List.length (data A) -> j < List.length (data B) ->
  (forall k, In k K ->
     (cell (columns A) (nth i (data A) []) k = VNaN /\
      cell (columns B) (nth j (data B) []) k = VNaN) \/
     py_str rf (cell (columns A) (nth i (data A) []) k)
     = py_str rf (cell (columns B) (nth j (data B) []) k)) ->
  let A' := normalized rf A K in
  let B' := normalized rf B K in
  (forall k, In k K -> cell (columns A) (nth i (data A) []) k = VNaN ->
             cell (columns A) (nth i (data A') []) k = VStr "nan") /\
  (forall k, In k K -> cell (columns B) (nth j (data B) []) k = VNaN ->
             cell (columns B) (nth j (data B') []) k = VStr "nan") /\
  In (Some i, Some j) (join_of rf A' B' K) /\
  ~ In (Some i, None) (join_of rf A' B' K) /\
  ~ In (None, Some j) (join_of rf A' B' K) /\
  reconcile rf A B K = Ok (report_of rf A' B' K).
Proof.
  intros Hwf Hi Hj Hkeys A' B'.
  pose proof (well_formed_inputs_ok A B K Hwf) as Hok.
  assert (Hsame : key_of rf (columns A) K (nth i (data A) [])
                  = key_of rf (columns B) K (nth j (data B) [])).
  { unfold key_of. apply map_ext_in. intros k Hk.
    destruct (Hkeys k Hk) as [[-> ->] | H]; [reflexivity | exact H]. }
  assert (HkA : nth_error (keys_of rf A' K) i
                = Some (key_of rf (columns A) K (nth i (data A) []))).
  { apply nth_error_keys_of_normalized;
      [apply (rows_A Hok) | apply (keys_A Hok) | auto]. }
  assert (HkB : nth_error (keys_of rf B' K) j
                = Some (key_of rf (columns A) K (nth i (data A) []))).
  { apply nth_error_keys_of_normalized;
      [apply (rows_B Hok) | apply (keys_B Hok) | auto]. }
  split; [|split; [|split; [|split; [|split]]]].
  - intros k Hk Hna. unfold A'.
    rewrite cell_normalized;
      [| apply (rows_A Hok) | assumption | apply (keys_A Hok); assumption].
    rewrite (proj2 (label_in_In k K) Hk), Hna. reflexivity.
  - intros k Hk Hna. unfold B'.
    rewrite cell_normalized;
      [| apply (rows_B Hok) | assumption | apply (keys_B Hok); assumption].
    rewrite (proj2 (label_in_In k K) Hk), Hna. reflexivity.
  - apply join_both. eauto.
  - intros H. apply join_left in H as [g [Hg Hn]].
    apply Hn. apply (nth_error_In _ j). congruence.
  - intros H. apply join_right in H as [g [Hg Hn]].
    apply Hn. apply (nth_error_In _ i). congruence.
  - apply reconcile_report. assumption.
Qed.

(** ** Differences of a matched pair *)

Lemma differences_In (cols K mcols : list Label) (row : Series) (e : Entry) :
  forall ds, differences cols K mcols row = Ok ds ->
  (In e ds <->
   exists col d, In col cols /\ compare_column K mcols row col = Ok d /\ In e d).
Proof.
  induction cols as [|c cols IH]; intros ds H; simpl in H.
  - injection H as <-. split; [contradiction | intros [? [? [[] _]]]].
  - destruct (compare_column K mcols row c) as [d|err] eqn:Ec;
      cbn [bind] in H; [|discriminate].
    destruct (differences cols K mcols row) as [ds'|err] eqn:Ed;
      cbn [bind] in H; [|discriminate].
    injection H as <-. rewrite in_app_iff, (IH ds' eq_refl). split.
    + intros [Hd | [col [d' [Hc [Hcc He]]]]].
      * exists c, d. split; [left; reflexivity | auto].
      * exists col, d'. split; [right; assumption | auto].
    + intros [col [d' [[<- | Hc] [Hcc He]]]].
      * left. congruence.
      * right. exists col, d'. auto.
Qed.

Lemma compare_column_entry (K mcols : list Label) (row : Series)
      (col c : Label) (d : list Entry) (x y : PyVal) :
  compare_column K mcols row col = Ok d -> In (c, x, y) d -> c = col.
Proof.
  unfold compare_column.
  repeat match goal with
         | |- context [if ?b then _ else _] => destruct b
         | |- context [match series_get ?r ?l with _ => _ end] =>
             destruct (series_get r l)
         end;
    intros H; try discriminate; injection H as <-; intros Hin;
    try contradiction; destruct Hin as [E | []]; congruence.
Qed.

Lemma compare_column_common (A B : DataFrame) (K : list Label) (i j : nat)
      (c : Label) :
  inputs_ok A B K -> in_range A B (Some i, Some j) ->
  In c (columns A) -> In c (columns B) -> ~ In c K ->
  compare_column K (merged_columns A B K) (merged_row rf A B K (Some i, Some j)) c
  = Ok (let va := cell (columns A) (left_row rf A B K i) c in
        let vb := cell (columns B) (right_row rf A B K j) c in
        if isna va && isna vb then []
        else if py_eq va vb then [] else [(c, Some va, Some vb)]).
Proof.
  intros Hok Hr HA HB HK. destruct Hr as [Hi Hj]. cbn [fst snd] in Hi, Hj.
  unfold compare_column.
  rewrite (proj2 (label_in_not_In c K) HK).
  replace (label_in (LStr (label_str c ++ "_compare")) (merged_columns A B K))
    with true.
  2:{ symmetry. apply label_in_In. unfold merged_columns.
      apply in_or_app. right. apply in_or_app. left.
      rewrite <- (suffix_label_common A B K "_compare" c) by assumption.
      unfold right_renamed. apply in_map. unfold right_labels.
      apply filter_In. split; [assumption|]. apply negb_true_iff.
      apply label_in_not_In. assumption. }
  cbn [orb negb].
  rewrite (series_get_One _ _ (cell (columns A) (left_row rf A B K i) c)).
  2:{ apply merged_row_NoDup; [assumption | split; assumption]. }
  2:{ rewrite <- (suffix_label_common A B K "_base" c) by assumption.
      apply merged_row_left; assumption. }
  rewrite (series_get_One _ _ (cell (columns B) (right_row rf A B K j) c)).
  2:{ apply merged_row_NoDup; [assumption | split; assumption]. }
  2:{ rewrite <- (suffix_label_common A B K "_compare" c) by assumption.
      apply merged_row_right; assumption. }
  cbn [pd_isna py_ne].
  destruct (isna _ && isna _); [reflexivity|].
  destruct (py_eq _ _); reflexivity.
Qed.

(** The entries recorded for a column found in both tables. *)
Lemma row_differences_common (A B : DataFrame) (K : list Label) (i j : nat)
      (c : Label) (x y : PyVal) :
  inputs_ok A B K -> in_range A B (Some i, Some j) ->
  In c (columns A) -> In c (columns B) -> ~ In c K ->
  (In (c, x, y) (row_differences rf A B K (Some i, Some j)) <->
   x = Some (cell (columns A) (left_row rf A B K i) c) /\
   y = Some (cell (columns B) (right_row rf A B K j) c) /\
   isna (cell (columns A) (left_row rf A B K i) c)
   && isna (cell (columns B) (right_row rf A B K j) c) = false /\
   py_eq (cell (columns A) (left_row rf A B K i) c)
         (cell (columns B) (right_row rf A B K j) c) = false).
Proof.
  intros Hok Hr HA HB HK.
  rewrite (differences_In _ _ _ _ _ _ (row_differences_Ok A B K _ Hok Hr)).
  pose proof (compare_column_common A B K i j c Hok Hr HA HB HK) as Hc.
  cbv zeta in Hc. split.
  - intros [col [d [_ [Hd Hin]]]].
    pose proof (compare_column_entry _ _ _ _ _ _ _ _ Hd Hin). subst col.
    rewrite Hc in Hd. injection Hd as <-.
    destruct (isna _ && isna _); [contradiction|].
    destruct (py_eq _ _); [contradiction|].
    destruct Hin as [E | []]. injection E as <- <-. auto.
  - intros [-> [-> [Hna Hne]]]. eexists c, _.
    split; [assumption|]. split; [exact Hc|].
    rewrite Hna, Hne. left. reflexivity.
Qed.

Lemma cell_normalized_other (K : list Label) (df : DataFrame) (i : nat)
      (c : Label) :
  (forall row, In row (data df) -> List.length row = List.length (columns df)) ->
  i < List.length (data df) -> In c (columns df) -> ~ In c K ->
  cell (columns (normalized rf df K)) (nth i (data (normalized rf df K)) []) c
  = cell (columns df) (nth i (data df) []) c.
Proof.
  intros Hrows Hi Hc HK. rewrite normalized_columns.
  rewrite cell_normalized by assumption.
  rewrite (proj2 (label_in_not_In c K) HK). reflexivity.
Qed.

Lemma in_range_normalized (A B : DataFrame) (K : list Label)
      (p : option nat * option nat) :
  in_range (normalized rf A K) (normalized rf B K) p <-> in_range A B p.
Proof.
  unfold in_range. rewrite !normalized_data, !length_map. reflexivity.
Qed.

Lemma changed_pairs_iff (A B : DataFrame) (K : list Label)
      (p : option nat * option nat) :
  In p (changed_pairs rf A B K) <->
  In p (join_of rf A B K) /\ is_both p = true /\ row_differences rf A B K p <> [].
Proof.
  unfold changed_pairs. rewrite filter_In, andb_true_iff.
  destruct (row_differences rf A B K p); simpl; intuition congruence.
Qed.

Lemma identical_pairs_iff (A B : DataFrame) (K : list Label)
      (p : option nat * option nat) :
  In p (identical_pairs rf A B K) <->
  In p (join_of rf A B K) /\ is_both p = true /\ row_differences rf A B K p = [].
Proof.
  unfold identical_pairs. rewrite filter_In, andb_true_iff.
  destruct (row_differences rf A B K p); simpl; intuition congruence.
Qed.

Lemma diff_rows_nonempty (A B : DataFrame) (K : list Label) (d : DiffRow) :
  In d (diff_rows (report_of rf A B K)) -> Differences d <> [].
Proof.
  unfold report_of. cbn [diff_rows]. intros H.
  apply in_map_iff in H as [p [<- Hp]]. cbn [Differences].
  apply changed_pairs_iff in Hp. tauto.
Qed.

(** *** The values the merged frame holds *)

Lemma dtype_astype_str_dtypes (labels : list Label) (col c : Label)
      (ds : list Dtype) :
  match index_of c labels with
  | Some j => nth j (astype_str_dtypes labels col ds) DObject
  | None => DObject
  end
  = if Label_eqb c col then DObject
    else match index_of c labels with
         | Some j => nth j ds DObject
         | None => DObject
         end.
Proof.
  revert ds. induction labels as [|l labels IH]; intros ds.
  - cbn [index_of]. destruct (Label_eqb c col); reflexivity.
  - destruct ds as [|d ds].
    + cbn [astype_str_dtypes].
      destruct (index_of c (l :: labels)) as [[|j]|];
        destruct (Label_eqb c col); reflexivity.
    + cbn [astype_str_dtypes index_of].
      destruct (Label_eqb l c) eqn:E.
      * apply Label_eqb_eq in E. subst l. cbn [nth].
        destruct (Label_eqb c col); reflexivity.
      * specialize (IH ds).
        destruct (index_of c labels) as [j|]; [exact IH|].
        destruct (Label_eqb c col); reflexivity.
Qed.

Lemma dtype_of_astype_str_frame (df : DataFrame) (col c : Label) :
  dtype_of (astype_str_frame rf df col) c
  = if Label_eqb c col then DObject else dtype_of df c.
Proof.
  unfold dtype_of, astype_str_frame. cbn [columns dtypes].
  apply dtype_astype_str_dtypes.
Qed.

(** Key normalisation leaves the dtype of every other column. *)
Lemma dtype_of_normalized (K : list Label) (df : DataFrame) (c : Label) :
  dtype_of (normalized rf df K) c
  = if label_in c K then DObject else dtype_of df c.
Proof.
  unfold normalized. revert df. induction K as [|k K IH]; intros df;
    [reflexivity|].
  cbn [fold_left]. rewrite IH, dtype_of_astype_str_frame.
  unfold label_in. cbn [existsb].
  destruct (Label_eqb c k), (existsb (Label_eqb c) K); reflexivity.
Qed.

Lemma isna_promote (d : Dtype) (v : Value) : isna (promote d v) = isna v.
Proof. destruct d, v; reflexivity. Qed.

(** The base columns receive NaN exactly when some compare row has no
    partner, and conversely. *)
Lemma left_gets_nan_iff (A B : DataFrame) (K : list Label) :
  left_gets_nan rf A B K = true <->
  exists j, In (None, Some j) (join_of rf A B K).
Proof.
  unfold left_gets_nan, join_of. rewrite existsb_exists. split.
  - intros [[[i|] [j|]] [Hin He]]; try discriminate.
    + exists j. exact Hin.
    + apply join_none in Hin. contradiction.
  - intros [j Hj]. exists (None, Some j). split; [exact Hj | reflexivity].
Qed.

Lemma right_gets_nan_iff (A B : DataFrame) (K : list Label) :
  right_gets_nan rf A B K = true <->
  exists i, In (Some i, None) (join_of rf A B K).
Proof.
  unfold right_gets_nan, join_of. rewrite existsb_exists. split.
  - intros [[[i|] [j|]] [Hin He]]; try discriminate.
    exists i. exact Hin.
  - intros [i Hi]. exists (Some i, None). split; [exact Hi | reflexivity].
Qed.

Lemma unmatched_compare_row (A B : DataFrame) (K : list Label) :
  inputs_ok A B K ->
  (left_gets_nan rf (normalized rf A K) (normalized rf B K) K = true <->
   exists j, j < List.length (data B) /\
             ~ In (key_of rf (columns B) K (nth j (data B) []))
                  (keys_of rf A K)).
Proof.
  intros Hok. rewrite left_gets_nan_iff. unfold join_of.
  rewrite (keys_of_normalized A K (rows_A Hok) (keys_A Hok)).
  split.
  - intros [j Hj]. apply join_right in Hj as [g [Hg Hn]].
    apply (nth_error_keys_of_normalized B K j g (rows_B Hok) (keys_B Hok))
      in Hg as [Hj <-].
    exists j. auto.
  - intros [j [Hj Hn]]. exists j. apply join_right.
    exists (key_of rf (columns B) K (nth j (data B) [])).
    split; [|exact Hn].
    apply (nth_error_keys_of_normalized B K j _ (rows_B Hok) (keys_B Hok)).
    auto.
Qed.

Lemma unmatched_base_row (A B : DataFrame) (K : list Label) :
  inputs_ok A B K ->
  (right_gets_nan rf (normalized rf A K) (normalized rf B K) K = true <->
   exists i, i < List.length (data A) /\
             ~ In (key_of rf (columns A) K (nth i (data A) []))
                  (keys_of rf B K)).
Proof.
  intros Hok. rewrite right_gets_nan_iff. unfold join_of.
  rewrite (keys_of_normalized B K (rows_B Hok) (keys_B Hok)).
  split.
  - intros [i Hi]. apply join_left in Hi as [g [Hg Hn]].
    apply (nth_error_keys_of_normalized A K i g (rows_A Hok) (keys_A Hok))
      in Hg as [Hi <-].
    exists i. auto.
  - intros [i [Hi Hn]]. exists i. apply join_left.
    exists (key_of rf (columns A) K (nth i (data A) [])).
    split; [|exact Hn].
    apply (nth_error_keys_of_normalized A K i _ (rows_A Hok) (keys_A Hok)).
    auto.
Qed.

(** The cell of a column outside the key, as the merged frame of the
    normalised tables holds it. *)
Lemma base_cell_merged (A B : DataFrame) (K : list Label) (i : nat) (c : Label) :
  inputs_ok A B K -> i < List.length (data A) -> In c (columns A) ->
  ~ In c K ->
  cell (columns (normalized rf A K))
       (left_row rf (normalized rf A K) (normalized rf B K) K i) c
  = if left_gets_nan rf (normalized rf A K) (normalized rf B K) K
    then promote (dtype_of A c) (cell (columns A) (nth i (data A) []) c)
    else cell (columns A) (nth i (data A) []) c.
Proof.
  intros Hok Hi Hc HK. rewrite cell_left_row.
  rewrite (proj2 (label_in_not_In c K) HK), andb_true_r.
  rewrite dtype_of_normalized, (proj2 (label_in_not_In c K) HK).
  rewrite (cell_normalized_other K A i c (rows_A Hok) Hi Hc HK).
  reflexivity.
Qed.

Lemma compare_cell_merged (A B : DataFrame) (K : list Label) (j : nat)
      (c : Label) :
  inputs_ok A B K -> j < List.length (data B) -> In c (columns B) ->
  ~ In c K ->
  cell (columns (normalized rf B K))
       (right_row rf (normalized rf A K) (normalized rf B K) K j) c
  = if right_gets_nan rf (normalized rf A K) (normalized rf B K) K
    then promote (dtype_of B c) (cell (columns B) (nth j (data B) []) c)
    else cell (columns B) (nth j (data B) []) c.
Proof.
  intros Hok Hj Hc HK. rewrite cell_right_row.
  rewrite (proj2 (label_in_not_In c K) HK), andb_true_r.
  rewrite dtype_of_normalized, (proj2 (label_in_not_In c K) HK).
  rewrite (cell_normalized_other K B j c (rows_B Hok) Hj Hc HK).
  reflexivity.
Qed.

(** *** Integers that a float64 holds exactly *)

Lemma nearest_float64_exact (z : Z) :
  (Z.abs z <= 9007199254740992)%Z -> nearest_float64 z = z.
Proof.
  intros H.
  destruct (Z.eq_dec (Z.abs z) 9007199254740992) as [E|E].
  - assert (Hz : z = 9007199254740992%Z \/ z = (-9007199254740992)%Z) by lia.
    destruct Hz as [-> | ->]; reflexivity.
  - unfold nearest_float64.
    assert (Hlog : (Z.log2 (Z.abs z) - 52 <= 0)%Z).
    { destruct (Z.eq_dec (Z.abs z) 0) as [E0|E0].
      - rewrite E0. simpl. lia.
      - assert (Hlt : (Z.log2 (Z.abs z) < 53)%Z).
        { apply Z.log2_lt_pow2; [lia|].
          change (2 ^ 53)%Z with 9007199254740992%Z. lia. }
        lia. }
    apply Z.leb_le in Hlog. rewrite Hlog. reflexivity.
Qed.

Lemma Qc_eq_bool_inject (a b : Z) :
  Qc_eq_bool (Q2Qc (inject_Z a)) (Q2Qc (inject_Z b)) = Z.eqb a b.
Proof.
  unfold Qc_eq_bool.
  destruct (Qc_eq_dec (Q2Qc (inject_Z a)) (Q2Qc (inject_Z b))) as [E|E];
    destruct (Z.eqb_spec a b) as [Hab|Hab]; try reflexivity.
  - exfalso. apply Hab. apply Q2Qc_eq_iff in E.
    unfold Qeq, inject_Z in E. simpl in E. lia.
  - exfalso. apply E. subst. reflexivity.
Qed.

Lemma py_eq_int_as_float (z : Z) (b : Value) :
  py_eq (VFloat (Q2Qc (inject_Z z))) b = py_eq (VInt z) b.
Proof. destruct b; simpl; rewrite ?Qc_eq_bool_inject; reflexivity. Qed.

Lemma py_eq_promote_l (d : Dtype) (a b : Value) :
  exact_in_float64 a = true -> py_eq (promote d a) b = py_eq a b.
Proof.
  intros Ha. destruct d, a; try reflexivity.
  cbn [promote]. unfold float64_of_int.
  rewrite nearest_float64_exact by (apply Z.leb_le; exact Ha).
  apply py_eq_int_as_float.
Qed.

(** On such integers the promotion does not change what is equal. *)
Lemma py_eq_promote (fa fb : bool) (da db : Dtype) (a b : Value) :
  exact_in_float64 a = true -> exact_in_float64 b = true ->
  py_eq (if fa then promote da a else a) (if fb then promote db b else b)
  = py_eq a b.
Proof.
  intros Ha Hb.
  assert (Hr : py_eq a (if fb then promote db b else b) = py_eq a b).
  { destruct fb; [|reflexivity].
    rewrite py_eq_sym, py_eq_promote_l by assumption. apply py_eq_sym. }
  destruct fa; [|exact Hr].
  rewrite py_eq_promote_l by assumption. exact Hr.
Qed.

(** C5 (amended). For a base row and a compare row joined on their key
    and a column outside the key found in both tables, the loop compares
    the two cells as the merged frame holds them: a cell of an int64
    column is the float64 nearest to its integer when the merge has put
    NaN into the columns of its table, which it does for the base table
    when some compare row has no partner and for the compare table when
    some base row has none.  Two missing values record no difference;
    otherwise the entry (column, base value, compare value) is recorded,
    with these values, exactly when they are not equal.  When both cells
    are exact as float64 (any text, any float, any integer of at most 53
    bits) that is exactly when the cells of the two tables are not equal.
    The pair is placed in Changed exactly when some difference was
    recorded, and no row of the report is without one. *)
Theorem differences_of_matched_rows (A B : DataFrame) (K : list Label)
        (i j : nat) (c : Label) :
  well_formed A B K = true ->
  let A' := normalized rf A K in
  let B' := normalized rf B K in
  In (Some i, Some j) (join_of rf A' B' K) ->
  In c (columns A) -> In c (columns B) -> ~ In c K ->
  let va := cell (columns A) (nth i (data A) []) c in
  let vb := cell (columns B) (nth j (data B) []) c in
  let va' := if left_gets_nan rf A' B' K then promote (dtype_of A c) va
             else va in
  let vb' := if right_gets_nan rf A' B' K then promote (dtype_of B c) vb
             else vb in
  let ds := row_differences rf A' B' K (Some i, Some j) in
  (left_gets_nan rf A' B' K = true <->
   exists j', j' < List.length (data B) /\
              ~ In (key_of rf (columns B) K (nth j' (data B) []))
                   (keys_of rf A K)) /\
  (right_gets_nan rf A' B' K = true <->
   exists i', i' < List.length (data A) /\
              ~ In (key_of rf (columns A) K (nth i' (data A) []))
                   (keys_of rf B K)) /\
  (isna va = true -> isna vb = true -> forall x y, ~ In (c, x, y) ds) /\
  (forall x y, In (c, x, y) ds <->
               x = Some va' /\ y = Some vb' /\
               isna va && isna vb = false /\ py_eq va' vb' = false) /\
  (exact_in_float64 va = true -> exact_in_float64 vb = true ->
   py_eq va' vb' = py_eq va vb) /\
  (In (Some i, Some j) (changed_pairs rf A' B' K) <-> ds <> []) /\
  reconcile rf A B K = Ok (report_of rf A' B' K) /\
  (forall d, In d (diff_rows (report_of rf A' B' K)) -> Differences d <> []).
Proof.
  intros Hwf A' B' Hin HA HB HK va vb va' vb' ds.
  pose proof (well_formed_inputs_ok A B K Hwf) as Hok.
  pose proof (inputs_ok_normalized A B K Hok) as Hok'.
  destruct (join_of_in_range A' B' K _ Hin) as [Hr' _].
  pose proof (proj1 (in_range_normalized A B K _) Hr') as [Hi Hj].
  cbn [fst snd] in Hi, Hj.
  assert (Hna : isna va' && isna vb' = isna va && isna vb).
  { unfold va', vb'.
    destruct (left_gets_nan rf A' B' K), (right_gets_nan rf A' B' K);
      rewrite ?isna_promote; reflexivity. }
  assert (Hentries : forall x y, In (c, x, y) ds <->
            x = Some va' /\ y = Some vb' /\
            isna va && isna vb = false /\ py_eq va' vb' = false).
  { intros x y. unfold ds.
    rewrite (row_differences_common A' B' K i j c x y Hok' Hr');
      [| unfold A'; rewrite normalized_columns; assumption
       | unfold B'; rewrite normalized_columns; assumption
       | assumption ].
    unfold A', B'.
    rewrite (base_cell_merged A B K i c Hok Hi HA HK).
    rewrite (compare_cell_merged A B K j c Hok Hj HB HK).
    fold A' B' va vb va' vb'. rewrite Hna. reflexivity. }
  split; [apply unmatched_compare_row; assumption|].
  split; [apply unmatched_base_row; assumption|].
  split; [|split; [|split; [|split; [|split]]]].
  - intros Ha Hb x y H. apply Hentries in H as [_ [_ [H _]]].
    rewrite Ha, Hb in H. discriminate.
  - exact Hentries.
  - intros Ea Eb. apply py_eq_promote; assumption.
  - rewrite changed_pairs_iff. split; [tauto|]. intros H. auto.
  - apply reconcile_report. assumption.
  - apply diff_rows_nonempty.
Qed.

(** ** Duplicate keys *)











(** ** The classes of keys *)

Lemma left_only_keys_iff (A B : DataFrame) (K : list Label) (g : Key) :
  In g (class_keys rf A B K (left_only_pairs rf A B K)) <->
  In g (keys_of rf A K) /\ ~ In g (keys_of rf B K).
Proof.
  unfold class_keys, left_only_pairs. rewrite in_map_iff. split.
  - intros [[[i|] [j|]] [Hg Hp]]; apply filter_In in Hp as [Hp Hc];
      try discriminate.
    apply join_left in Hp as [g' [Hi Hn]].
    rewrite (pair_key_left A B K i None g' Hi) in Hg. subst g'.
    split; [apply (nth_error_In _ i); assumption | assumption].
  - intros [Hin Hn]. apply In_nth_error in Hin as [i Hi].
    exists (Some i, None). split; [apply pair_key_left; assumption|].
    apply filter_In. split; [|reflexivity]. apply join_left. eauto.
Qed.

Lemma right_only_keys_iff (A B : DataFrame) (K : list Label) (g : Key) :
  In g (class_keys rf A B K (right_only_pairs rf A B K)) <->
  In g (keys_of rf B K) /\ ~ In g (keys_of rf A K).
Proof.
  unfold class_keys, right_only_pairs. rewrite in_map_iff. split.
  - intros [[[i|] [j|]] [Hg Hp]]; apply filter_In in Hp as [Hp Hc];
      try discriminate.
    apply join_right in Hp as [g' [Hj Hn]].
    rewrite (pair_key_right A B K j g' Hj) in Hg. subst g'.
    split; [apply (nth_error_In _ j); assumption | assumption].
  - intros [Hin Hn]. apply In_nth_error in Hin as [j Hj].
    exists (None, Some j). split; [apply pair_key_right; assumption|].
    apply filter_In. split; [|reflexivity]. apply join_right. eauto.
Qed.

Lemma matched_keys_iff (A B : DataFrame) (K : list Label) (g : Key) :
  In g (class_keys rf A B K (changed_pairs rf A B K)) \/
  In g (class_keys rf A B K (identical_pairs rf A B K)) <->
  In g (keys_of rf A K) /\ In g (keys_of rf B K).
Proof.
  unfold class_keys. rewrite !in_map_iff. split.
  - assert (H : forall p, In p (join_of rf A B K) -> is_both p = true ->
                          pair_key rf A B K p = g ->
                          In g (keys_of rf A K) /\ In g (keys_of rf B K)).
    { intros [[i|] [j|]] Hp Hb Hg; try discriminate.
      apply join_both in Hp as [g' [Hi Hj]].
      rewrite (pair_key_left A B K i (Some j) g' Hi) in Hg. subst g'.
      split; [apply (nth_error_In _ i) | apply (nth_error_In _ j)];
        assumption. }
    intros [[p [Hg Hp]] | [p [Hg Hp]]].
    + apply changed_pairs_iff in Hp as [Hp [Hb _]]. eauto.
    + apply identical_pairs_iff in Hp as [Hp [Hb _]]. eauto.
  - intros [HA HB]. apply In_nth_error in HA as [i Hi], HB as [j Hj].
    assert (Hp : In (Some i, Some j) (join_of rf A B K))
      by (apply join_both; eauto).
    pose proof (pair_key_left A B K i (Some j) g Hi) as Hg.
    destruct (row_differences rf A B K (Some i, Some j)) as [|e ds] eqn:E.
    + right. exists (Some i, Some j). split; [assumption|].
      apply identical_pairs_iff. auto.
    + left. exists (Some i, Some j). split; [assumption|].
      apply changed_pairs_iff. rewrite E. repeat split; [assumption|discriminate].
Qed.

Lemma unique_keys_one_pair (A B : DataFrame) (K : list Label)
      (p q : option nat * option nat) :
  NoDup (keys_of rf A K) -> NoDup (keys_of rf B K) ->
  In p (join_of rf A B K) -> In q (join_of rf A B K) ->
  is_both p = true -> is_both q = true ->
  pair_key rf A B K p = pair_key rf A B K q -> p = q.
Proof.
  intros HnA HnB Hp Hq Hbp Hbq Hk.
  destruct p as [[i|] [j|]]; try discriminate.
  destruct q as [[i'|] [j'|]]; try discriminate.
  apply join_both in Hp as [g [Hi Hj]], Hq as [g' [Hi' Hj']].
  rewrite (pair_key_left A B K i (Some j) g Hi) in Hk.
  rewrite (pair_key_left A B K i' (Some j') g' Hi') in Hk. subst g'.
  assert (i = i').
  { apply (proj1 (NoDup_nth_error _) HnA);
      [apply (nth_error_lt _ _ _ _ Hi) | congruence]. }
  assert (j = j').
  { apply (proj1 (NoDup_nth_error _) HnB);
      [apply (nth_error_lt _ _ _ _ Hj) | congruence]. }
  congruence.
Qed.

Lemma unique_keys_one_class (A B : DataFrame) (K : list Label) (g : Key) :
  NoDup (keys_of rf A K) -> NoDup (keys_of rf B K) ->
  ~ (In g (class_keys rf A B K (changed_pairs rf A B K)) /\
     In g (class_keys rf A B K (identical_pairs rf A B K))).
Proof.
  intros HnA HnB [Hc Hi]. unfold class_keys in Hc, Hi.
  apply in_map_iff in Hc as [p [Hgp Hp]], Hi as [q [Hgq Hq]].
  apply changed_pairs_iff in Hp as [Hp [Hbp Hdp]].
  apply identical_pairs_iff in Hq as [Hq [Hbq Hdq]].
  assert (p = q) by (apply (unique_keys_one_pair A B K); congruence).
  congruence.
Qed.

(** C1 (amended). On well-formed inputs: every joined pair of rows falls
    in exactly one of matched, LeftOnly, RightOnly, and a matched pair in
    exactly one of Changed and dropped-identical.  A key of A is either
    matched (it then occurs in Changed or in the dropped-identical class,
    in both when it is repeated and only some of its pairs differ) or in
    LeftOnly, never both, and never in RightOnly; likewise for a key of B
    with RightOnly.  No key is in both LeftOnly and RightOnly, and every
    row of Changed carries a difference.  When no key is repeated inside A
    nor inside B, every key of A lands in exactly one of Changed, LeftOnly
    and dropped-identical, and every key of B in exactly one of Changed,
    RightOnly and dropped-identical. *)
Theorem reconcile_partition (A B : DataFrame) (K : list Label) :
  well_formed A B K = true ->
  let A' := normalized rf A K in
  let B' := normalized rf B K in
  let changed := class_keys rf A' B' K (changed_pairs rf A' B' K) in
  let identical := class_keys rf A' B' K (identical_pairs rf A' B' K) in
  let left_only := class_keys rf A' B' K (left_only_pairs rf A' B' K) in
  let right_only := class_keys rf A' B' K (right_only_pairs rf A' B' K) in
  reconcile rf A B K = Ok (report_of rf A' B' K) /\
  (forall p, In p (join_of rf A' B' K) ->
     exactly_one (In p (changed_pairs rf A' B' K) \/
                  In p (identical_pairs rf A' B' K))
                 (In p (left_only_pairs rf A' B' K))
                 (In p (right_only_pairs rf A' B' K)) /\
     ~ (In p (changed_pairs rf A' B' K) /\
        In p (identical_pairs rf A' B' K))) /\
  (forall g, In g (keys_of rf A' K) ->
     exactly_one (In g changed \/ In g identical) (In g left_only) False /\
     ~ In g right_only) /\
  (forall g, In g (keys_of rf B' K) ->
     exactly_one (In g changed \/ In g identical) (In g right_only) False /\
     ~ In g left_only) /\
  (forall g, ~ (In g left_only /\ In g right_only)) /\
  (forall d, In d (diff_rows (report_of rf A' B' K)) -> Differences d <> []) /\
  (NoDup (keys_of rf A' K) -> NoDup (keys_of rf B' K) ->
   (forall g, In g (keys_of rf A' K) ->
              exactly_one (In g changed) (In g left_only) (In g identical)) /\
   (forall g, In g (keys_of rf B' K) ->
              exactly_one (In g changed) (In g right_only) (In g identical))).
Proof.
  intros Hwf A' B' changed identical left_only right_only.
  assert (HkA : forall g, In g (keys_of rf A' K) ->
            exactly_one (In g changed \/ In g identical) (In g left_only) False
            /\ ~ In g right_only).
  { intros g Hg. unfold exactly_one, changed, identical, left_only, right_only.
    rewrite matched_keys_iff, left_only_keys_iff, right_only_keys_iff.
    destruct (in_dec (list_eq_dec string_dec) g (keys_of rf B' K)); tauto. }
  assert (HkB : forall g, In g (keys_of rf B' K) ->
            exactly_one (In g changed \/ In g identical) (In g right_only) False
            /\ ~ In g left_only).
  { intros g Hg. unfold exactly_one, changed, identical, left_only, right_only.
    rewrite matched_keys_iff, left_only_keys_iff, right_only_keys_iff.
    destruct (in_dec (list_eq_dec string_dec) g (keys_of rf A' K)); tauto. }
  split; [apply reconcile_report; assumption|].
  split; [|split; [exact HkA|split; [exact HkB|split; [|split]]]].
  - intros p Hp. unfold exactly_one, left_only_pairs, right_only_pairs.
    rewrite changed_pairs_iff, identical_pairs_iff, !filter_In.
    pose proof (join_none (keys_of rf A' K) (keys_of rf B' K)) as Hnone.
    fold (join_of rf A' B' K) in Hnone.
    destruct p as [[i|] [j|]]; cbn [is_both is_left_only is_right_only].
    + split; [left|intuition congruence].
      repeat split; try (intros [_ H]; discriminate).
      destruct (row_differences rf A' B' K (Some i, Some j));
        [right | left]; repeat split; congruence.
    + split; [right; left|intuition congruence].
      repeat split; auto; intuition discriminate.
    + split; [right; right|intuition congruence].
      repeat split; auto; intuition discriminate.
    + contradiction.
  - intros g [Hl Hr]. unfold left_only, right_only in Hl, Hr.
    apply left_only_keys_iff in Hl. apply right_only_keys_iff in Hr. tauto.
  - apply diff_rows_nonempty.
  - intros HnA HnB.
    pose proof (fun g => unique_keys_one_class A' B' K g HnA HnB) as Hone.
    fold changed identical in Hone.
    split; intros g Hg.
    + destruct (HkA g Hg) as [Hex _]. specialize (Hone g).
      unfold exactly_one in *. tauto.
    + destruct (HkB g Hg) as [Hex _]. specialize (Hone g).
      unfold exactly_one in *. tauto.
Qed.

(** ** Exchanging the two tables *)

Lemma compare_column_skipped (K mcols : list Label) (row : Series) (col : Label) :
  In col K \/ ~ In (LStr (label_str col ++ "_compare")) mcols ->
  compare_column K mcols row col = Ok [].
Proof.
  intros H. unfold compare_column.
  replace (label_in col K
           || negb (label_in (LStr (label_str col ++ "_compare")) mcols))
    with true; [reflexivity|].
  symmetry. apply orb_true_iff. destruct H as [H | H].
  - left. apply label_in_In. assumption.
  - right. apply negb_true_iff. apply label_in_not_In. assumption.
Qed.

(** Without stray suffix the recorded differences are those of the columns
    found in both tables, and nothing else. *)
Lemma row_differences_iff (A B : DataFrame) (K : list Label) (i j : nat)
      (c : Label) (x y : PyVal) :
  inputs_ok A B K -> no_stray_suffix A B K -> in_range A B (Some i, Some j) ->
  (In (c, x, y) (row_differences rf A B K (Some i, Some j)) <->
   In c (columns A) /\ In c (columns B) /\ ~ In c K /\
   x = Some (cell (columns A) (left_row rf A B K i) c) /\
   y = Some (cell (columns B) (right_row rf A B K j) c) /\
   isna (cell (columns A) (left_row rf A B K i) c)
   && isna (cell (columns B) (right_row rf A B K j) c) = false /\
   py_eq (cell (columns A) (left_row rf A B K i) c)
         (cell (columns B) (right_row rf A B K j) c) = false).
Proof.
  intros Hok Hstray Hr. split.
  - intros Hin.
    pose proof (proj1 (differences_In _ _ _ _ _ _
                         (row_differences_Ok A B K _ Hok Hr)) Hin)
      as [col [d [Hcol [Hd He]]]].
    pose proof (compare_column_entry _ _ _ _ _ _ _ _ Hd He). subst col.
    destruct (in_dec Label_eq_dec c K) as [HK | HK].
    { rewrite compare_column_skipped in Hd by auto.
      injection Hd as <-. contradiction. }
    destruct (in_dec Label_eq_dec c (columns B)) as [HB | HB].
    2:{ rewrite compare_column_skipped in Hd by (right; apply Hstray; assumption).
        injection Hd as <-. contradiction. }
    split; [assumption|]. split; [assumption|]. split; [assumption|].
    apply (row_differences_common A B K i j c x y Hok Hr Hcol HB HK).
    assumption.
  - intros [HA [HB [HK H]]].
    apply (row_differences_common A B K i j c x y Hok Hr HA HB HK).
    assumption.
Qed.

Lemma no_stray_suffix_normalized (A B : DataFrame) (K : list Label) :
  no_stray_suffix A B K ->
  no_stray_suffix (normalized rf A K) (normalized rf B K) K.
Proof.
  unfold no_stray_suffix.
  rewrite (merged_columns_ext A (normalized rf A K) B (normalized rf B K) K
             (normalized_columns K A) (normalized_columns K B)).
  rewrite !normalized_columns. auto.
Qed.

Lemma join_of_swap (A B : DataFrame) (K : list Label)
      (p : option nat * option nat) :
  In p (join_of rf A B K) <-> In (swap_pair p) (join_of rf B A K).
Proof.
  unfold join_of, swap_pair. destruct p as [[i|] [j|]]; cbn [fst snd].
  - rewrite !join_both. split; intros [g [H1 H2]]; eauto.
  - rewrite join_left, join_right. reflexivity.
  - rewrite join_left, join_right. reflexivity.
  - split; intros H; apply join_none in H; contradiction.
Qed.

(** The promotions of the two sides are exchanged with the tables. *)
Lemma gets_nan_swap (A B : DataFrame) (K : list Label) :
  left_gets_nan rf B A K = right_gets_nan rf A B K.
Proof.
  apply eq_iff_eq_true.
  rewrite left_gets_nan_iff, right_gets_nan_iff.
  split; intros [i Hi]; exists i.
  - apply (proj2 (join_of_swap A B K (Some i, None))). exact Hi.
  - apply (proj1 (join_of_swap A B K (Some i, None))). exact Hi.
Qed.

Lemma left_row_swap (A B : DataFrame) (K : list Label) (j : nat) :
  left_row rf B A K j = right_row rf A B K j.
Proof. unfold left_row, right_row. rewrite gets_nan_swap. reflexivity. Qed.

Lemma right_row_swap (A B : DataFrame) (K : list Label) (i : nat) :
  right_row rf B A K i = left_row rf A B K i.
Proof.
  unfold left_row, right_row. rewrite (gets_nan_swap B A K). reflexivity.
Qed.

Lemma row_differences_swap (A B : DataFrame) (K : list Label) (i j : nat)
      (c : Label) (x y : PyVal) :
  inputs_ok A B K -> inputs_ok B A K ->
  no_stray_suffix A B K -> no_stray_suffix B A K ->
  in_range A B (Some i, Some j) ->
  (In (c, x, y) (row_differences rf A B K (Some i, Some j)) <->
   In (c, y, x) (row_differences rf B A K (Some j, Some i))).
Proof.
  intros HAB HBA SAB SBA Hr.
  assert (Hr' : in_range B A (Some j, Some i))
    by (destruct Hr; split; assumption).
  rewrite (row_differences_iff A B K i j c x y HAB SAB Hr).
  rewrite (row_differences_iff B A K j i c y x HBA SBA Hr').
  rewrite (left_row_swap A B K j), (right_row_swap A B K i).
  rewrite (py_eq_sym (cell (columns B) (right_row rf A B K j) c)).
  rewrite (andb_comm (isna (cell (columns B) (right_row rf A B K j) c))).
  tauto.
Qed.

Lemma swap_pair_involutive (p : option nat * option nat) :
  swap_pair (swap_pair p) = p.
Proof. destruct p. reflexivity. Qed.

Lemma one_sided_swap (A B : DataFrame) (K : list Label) :
  Permutation (map (render_key rf A B K) (left_only_pairs rf A B K))
              (map (render_key rf B A K) (right_only_pairs rf B A K)).
Proof.
  assert (Hperm : Permutation (map swap_pair (left_only_pairs rf A B K))
                              (right_only_pairs rf B A K)).
  { apply NoDup_Permutation.
    - apply NoDup_map_NoDup_ForallPairs.
      + intros p q _ _ E.
        rewrite <- (swap_pair_involutive p), <- (swap_pair_involutive q).
        congruence.
      + apply NoDup_filter. apply join_NoDup.
    - apply NoDup_filter. apply join_NoDup.
    - intros q. unfold left_only_pairs, right_only_pairs.
      rewrite in_map_iff, filter_In. split.
      + intros [p [<- Hp]]. apply filter_In in Hp as [Hp Hl].
        split; [apply (proj1 (join_of_swap A B K p)); assumption|].
        destruct p as [[i|] [j|]]; try discriminate. reflexivity.
      + intros [Hq Hrt]. exists (swap_pair q).
        split; [apply swap_pair_involutive|]. apply filter_In. split.
        * apply (proj1 (join_of_swap B A K q)). assumption.
        * destruct q as [[i|] [j|]]; try discriminate. reflexivity. }
  apply (Permutation_map (render_key rf B A K)) in Hperm.
  rewrite map_map in Hperm.
  erewrite map_ext_in; [exact Hperm|].
  intros p Hp. unfold left_only_pairs in Hp. apply filter_In in Hp as [_ Hl].
  destruct p as [[i|] [j|]]; try discriminate. reflexivity.
Qed.

(** Exchanging the tables exchanges LeftOnly and RightOnly, keeps the
    matched pairs that are reported in Changed, and exchanges the two values
    of every recorded difference, as long as no column that only one table
    has is taken for a shared one by the loop's suffix test. *)
Theorem swap_symmetry_without_stray_suffix (A B : DataFrame) (K : list Label) :
  well_formed A B K = true -> well_formed B A K = true ->
  no_stray_suffix A B K -> no_stray_suffix B A K ->
  let A' := normalized rf A K in
  let B' := normalized rf B K in
  reconcile rf A B K = Ok (report_of rf A' B' K) /\
  reconcile rf B A K = Ok (report_of rf B' A' K) /\
  Permutation (only_in_base (report_of rf A' B' K))
              (only_in_compare (report_of rf B' A' K)) /\
  Permutation (only_in_base (report_of rf B' A' K))
              (only_in_compare (report_of rf A' B' K)) /\
  (forall i j c x y,
      In (Some i, Some j) (join_of rf A' B' K) ->
      (In (c, x, y) (row_differences rf A' B' K (Some i, Some j)) <->
       In (c, y, x) (row_differences rf B' A' K (Some j, Some i)))) /\
  (forall i j,
      In (Some i, Some j) (changed_pairs rf A' B' K) <->
      In (Some j, Some i) (changed_pairs rf B' A' K)) /\
  (forall i j,
      In (Some i, Some j) (join_of rf A' B' K) ->
      render_key rf A' B' K (Some i, Some j)
      = render_key rf B' A' K (Some j, Some i)).
Proof.
  intros HwAB HwBA SAB SBA A' B'.
  pose proof (inputs_ok_normalized A B K (well_formed_inputs_ok A B K HwAB))
    as HAB.
  pose proof (inputs_ok_normalized B A K (well_formed_inputs_ok B A K HwBA))
    as HBA.
  apply no_stray_suffix_normalized in SAB, SBA.
  fold A' B' in HAB, HBA, SAB, SBA.
  assert (Hentries : forall i j c x y,
             In (Some i, Some j) (join_of rf A' B' K) ->
             (In (c, x, y) (row_differences rf A' B' K (Some i, Some j)) <->
              In (c, y, x) (row_differences rf B' A' K (Some j, Some i)))).
  { intros i j c x y Hin. apply row_differences_swap; try assumption.
    apply (join_of_in_range A' B' K _ Hin). }
  split; [apply reconcile_report; assumption|].
  split; [apply reconcile_report; assumption|].
  split; [apply one_sided_swap|].
  split; [apply one_sided_swap|].
  split; [exact Hentries|]. split.
  - intros i j. rewrite !changed_pairs_iff.
    rewrite (join_of_swap A' B' K (Some i, Some j)). cbn [swap_pair fst snd is_both].
    split; intros [Hin [_ Hne]]; (split; [assumption|]; split; [reflexivity|]).
    + apply (join_of_swap A' B' K (Some i, Some j)) in Hin.
      destruct (row_differences rf A' B' K (Some i, Some j)) as [|[[c x] y] ds] eqn:E;
        [congruence|].
      intros Hnil.
      assert (Hc : In (c, y, x) (row_differences rf B' A' K (Some j, Some i))).
      { apply Hentries; [assumption|]. rewrite E. left. reflexivity. }
      rewrite Hnil in Hc. contradiction.
    + apply (join_of_swap A' B' K (Some i, Some j)) in Hin.
      destruct (row_differences rf B' A' K (Some j, Some i)) as [|[[c x] y] ds] eqn:E;
        [congruence|].
      intros Hnil.
      assert (Hc : In (c, y, x) (row_differences rf A' B' K (Some i, Some j))).
      { apply Hentries; [assumption|]. rewrite E. left. reflexivity. }
      rewrite Hnil in Hc. contradiction.
  - intros i j Hin. unfold render_key. f_equal. cbn [pair_key].
    unfold join_of in Hin. apply join_both in Hin as [g [Hi Hj]].
    apply nth_error_keys_of in Hi as [_ Hi], Hj as [_ Hj]. congruence.
Qed.

(** ** More on the header locator *)

Lemma detect_from_first (rows : list (list Value)) (s m h : nat) :
  detect_from rows s m = Some h <->
  s <= h /\
  (exists row, nth_error rows (h - s) = Some row /\ m <= text_count row) /\
  (forall i row, i < h - s -> nth_error rows i = Some row ->
                 text_count row < m).
Proof.
  revert s. induction rows as [|r rows IH]; intros s; simpl.
  - split; [discriminate|]. intros [_ [[row [H _]] _]].
    destruct (h - s); discriminate.
  - destruct (m <=? text_count r) eqn:E.
    + apply Nat.leb_le in E. split.
      * intros H. injection H as <-. rewrite Nat.sub_diag.
        split; [lia|]. split; [exists r; auto | intros i row Hi; lia].
      * intros [Hle [[row [Hrow Hm]] Hbefore]].
        destruct (h - s) as [|k] eqn:Ek; [f_equal; lia|].
        specialize (Hbefore 0 r (Nat.lt_0_succ k) eq_refl). lia.
    + apply Nat.leb_gt in E. rewrite IH. split.
      * intros [Hle [[row [Hrow Hm]] Hbefore]].
        split; [lia|]. replace (h - s) with (S (h - S s)) by lia.
        split; [exists row; auto|].
        intros [|i] row' Hi Hrow'; simpl in Hrow'.
        -- injection Hrow' as <-. assumption.
        -- apply (Hbefore i); [lia | assumption].
      * intros [Hle [[row [Hrow Hm]] Hbefore]].
        destruct (h - s) as [|k] eqn:Ek.
        { simpl in Hrow. injection Hrow as <-. lia. }
        simpl in Hrow. replace (h - S s) with k by lia.
        split; [lia|]. split; [exists row; auto|].
        intros i row' Hi Hrow'. apply (Hbefore (S i)); [lia | assumption].
Qed.

(** The header locator returns the first row that has at least [min_named]
    non-empty text cells: the row it names qualifies and no row above it
    does; it reports not-found exactly when no row qualifies. *)
Theorem detect_header_row_first (df : DataFrame) (min_named : nat) :
  (forall h,
      detect_header_row df min_named = Some h <->
      (exists row, nth_error (data df) h = Some row /\
                   min_named <= text_count row) /\
      (forall i row, i < h -> nth_error (data df) i = Some row ->
                     text_count row < min_named)) /\
  (detect_header_row df min_named = None <->
   forall row, In row (data df) -> text_count row < min_named).
Proof.
  unfold detect_header_row. split.
  - intros h. rewrite detect_from_first, Nat.sub_0_r. split.
    + intros [_ H]. exact H.
    + intros H. split; [lia | exact H].
  - split.
    + intros Hnone row Hin. apply In_nth_error in Hin as [i Hi].
      destruct (Nat.lt_ge_cases (text_count row) min_named) as [|Hge];
        [assumption|]. exfalso.
      assert (Hex : exists h, h <= i /\ exists r,
                       nth_error (data df) h = Some r /\
                       min_named <= text_count r /\
                       forall k r', k < h -> nth_error (data df) k = Some r' ->
                                    text_count r' < min_named).
      { clear Hnone. revert row Hi Hge.
        induction i as [i IHi] using lt_wf_ind. intros row Hi Hge.
        destruct (existsb (fun k => match nth_error (data df) k with
                                    | Some r' => min_named <=? text_count r'
                                    | None => false
                                    end) (seq 0 i)) eqn:Ex.
        - apply existsb_exists in Ex as [k [Hk Hq]]. apply in_seq in Hk.
          destruct (nth_error (data df) k) as [r'|] eqn:Er; [|discriminate].
          apply Nat.leb_le in Hq.
          destruct (IHi k ltac:(lia) r' Er Hq) as [h [Hh Hrest]].
          exists h. split; [lia | exact Hrest].
        - exists i. split; [lia|]. exists row. repeat split; try assumption.
          intros k r' Hk Hr'.
          destruct (Nat.lt_ge_cases (text_count r') min_named) as [|Hge'];
            [assumption|]. exfalso.
          assert (Hf : existsb (fun k => match nth_error (data df) k with
                                         | Some r' => min_named <=? text_count r'
                                         | None => false
                                         end) (seq 0 i) = true).
          { apply existsb_exists. exists k. split; [apply in_seq; lia|].
            rewrite Hr'. apply Nat.leb_le. assumption. }
          congruence. }
      destruct Hex as [h [_ [r [Hr [Hq Hbefore]]]]].
      assert (Hsome : detect_from (data df) 0 min_named = Some h).
      { apply detect_from_first. rewrite Nat.sub_0_r.
        split; [lia|]. split; [exists r; auto | exact Hbefore]. }
      congruence.
    + apply detect_from_None.
Qed.

(** ** More on the column normaliser *)

Lemma rstrip_cons_nonspace (c : ascii) (t : string) :
  PyStr.isspace c = false ->
  PyStr.rstrip (String c t) = String c (PyStr.rstrip t).
Proof.
  intros Hc. simpl. destruct (PyStr.rstrip t); [rewrite Hc|]; reflexivity.
Qed.

Lemma lower_char_isspace (c : ascii) :
  PyStr.isspace (PyStr.lower_char c) = PyStr.isspace c.
Proof.
  unfold PyStr.lower_char.
  destruct ((65 <=? nat_of_ascii c) && (nat_of_ascii c <=? 90)) eqn:E;
    [|reflexivity].
  apply andb_true_iff in E as [E1 E2].
  apply Nat.leb_le in E1, E2.
  unfold PyStr.isspace.
  rewrite nat_ascii_embedding by lia.
  repeat match goal with
         | |- context [?a <=? ?b] =>
             let H := fresh in
             destruct (a <=? b) eqn:H;
             [apply Nat.leb_le in H | apply Nat.leb_gt in H]
         end; simpl; try reflexivity; lia.
Qed.

(** A prefix without blanks is seen the same before and after [rstrip]. *)
Lemma prefix_lower_rstrip (p u : string) :
  (forall c, In c (list_ascii_of_string p) -> PyStr.isspace c = false) ->
  String.prefix p (PyStr.lower (PyStr.rstrip u))
  = String.prefix p (PyStr.lower u).
Proof.
  revert u. induction p as [|a p IH]; intros u Hp.
  - destruct (PyStr.lower (PyStr.rstrip u)), (PyStr.lower u); reflexivity.
  - destruct u as [|c t]; [reflexivity|].
    assert (Ha : PyStr.isspace a = false) by (apply Hp; left; reflexivity).
    assert (IH' := fun v => IH v (fun x Hx => Hp x (or_intror Hx))).
    destruct (PyStr.isspace c) eqn:Hc.
    + assert (Hne : a <> PyStr.lower_char c).
      { intros ->. rewrite lower_char_isspace in Ha. congruence. }
      assert (Hr : String.prefix (String a p) (PyStr.lower (String c t)) = false).
      { simpl. destruct (ascii_dec a (PyStr.lower_char c)); [contradiction|].
        reflexivity. }
      rewrite Hr. simpl PyStr.rstrip.
      destruct (PyStr.rstrip t) as [|c' t'].
      * rewrite Hc. reflexivity.
      * simpl. destruct (ascii_dec a (PyStr.lower_char c)); [contradiction|].
        reflexivity.
    + rewrite rstrip_cons_nonspace by assumption. simpl.
      destruct (ascii_dec a (PyStr.lower_char c)); [apply IH'|reflexivity].
Qed.

Lemma lower_append (s t : string) :
  PyStr.lower (s ++ t) = (PyStr.lower s ++ PyStr.lower t)%string.
Proof. induction s as [|c s IH]; simpl; [reflexivity | rewrite IH; reflexivity]. Qed.

(** What follows a blank cannot complete a prefix that has no blank. *)
Lemma prefix_append_blank (p v w : string) (b : ascii) :
  (forall c, In c (list_ascii_of_string p) -> PyStr.isspace c = false) ->
  PyStr.isspace b = true ->
  String.prefix p (v ++ String b w) = true -> String.prefix p v = true.
Proof.
  revert p. induction v as [|c v IH]; intros [|a p] Hp Hb H; try reflexivity.
  - simpl in H. destruct (ascii_dec a b) as [->|]; [|discriminate].
    rewrite (Hp b (or_introl eq_refl)) in Hb. discriminate.
  - simpl in H |- *. destruct (ascii_dec a c); [|discriminate].
    apply IH; [intros x Hx; apply Hp; right; assumption | assumption | assumption].
Qed.

Lemma lstrip_append (s t : string) :
  PyStr.lstrip s <> EmptyString ->
  PyStr.lstrip (s ++ t) = (PyStr.lstrip s ++ t)%string.
Proof.
  induction s as [|c s IH]; simpl; intros H; [congruence|].
  destruct (PyStr.isspace c); [apply IH; assumption | reflexivity].
Qed.

Lemma lstrip_append_blank (s t : string) :
  PyStr.lstrip s = EmptyString ->
  PyStr.lstrip (s ++ t) = PyStr.lstrip t.
Proof.
  induction s as [|c s IH]; simpl; intros H; [reflexivity|].
  destruct (PyStr.isspace c); [apply IH; assumption | discriminate].
Qed.

Lemma unnamed_prefix_ok (c : ascii) :
  In c (list_ascii_of_string "unnamed:") -> PyStr.isspace c = false.
Proof.
  intros H. simpl in H.
  repeat (destruct H as [<- | H]; [reflexivity|]). contradiction.
Qed.

(** The placeholder test looks at the text with its leading blanks removed. *)
Lemma is_placeholder_lstrip (s : string) :
  is_placeholder (LStr s)
  = String.prefix "unnamed:" (PyStr.lower (PyStr.lstrip s)).
Proof.
  unfold is_placeholder, PyStr.startswith, PyStr.strip.
  apply prefix_lower_rstrip. apply unnamed_prefix_ok.
Qed.

Lemma text_suffix_not_placeholder (s : string) :
  is_placeholder (LStr s) = false ->
  is_placeholder (LStr (s ++ " (Text)")) = false.
Proof.
  rewrite !is_placeholder_lstrip. intros H.
  destruct (PyStr.lstrip s) as [|c u] eqn:E.
  - rewrite lstrip_append_blank by assumption. reflexivity.
  - rewrite lstrip_append by congruence. rewrite E, lower_append.
    destruct (String.prefix "unnamed:" (PyStr.lower (String c u) ++ PyStr.lower " (Text)"))
      eqn:P; [|reflexivity].
    change (PyStr.lower " (Text)") with (String " "%char "(text)") in P.
    apply prefix_append_blank in P;
      [congruence | apply unnamed_prefix_ok | reflexivity].
Qed.

Lemma str_of_int_not_placeholder (z : Z) :
  is_placeholder (LStr (PyStr.str_of_int z)) = false.
Proof.
  rewrite is_placeholder_lstrip.
  unfold PyStr.str_of_int, NilZero.string_of_int.
  destruct (Z.to_int z) as [d|d]; unfold NilZero.string_of_uint.
  - destruct d; reflexivity.
  - destruct d; reflexivity.
Qed.

(** The name given to a placeholder is never itself a placeholder. *)
Lemma generated_not_placeholder (prev : Label) :
  is_placeholder prev = false -> is_placeholder (generated prev) = false.
Proof.
  unfold generated. destruct prev as [s|z]; intros H; cbn [label_str].
  - apply text_suffix_not_placeholder. assumption.
  - apply text_suffix_not_placeholder. apply str_of_int_not_placeholder.
Qed.

Lemma rename_from_real (cols : list Label) (prev : Label) :
  is_placeholder prev = false ->
  forall c, In c (rename_from prev cols) -> is_placeholder c = false.
Proof.
  revert prev. induction cols as [|col cols IH]; intros prev Hprev c Hc;
    simpl in Hc; [contradiction|].
  destruct (is_placeholder col) eqn:E; destruct Hc as [<- | Hc].
  - apply generated_not_placeholder. assumption.
  - apply (IH prev); assumption.
  - assumption.
  - apply (IH col); assumption.
Qed.

Lemma rename_from_no_placeholder (cols : list Label) (prev : Label) :
  (forall c, In c cols -> is_placeholder c = false) ->
  rename_from prev cols = cols.
Proof.
  revert prev. induction cols as [|col cols IH]; intros prev H; simpl;
    [reflexivity|].
  rewrite (H col (or_introl eq_refl)). f_equal.
  apply IH. intros c Hc. apply H. right. assumption.
Qed.

(** No placeholder is left after [rename_unnamed_columns], and applying it
    again changes nothing. *)
Theorem rename_unnamed_columns_idempotent (cols : list Label) :
  (forall c, In c (rename_unnamed_columns cols) -> is_placeholder c = false) /\
  rename_unnamed_columns (rename_unnamed_columns cols)
  = rename_unnamed_columns cols.
Proof.
  assert (H : forall c, In c (rename_unnamed_columns cols) ->
                        is_placeholder c = false).
  { apply rename_from_real. reflexivity. }
  split; [exact H|].
  unfold rename_unnamed_columns at 1. apply rename_from_no_placeholder. exact H.
Qed.

(** ** More on the loader *)

Lemma parse_row_text_kept (numeric : list bool) (row : list Value) :
  (forall s, In (VStr s) row -> pt s = PText) ->
  parse_row pt numeric row = row.
Proof.
  revert row. induction numeric as [|b numeric IH]; intros [|v row] H;
    try reflexivity.
  cbn [parse_row]. rewrite IH by (intros s Hs; apply H; right; exact Hs).
  f_equal. destruct v as [s| | |]; try (destruct b; reflexivity).
  specialize (H s (or_introl eq_refl)).
  destruct b; simpl; rewrite H; reflexivity.
Qed.

Lemma In_pad_row (w : nat) (row : list Value) (s : string) :
  In (VStr s) (pad_row w row) -> In (VStr s) row.
Proof.
  unfold pad_row. intros H. apply in_app_or in H as [H | H]; [exact H|].
  apply repeat_spec in H. discriminate.
Qed.

Lemma text_count_nth_pad (w : nat) (l : list (list Value)) (i : nat) :
  text_count (nth i (map (pad_row w) l) []) = text_count (nth i l []).
Proof.
  destruct (Nat.lt_ge_cases i (List.length l)) as [Hi | Hi].
  - rewrite (nth_indep _ [] (pad_row w [])) by (rewrite length_map; exact Hi).
    rewrite map_nth. apply text_count_pad_row.
  - rewrite !nth_overflow by (rewrite ?length_map; exact Hi). reflexivity.
Qed.

(** When row [h] is the first of the first 20 rows of the selected sheet
    that has, once parsed, at least [min_named_cols] non-empty text cells,
    [load_excel_clean] reads the sheet with that row as header: the rows
    above it are left out, the labels are the normalised names of that
    row, none of them a placeholder, and the data are the rows below it,
    up to the row cap.  The text cells are counted after parsing, which
    can turn a text cell into NaN or into a number and never makes one;
    when the parser takes every text cell of the first 20 rows for text,
    the counts are those of the sheet's own rows. *)
Theorem load_with_header (max_lines : option Z) (wb : Workbook)
        (sheet : Sheet) (h : nat) :
  select_sheet wb = Some sheet ->
  h < List.length (preview_rows pt sheet) ->
  min_named_cols <= text_count (nth h (preview_rows pt sheet) []) ->
  (forall i, i < h ->
             text_count (nth i (preview_rows pt sheet) []) < min_named_cols) ->
  load_excel_clean hl pt max_lines wb
  = (df <- read_excel hl pt sheet (Some h) max_lines ;;
     Ok (mkFrame (rename_unnamed_columns (columns df)) (dtypes df) (data df))) /\
  (match max_lines with Some n => (0 <= n)%Z | None => True end ->
   exists df,
     load_excel_clean hl pt max_lines wb = Ok df /\
     columns df
     = rename_unnamed_columns
         (hl (pad_row (sheet_width sheet) (nth h sheet []))) /\
     (forall c, In c (columns df) -> is_placeholder c = false) /\
     List.length (data df) = kept_rows max_lines (skipn (S h) sheet)) /\
  (forall i, text_count (nth i (preview_rows pt sheet) [])
             <= text_count (nth i (firstn 20 sheet) [])) /\
  ((forall row s, In row (firstn 20 sheet) -> In (VStr s) row ->
                  pt s = PText) ->
   forall i, text_count (nth i (preview_rows pt sheet) [])
             = text_count (nth i (firstn 20 sheet) [])).
Proof.
  intros Hsel Hh Hq Hbefore.
  set (w := sheet_width sheet).
  set (body := preview_rows pt sheet) in *.
  assert (Hbl : List.length body = Nat.min 20 (List.length sheet)).
  { unfold body, preview_rows. rewrite parse_cells_length, length_firstn,
      length_map. reflexivity. }
  assert (H20 : h < 20) by lia.
  assert (Hlen : h < List.length sheet) by lia.
  assert (Hprev : read_excel hl pt sheet None (Some 20%Z)
                  = Ok (build_frame w (positional_labels w) body))
    by reflexivity.
  assert (Hrow : forall i, i < List.length body ->
            exists r, nth_error (data (build_frame w (positional_labels w) body)) i
                      = Some r /\ text_count r = text_count (nth i body [])).
  { intros i Hi. unfold build_frame. cbn [data].
    rewrite nth_error_map, (nth_error_nth' body [] Hi). cbn [option_map].
    eexists. split; [reflexivity|]. apply text_count_coerce_row. }
  assert (Hdet : detect_header_row (build_frame w (positional_labels w) body)
                                   min_named_cols = Some h).
  { unfold detect_header_row. apply detect_from_first. rewrite Nat.sub_0_r.
    split; [lia|]. split.
    - destruct (Hrow h Hh) as [r [Hr Ht]]. exists r.
      split; [assumption | lia].
    - intros i r Hi Hr.
      destruct (Hrow i ltac:(lia)) as [r' [Hr' Ht]].
      assert (r = r') by congruence. subst r'.
      rewrite Ht. apply Hbefore. assumption. }
  assert (Hload : load_excel_clean hl pt max_lines wb
                  = (df <- read_excel hl pt sheet (Some h) max_lines ;;
                     Ok (mkFrame (rename_unnamed_columns (columns df))
                                 (dtypes df) (data df)))).
  { unfold load_excel_clean. rewrite Hsel, Hprev. cbn [bind]. rewrite Hdet.
    reflexivity. }
  split; [exact Hload|].
  assert (Hpad : forall i,
             text_count (nth i (map (pad_row w) (firstn 20 sheet)) [])
             = text_count (nth i (firstn 20 sheet) []))
    by (intros i; apply text_count_nth_pad).
  split; [|split].
  - intros Hcap. rewrite Hload. unfold read_excel. fold w.
    rewrite length_map.
    destruct (Nat.leb_spec (List.length sheet) h) as [|_]; [lia|].
    assert (Hhead : nth h (map (pad_row w) sheet) [] = pad_row w (nth h sheet [])).
    { rewrite (nth_indep _ [] (pad_row w []))
        by (rewrite length_map; assumption).
      apply map_nth. }
    rewrite Hhead.
    assert (Hreal : forall c,
               In c (rename_unnamed_columns (hl (pad_row w (nth h sheet [])))) ->
               is_placeholder c = false).
    { apply rename_from_real. reflexivity. }
    destruct max_lines as [n|]; cbn [cut_rows].
    + destruct (n <? 0)%Z eqn:E; [apply Z.ltb_lt in E; lia|]. cbn [bind].
      eexists. split; [reflexivity|]. unfold build_frame. cbn [columns data].
      split; [reflexivity|]. split; [exact Hreal|].
      cbn [kept_rows].
      rewrite length_map, parse_cells_length, length_firstn, !length_skipn,
        length_map. reflexivity.
    + cbn [bind]. eexists. split; [reflexivity|].
      unfold build_frame. cbn [columns data].
      split; [reflexivity|]. split; [exact Hreal|].
      cbn [kept_rows].
      rewrite length_map, parse_cells_length, !length_skipn, length_map.
      reflexivity.
  - intros i. rewrite <- Hpad. unfold body, preview_rows, parse_cells.
    fold w. rewrite !firstn_map.
    set (l := map (pad_row w) (firstn 20 sheet)).
    set (numeric := map _ (seq 0 w)).
    destruct (Nat.lt_ge_cases i (List.length l)) as [Hi | Hi].
    + rewrite (nth_indep _ [] (parse_row pt numeric []))
        by (rewrite length_map; exact Hi).
      rewrite map_nth. apply text_count_parse_row.
    + rewrite !nth_overflow by (rewrite ?length_map; exact Hi). lia.
  - intros Htext i. rewrite <- Hpad. unfold body, preview_rows, parse_cells.
    fold w. rewrite !firstn_map. f_equal. f_equal.
    rewrite <- (map_id (map (pad_row w) (firstn 20 sheet))) at 2.
    apply map_ext_in. intros row Hrow'.
    apply parse_row_text_kept. intros s Hs.
    apply in_map_iff in Hrow' as [r0 [<- Hr0]].
    apply (Htext r0 s Hr0). apply (In_pad_row w). exact Hs.
Qed.

(** ** More on the key discoverer *)

Lemma find_first (A : Type) (f : A -> bool) (l : list A) (x : A) :
  find f l = Some x ->
  exists before after,
    l = before ++ x :: after /\ f x = true /\
    forall y, In y before -> f y = false.
Proof.
  induction l as [|a l IH]; simpl; [discriminate|].
  destruct (f a) eqn:E.
  - intros H. injection H as <-. exists [], l. repeat split; auto.
    intros y [].
  - intros H. destruct (IH H) as [before [after [-> [Hx Hb]]]].
    exists (a :: before), after. repeat split; auto.
    intros y [<- | Hy]; auto.
Qed.

Lemma find_flat_map (A B : Type) (f : B -> bool) (g : A -> list B)
      (l : list A) (x : B) :
  find f (flat_map g l) = Some x ->
  exists before a after,
    l = before ++ a :: after /\ find f (g a) = Some x /\
    forall b y, In b before -> In y (g b) -> f y = false.
Proof.
  induction l as [|a l IH]; simpl; [discriminate|].
  intros H. destruct (find f (g a)) as [y|] eqn:E.
  - assert (Hy : find f (g a ++ flat_map g l) = Some y).
    { clear H. induction (g a) as [|b gl IHg]; simpl in *; [discriminate|].
      destruct (f b); [assumption | apply IHg; assumption]. }
    rewrite Hy in H. injection H as <-.
    exists [], a, l. repeat split; auto. intros b y' [].
  - assert (Hn : find f (g a ++ flat_map g l) = find f (flat_map g l)).
    { clear H. induction (g a) as [|b gl IHg]; simpl in *; [reflexivity|].
      destruct (f b); [discriminate | apply IHg; assumption]. }
    rewrite Hn in H. destruct (IH H) as [before [a' [after [-> [Hf Hb]]]]].
    exists (a :: before), a', after. repeat split; auto.
    intros b y [Heq | Hb'] Hy; [|eapply Hb; eassumption].
    subst b. exact (List.find_none f (g a) E y Hy).
Qed.

Lemma seq_split (s n : nat) (before after : list nat) (a : nat) :
  seq s n = before ++ a :: after ->
  forall x, s <= x < a -> In x before.
Proof.
  revert s n. induction before as [|b before IH]; intros s n H x Hx.
  - destruct n; simpl in H; [discriminate|]. injection H as <- _. lia.
  - destruct n; simpl in H; [discriminate|]. injection H as <- H.
    destruct (Nat.eq_dec x s) as [->|Hne]; [left; reflexivity|].
    right. apply (IH (S s) n H). lia.
Qed.

Lemma find_unique_key_cases (df : DataFrame) (max_columns : nat)
      (key : list Label) :
  find_unique_key rf df max_columns = Ok (Some key) ->
  (exists col, key = [col] /\
               find (is_unique df) (candidates df) = Some col) \/
  (find (is_unique df) (candidates df) = None /\
   find (combo_is_key rf df)
        (flat_map (combinations (candidates df)) (seq 2 (max_columns - 1)))
   = Some key).
Proof.
  unfold find_unique_key.
  destruct (negb (all_distinct Label_eqb (columns df))); [discriminate|].
  destruct (find (is_unique df) (candidates df)) as [col|].
  - intros H. injection H as <-. left. exists col. auto.
  - intros H. injection H as H. right. auto.
Qed.

(** The key discoverer searches by ascending size and, for single columns,
    in table order: a returned column is the first candidate with distinct
    values, and a returned combination means that no candidate column is
    unique alone and that no combination of fewer columns is a key. *)
Theorem find_unique_key_search_order (df : DataFrame) (max_columns : nat)
        (key : list Label) :
  find_unique_key rf df max_columns = Ok (Some key) ->
  (forall col, key = [col] ->
     exists before after,
       candidates df = before ++ col :: after /\
       forall c, In c before -> is_unique df c = false) /\
  (2 <= List.length key ->
   (forall c, In c (candidates df) -> is_unique df c = false) /\
   (forall r combo, 2 <= r < List.length key ->
                    In combo (combinations (candidates df) r) ->
                    combo_is_key rf df combo = false)).
Proof.
  intros H. apply find_unique_key_cases in H as [[col [-> F]] | [F C]].
  - split.
    + intros c E. injection E as <-.
      apply find_first in F as [before [after [Hc [_ Hb]]]]. eauto.
    + simpl. lia.
  - apply find_flat_map in C as [before [r [after [Hseq [Hr Hb]]]]].
    apply find_some in Hr as [Hin _].
    apply combinations_In in Hin as [Hlen _].
    split.
    + intros col ->. exfalso.
      assert (In r (seq 2 (max_columns - 1)))
        by (rewrite Hseq; apply in_or_app; right; left; reflexivity).
      apply in_seq in H. simpl in Hlen. lia.
    + intros _. split; [apply (List.find_none _ _ F)|].
      intros r' combo Hr' Hcombo. apply (Hb r'); [|assumption].
      apply (seq_split _ _ _ _ _ Hseq). lia.
Qed.

Lemma find_unique_key_candidates (df : DataFrame) (max_columns : nat)
      (key : list Label) :
  find_unique_key rf df max_columns = Ok (Some key) ->
  incl key (candidates df).
Proof.
  intros H. apply find_unique_key_cases in H as [[col [-> F]] | [_ C]].
  - apply find_some in F as [Hin _]. intros c [<- | []]. assumption.
  - apply find_some in C as [Hin _].
    apply in_flat_map in Hin as [r [_ Hc]].
    apply combinations_In in Hc. tauto.
Qed.

(** A float-typed column or a column without any value never takes part
    in a discovered key. *)
Theorem find_unique_key_excludes (df : DataFrame) (max_columns : nat)
        (key : list Label) (c : Label) :
  find_unique_key rf df max_columns = Ok (Some key) -> In c key ->
  In c (columns df) /\ dtype_of df c <> DFloat /\
  exists v, In v (column_values df c) /\ isna v = false.
Proof.
  intros H Hc. apply find_unique_key_candidates in H.
  specialize (H c Hc). unfold candidates in H.
  apply filter_In in H as [Hin Hf]. apply andb_true_iff in Hf as [Hn Hd].
  split; [assumption|]. split.
  - unfold is_float_dtype in Hd. intros E. rewrite E in Hd. discriminate.
  - unfold all_null in Hn. apply negb_true_iff in Hn.
    destruct (forallb_forall isna (column_values df c)) as [_ Hall].
    destruct (existsb (fun v => negb (isna v)) (column_values df c)) eqn:Ex.
    + apply existsb_exists in Ex as [v [Hv Hna]]. exists v.
      split; [assumption|]. apply negb_true_iff. assumption.
    + exfalso. rewrite Hall in Hn; [discriminate|].
      intros v Hv. destruct (isna v) eqn:E; [reflexivity|].
      assert (existsb (fun v => negb (isna v)) (column_values df c) = true).
      { apply existsb_exists. exists v. rewrite E. auto. }
      congruence.
Qed.


Lemma str_of_int_inj (x y : Z) :
  PyStr.str_of_int x = PyStr.str_of_int y -> x = y.
Proof.
  unfold PyStr.str_of_int. intros H.
  assert (Hnn : forall z, Z.to_int z <> Decimal.Pos Decimal.Nil /\
                          Z.to_int z <> Decimal.Neg Decimal.Nil).
  { intros [|p|p]; simpl; split; try discriminate;
      intros E; injection E as E; apply (DecimalPos.Unsigned.to_uint_nonnil p E). }
  apply DecimalZ.to_int_inj.
  assert (E : NilZero.int_of_string (NilZero.string_of_int (Z.to_int x))
              = NilZero.int_of_string (NilZero.string_of_int (Z.to_int y)))
    by (rewrite H; reflexivity).
  rewrite !NilZero.isi in E by apply Hnn. congruence.
Qed.

Lemma all_distinct_map_NoDup (A B : Type) (same : A -> A -> bool)
      (f : A -> B) (l : list A) :
  (forall x y, In x l -> In y l -> f x = f y -> same x y = true) ->
  all_distinct same l = true -> NoDup (map f l).
Proof.
  induction l as [|a l IH]; simpl; intros Hinj Hd; [constructor|].
  apply andb_true_iff in Hd as [Hhead Htail]. apply negb_true_iff in Hhead.
  constructor.
  - intros Hin. apply in_map_iff in Hin as [y [E Hy]].
    assert (existsb (same a) l = true).
    { apply existsb_exists. exists y. split; [assumption|].
      apply Hinj; auto. }
    congruence.
  - apply IH; [|assumption]. intros x y Hx Hy. apply Hinj; auto.
Qed.

Lemma keys_of_single (df : DataFrame) (col : Label) :
  In col (columns df) ->
  keys_of rf df [col]
  = map (fun v => [py_str rf v]) (column_values df col).
Proof.
  intros Hin. unfold keys_of, key_of, column_values, cell, column_at.
  destruct (index_of col (columns df)) as [j|] eqn:E.
  - rewrite map_map. apply map_ext. intros row. simpl. rewrite E. reflexivity.
  - exfalso. clear -Hin E. induction (columns df) as [|l ls IH];
      [contradiction|]. simpl in E.
    destruct (Label_eqb l col) eqn:El; [discriminate|].
    destruct (index_of col ls); [discriminate|].
    destruct Hin as [-> | Hin]; [|auto].
    rewrite Label_eqb_refl in El. discriminate.
Qed.

(** A discovered key is still a key once its columns are converted to
    text, as the merge needs it: always for a combination of columns, and
    for a single column when its cells are all text or all integers.  (A
    column mixing the number 1 and the text "1" is unique natively and not
    as text.) *)
Theorem discovered_key_survives_normalisation (df : DataFrame)
        (max_columns : nat) (key : list Label) :
  find_unique_key rf df max_columns = Ok (Some key) ->
  wf_frame df = true ->
  (2 <= List.length key \/
   exists col, key = [col] /\
               (forallb is_text (column_values df col) = true \/
                forallb is_int (column_values df col) = true)) ->
  NoDup (keys_of rf (normalized rf df key) key).
Proof.
  intros Hfind Hwf Hshape.
  pose proof (find_unique_key_incl df max_columns key Hfind) as [_ Hincl].
  rewrite (keys_of_normalized df key (wf_frame_rows df Hwf) Hincl).
  apply find_unique_key_cases in Hfind as [[col [-> F]] | [_ C]].
  - destruct Hshape as [Hlen | [col' [E Hhom]]]; [simpl in Hlen; lia|].
    injection E as <-. apply find_some in F as [Hin Hu].
    rewrite keys_of_single by (apply candidates_incl; assumption).
    apply (all_distinct_map_NoDup _ _ same_value); [|exact Hu].
    intros x y Hx Hy E. injection E as E.
    destruct Hhom as [Ht | Hi].
    + rewrite forallb_forall in Ht.
      pose proof (Ht x Hx) as Tx. pose proof (Ht y Hy) as Ty.
      destruct x, y; try discriminate. simpl in E. subst.
      unfold same_value. simpl. rewrite String.eqb_refl. reflexivity.
    + rewrite forallb_forall in Hi.
      pose proof (Hi x Hx) as Tx. pose proof (Hi y Hy) as Ty.
      destruct x, y; try discriminate. simpl in E.
      apply str_of_int_inj in E. subst.
      unfold same_value. simpl. rewrite Z.eqb_refl. reflexivity.
  - apply find_some in C as [_ Hk].
    apply (drop_duplicates_full _ Key_eqb Key_eqb_eq).
    unfold combo_is_key in Hk. apply Nat.eqb_eq in Hk.
    unfold keys_of. rewrite length_map. exact Hk.
Qed.

(** ** More on key normalisation *)

Lemma astype_str_row_comm (labels : list Label) (k k' : Label)
      (row : list Value) :
  astype_str_row rf labels k (astype_str_row rf labels k' row)
  = astype_str_row rf labels k' (astype_str_row rf labels k row).
Proof.
  revert row. induction labels as [|l labels IH]; intros [|v row]; simpl;
    try reflexivity.
  rewrite IH. destruct (Label_eqb l k), (Label_eqb l k'); reflexivity.
Qed.

Lemma astype_str_row_idem (labels : list Label) (k : Label)
      (row : list Value) :
  astype_str_row rf labels k (astype_str_row rf labels k row)
  = astype_str_row rf labels k row.
Proof.
  revert row. induction labels as [|l labels IH]; intros [|v row]; simpl;
    try reflexivity.
  rewrite IH. destruct (Label_eqb l k); reflexivity.
Qed.

Lemma astype_str_dtypes_comm (labels : list Label) (k k' : Label)
      (ds : list Dtype) :
  astype_str_dtypes labels k (astype_str_dtypes labels k' ds)
  = astype_str_dtypes labels k' (astype_str_dtypes labels k ds).
Proof.
  revert ds. induction labels as [|l labels IH]; intros [|d ds]; simpl;
    try reflexivity.
  rewrite IH. destruct (Label_eqb l k), (Label_eqb l k'); reflexivity.
Qed.

Lemma astype_str_dtypes_idem (labels : list Label) (k : Label)
      (ds : list Dtype) :
  astype_str_dtypes labels k (astype_str_dtypes labels k ds)
  = astype_str_dtypes labels k ds.
Proof.
  revert ds. induction labels as [|l labels IH]; intros [|d ds]; simpl;
    try reflexivity.
  rewrite IH. destruct (Label_eqb l k); reflexivity.
Qed.

Lemma astype_str_frame_comm (df : DataFrame) (k k' : Label) :
  astype_str_frame rf (astype_str_frame rf df k') k
  = astype_str_frame rf (astype_str_frame rf df k) k'.
Proof.
  unfold astype_str_frame. cbn [columns dtypes data]. f_equal.
  - apply astype_str_dtypes_comm.
  - rewrite !map_map. apply map_ext. intros row. apply astype_str_row_comm.
Qed.

Lemma astype_str_frame_idem (df : DataFrame) (k : Label) :
  astype_str_frame rf (astype_str_frame rf df k) k = astype_str_frame rf df k.
Proof.
  unfold astype_str_frame. cbn [columns dtypes data]. f_equal.
  - apply astype_str_dtypes_idem.
  - rewrite !map_map. apply map_ext. intros row. apply astype_str_row_idem.
Qed.

Lemma normalized_astype_comm (K : list Label) (df : DataFrame) (k : Label) :
  astype_str_frame rf (normalized rf df K) k
  = normalized rf (astype_str_frame rf df k) K.
Proof.
  unfold normalized. revert df. induction K as [|k0 K IH]; intros df; simpl;
    [reflexivity|].
  rewrite IH, astype_str_frame_comm. reflexivity.
Qed.

Lemma normalized_fixed (K : list Label) (df : DataFrame) (k : Label) :
  In k K -> astype_str_frame rf (normalized rf df K) k = normalized rf df K.
Proof.
  revert df. induction K as [|k0 K IH]; intros df Hin; [contradiction|].
  change (normalized rf df (k0 :: K))
    with (normalized rf (astype_str_frame rf df k0) K).
  destruct Hin as [-> | Hin].
  - rewrite normalized_astype_comm, astype_str_frame_idem. reflexivity.
  - apply IH. assumption.
Qed.

Lemma normalized_idem (K : list Label) (df : DataFrame) :
  normalized rf (normalized rf df K) K = normalized rf df K.
Proof.
  assert (H : forall K', incl K' K ->
                normalized rf (normalized rf df K) K' = normalized rf df K).
  { induction K' as [|k K' IH]; intros Hincl; [reflexivity|].
    change (normalized rf (normalized rf df K) (k :: K'))
      with (normalized rf (astype_str_frame rf (normalized rf df K) k) K').
    rewrite normalized_fixed by (apply Hincl; left; reflexivity).
    apply IH. intros x Hx. apply Hincl. right. assumption. }
  apply H. apply incl_refl.
Qed.

(** Key normalisation succeeds exactly when every key column exists.  It
    then keeps the labels, the number of rows and every cell outside the
    key columns, replaces each key cell by the text of its value, and
    changes nothing when run a second time. *)
Theorem normalize_keys_effect (df : DataFrame) (K : list Label) :
  ((exists df', normalize_keys rf df K = Ok df') <-> incl K (columns df)) /\
  (wf_frame df = true -> incl K (columns df) ->
   exists df',
     normalize_keys rf df K = Ok df' /\
     columns df' = columns df /\
     List.length (data df') = List.length (data df) /\
     wf_frame df' = true /\
     (forall i c, i < List.length (data df) -> In c (columns df) ->
        cell (columns df) (nth i (data df') []) c
        = if label_in c K
          then VStr (py_str rf (cell (columns df) (nth i (data df) []) c))
          else cell (columns df) (nth i (data df) []) c) /\
     normalize_keys rf df' K = Ok df').
Proof.
  split.
  - split.
    + intros [df' H]. apply normalize_keys_Ok in H. tauto.
    + apply normalize_keys_total.
  - intros Hwf Hincl. exists (normalized rf df K).
    pose proof (wf_frame_rows df Hwf) as Hrows.
    split; [apply normalize_keys_normalized; assumption|].
    split; [apply normalized_columns|].
    split; [rewrite normalized_data; apply length_map|].
    split.
    { unfold wf_frame. apply forallb_forall. intros row Hrow.
      apply Nat.eqb_eq. rewrite normalized_columns.
      apply (normalized_rows K df Hrows). assumption. }
    split; [intros i c Hi Hc; apply cell_normalized; assumption|].
    rewrite normalize_keys_normalized
      by (rewrite normalized_columns; assumption).
    rewrite normalized_idem. reflexivity.
Qed.

(** ** More on the report *)

Lemma py_eq_refl (v : Value) : isna v = false -> py_eq v v = true.
Proof.
  destruct v; simpl; intros H; try discriminate.
  - apply String.eqb_refl.
  - apply Z.eqb_refl.
  - unfold Qc_eq_bool. destruct (Qc_eq_dec q q); congruence.
Qed.

(** The rows reported as present on one side only are the rows whose key,
    taken as text, occurs in no row of the other table; each is printed as
    its key parts joined by [" | "]. *)
Theorem one_sided_rows (A B : DataFrame) (K : list Label) :
  well_formed A B K = true ->
  exists report,
    reconcile rf A B K = Ok report /\
    (forall s, In s (only_in_base report) <->
       exists i, i < List.length (data A) /\
                 ~ In (key_of rf (columns A) K (nth i (data A) []))
                      (keys_of rf B K) /\
                 s = PyStr.join " | " (key_of rf (columns A) K (nth i (data A) []))) /\
    (forall s, In s (only_in_compare report) <->
       exists j, j < List.length (data B) /\
                 ~ In (key_of rf (columns B) K (nth j (data B) []))
                      (keys_of rf A K) /\
                 s = PyStr.join " | " (key_of rf (columns B) K (nth j (data B) []))).
Proof.
  intros Hwf. pose proof (well_formed_inputs_ok A B K Hwf) as Hok.
  exists (report_of rf (normalized rf A K) (normalized rf B K) K).
  split; [apply reconcile_report; assumption|].
  set (A' := normalized rf A K). set (B' := normalized rf B K).
  assert (HkA : keys_of rf A' K = keys_of rf A K)
    by (apply keys_of_normalized; [apply (rows_A Hok) | apply (keys_A Hok)]).
  assert (HkB : keys_of rf B' K = keys_of rf B K)
    by (apply keys_of_normalized; [apply (rows_B Hok) | apply (keys_B Hok)]).
  unfold report_of. cbn [only_in_base only_in_compare].
  unfold left_only_pairs, right_only_pairs, join_of. rewrite HkA, HkB.
  split; intros s; rewrite in_map_iff; split.
  - intros [[[i|] [j|]] [Hs Hp]]; apply filter_In in Hp as [Hp Hc];
      try discriminate.
    apply join_left in Hp as [g [Hi Hn]].
    pose proof (proj1 (nth_error_keys_of A K i g) Hi) as [Hlt Hg].
    exists i. split; [assumption|]. rewrite Hg. split; [assumption|].
    rewrite <- Hs. unfold render_key. f_equal. cbn [pair_key].
    rewrite <- Hg. unfold A'. rewrite normalized_columns.
    apply key_of_normalized;
      [apply (rows_A Hok) | apply (keys_A Hok) | assumption].
  - intros [i [Hlt [Hn ->]]]. exists (Some i, None). split.
    + unfold render_key. f_equal. cbn [pair_key].
      unfold A'. rewrite normalized_columns.
      apply key_of_normalized;
        [apply (rows_A Hok) | apply (keys_A Hok) | assumption].
    + apply filter_In. split; [|reflexivity]. apply join_left.
      eexists. split; [|exact Hn]. apply nth_error_keys_of. auto.
  - intros [[[i|] [j|]] [Hs Hp]]; apply filter_In in Hp as [Hp Hc];
      try discriminate.
    apply join_right in Hp as [g [Hj Hn]].
    pose proof (proj1 (nth_error_keys_of B K j g) Hj) as [Hlt Hg].
    exists j. split; [assumption|]. rewrite Hg. split; [assumption|].
    rewrite <- Hs. unfold render_key. f_equal. cbn [pair_key].
    rewrite <- Hg. unfold B'. rewrite normalized_columns.
    apply key_of_normalized;
      [apply (rows_B Hok) | apply (keys_B Hok) | assumption].
  - intros [j [Hlt [Hn ->]]]. exists (None, Some j). split.
    + unfold render_key. f_equal. cbn [pair_key].
      unfold B'. rewrite normalized_columns.
      apply key_of_normalized;
        [apply (rows_B Hok) | apply (keys_B Hok) | assumption].
    + apply filter_In. split; [|reflexivity]. apply join_right.
      eexists. split; [|exact Hn]. apply nth_error_keys_of. auto.
Qed.

(** Comparing a table with itself reports no row as present on one side
    only, and reports nothing at all when no two rows share their key. *)
Theorem self_comparison (A : DataFrame) (K : list Label) :
  well_formed A A K = true ->
  (exists changed, reconcile rf A A K = Ok (mkReport changed [] [])) /\
  (NoDup (keys_of rf A K) -> reconcile rf A A K = Ok (mkReport [] [] [])).
Proof.
  intros Hwf. pose proof (well_formed_inputs_ok A A K Hwf) as Hok.
  pose proof (inputs_ok_normalized A A K Hok) as Hok'.
  rewrite (reconcile_report A A K Hwf).
  set (A' := normalized rf A K) in *.
  assert (Hl : left_only_pairs rf A' A' K = []).
  { unfold left_only_pairs. apply filter_nil. intros [[i|] [j|]] Hp;
      try reflexivity.
    exfalso. unfold join_of in Hp. apply join_left in Hp as [g [Hi Hn]].
    apply Hn. apply (nth_error_In _ i). assumption. }
  assert (Hr : right_only_pairs rf A' A' K = []).
  { unfold right_only_pairs. apply filter_nil. intros [[i|] [j|]] Hp;
      try reflexivity.
    exfalso. unfold join_of in Hp. apply join_right in Hp as [g [Hj Hn]].
    apply Hn. apply (nth_error_In _ j). assumption. }
  unfold report_of. rewrite Hl, Hr. cbn [map]. split; [eexists; reflexivity|].
  intros Hnd.
  assert (Hc : changed_pairs rf A' A' K = []).
  { unfold changed_pairs. apply filter_nil. intros [[i|] [j|]] Hp;
      try reflexivity.
    cbn [is_both andb].
    destruct (join_of_in_range A' A' K _ Hp) as [Hrange _].
    assert (Hnd' : NoDup (keys_of rf A' K)).
    { unfold A'. rewrite keys_of_normalized;
        [assumption | apply (rows_A Hok) | apply (keys_A Hok)]. }
    unfold join_of in Hp. apply join_both in Hp as [g [Hi Hj]].
    assert (i = j).
    { apply (proj1 (NoDup_nth_error _) Hnd');
        [apply (nth_error_lt _ _ _ _ Hi) | congruence]. }
    subst j.
    destruct (row_differences rf A' A' K (Some i, Some i)) as [|[[c x] y] ds] eqn:E;
      [reflexivity|]. exfalso.
    assert (Hin : In (c, x, y) (row_differences rf A' A' K (Some i, Some i)))
      by (rewrite E; left; reflexivity).
    apply (row_differences_iff A' A' K i i c x y Hok') in Hin;
      [| intros c' Hc' _ Hn; contradiction | assumption].
    destruct Hin as [_ [_ [_ [_ [_ [Hna Hne]]]]]].
    assert (Hfl : left_gets_nan rf A' A' K = false).
    { destruct (left_gets_nan rf A' A' K) eqn:Ef; [|reflexivity].
      apply left_gets_nan_iff in Ef as [k Hk].
      assert (Hin' : In (None, Some k) (right_only_pairs rf A' A' K))
        by (apply filter_In; split; [exact Hk | reflexivity]).
      rewrite Hr in Hin'. contradiction. }
    assert (Hfr : right_gets_nan rf A' A' K = false).
    { destruct (right_gets_nan rf A' A' K) eqn:Ef; [|reflexivity].
      apply right_gets_nan_iff in Ef as [k Hk].
      assert (Hin' : In (Some k, None) (left_only_pairs rf A' A' K))
        by (apply filter_In; split; [exact Hk | reflexivity]).
      rewrite Hl in Hin'. contradiction. }
    unfold left_row, right_row in Hna, Hne. rewrite Hfl, Hfr in Hna, Hne.
    rewrite andb_diag in Hna. rewrite (py_eq_refl _ Hna) in Hne.
    discriminate. }
  rewrite Hc. reflexivity.
Qed.

End Facts.

(** * The properties on the sample data *)

Lemma rename_unnamed_columns_spec_witness :
  nth_error (rename_unnamed_columns [LStr "ID"; LStr "Unnamed: 1"; LStr "Amount"]) 1
  = Some (LStr "ID (Text)").
Proof.
  exact (proj1 (proj2 (rename_unnamed_columns_spec
                         [LStr "ID"; LStr "Unnamed: 1"; LStr "Amount"]))
               1 (LStr "Unnamed: 1") eq_refl).
Defined.

Lemma find_unique_key_is_key_witness :
  find_unique_key sample_repr_float codes_table 3 = Ok (Some [LStr "Code"]) /\
  incl [LStr "Code"] (columns codes_table).
Proof.
  split; [reflexivity|].
  exact (proj1 (proj2 (find_unique_key_is_key sample_repr_float codes_table 3
                                             [LStr "Code"] eq_refl))).
Defined.

(** C3 (as stated, refuted). A sheet without a qualifying row is loaded all
    the same: the loader does not fail. *)
Lemma load_succeeds_without_header :
  ~ (forall (wb : Workbook) (sheet : Sheet),
        select_sheet wb = Some sheet ->
        (forall row, In row (firstn 20 sheet) ->
                     text_count row < min_named_cols) ->
        exists e, load_excel_clean sample_header_labels sample_parse_text
                                   None wb = Err e).
Proof.
  intros H.
  destruct (H [("Sheet1"%string, numeric_sheet)] numeric_sheet eq_refl)
    as [e He].
  - intros row [<- | [<- | []]]; vm_compute; lia.
  - vm_compute in He. discriminate.
Qed.

Lemma load_without_header_witness :
  exists df,
    load_excel_clean sample_header_labels sample_parse_text None
                     [("Sheet1"%string, numeric_sheet)] = Ok df /\
    columns df = [LInt 0; LInt 1].
Proof.
  destruct (load_without_header sample_repr_float sample_header_labels
              sample_parse_text None
              [("Sheet1"%string, numeric_sheet)] numeric_sheet eq_refl)
    as [_ [_ [H _]]].
  - intros row [<- | [<- | []]]; vm_compute; lia.
  - destruct (H I) as [df [H1 [H2 _]]]. exists df. split; assumption.
Defined.

(** C4 (as stated, refuted). A key discovered in the base table and absent
    from the compare table does not end the run with the failure that names
    the missing columns and their side. *)
Lemma auto_key_not_validated :
  ~ (forall (user_keys : list string) (df_base df_compare : DataFrame)
            (K : list Label),
        choose_keys sample_repr_float user_keys df_base df_compare = Ok K ->
        (exists k, In k K /\ ~ In k (columns df_compare)) ->
        exists msg,
          compare_frames sample_repr_float user_keys df_base df_compare
          = Err (Raised msg)).
Proof.
  intros H.
  destruct (H [] ids_base codes_compare [LStr "ID"] eq_refl) as [msg Hmsg].
  - exists (LStr "ID"). split; [left; reflexivity|].
    intros [E | []]. discriminate.
  - vm_compute in Hmsg. discriminate.
Qed.

Lemma key_validation_witness :
  compare_frames sample_repr_float ["ID"%string] ids_base codes_compare
  = Err (Raised "The following key columns are missing in the compare file: ID").
Proof.
  apply (proj1 (proj2 (key_validation sample_repr_float ["ID"%string]
                                      ids_base codes_compare)));
    [discriminate | reflexivity | discriminate].
Defined.

(** C1 (as stated, refuted). A key repeated in the base table lands in
    Changed through one of its rows and in the dropped-identical class
    through the other. *)
Lemma repeated_key_in_two_classes :
  ~ (forall (A B : DataFrame) (K : list Label),
        well_formed A B K = true ->
        let A' := normalized sample_repr_float A K in
        let B' := normalized sample_repr_float B K in
        forall g, In g (keys_of sample_repr_float A' K) ->
          exactly_one
            (In g (class_keys sample_repr_float A' B' K
                              (changed_pairs sample_repr_float A' B' K)))
            (In g (class_keys sample_repr_float A' B' K
                              (left_only_pairs sample_repr_float A' B' K)))
            (In g (class_keys sample_repr_float A' B' K
                              (identical_pairs sample_repr_float A' B' K)))).
Proof.
  intros H.
  specialize (H repeated_base repeated_compare [LStr "k"] eq_refl ["1"%string]).
  cbv zeta in H.
  assert (Hk : In ["1"%string]
                  (keys_of sample_repr_float
                     (normalized sample_repr_float repeated_base [LStr "k"])
                     [LStr "k"])) by (vm_compute; auto).
  specialize (H Hk). unfold exactly_one in H.
  assert (Hc : In ["1"%string]
                  (class_keys sample_repr_float
                     (normalized sample_repr_float repeated_base [LStr "k"])
                     (normalized sample_repr_float repeated_compare [LStr "k"])
                     [LStr "k"]
                     (changed_pairs sample_repr_float
                        (normalized sample_repr_float repeated_base [LStr "k"])
                        (normalized sample_repr_float repeated_compare [LStr "k"])
                        [LStr "k"]))) by (vm_compute; auto).
  assert (Hi : In ["1"%string]
                  (class_keys sample_repr_float
                     (normalized sample_repr_float repeated_base [LStr "k"])
                     (normalized sample_repr_float repeated_compare [LStr "k"])
                     [LStr "k"]
                     (identical_pairs sample_repr_float
                        (normalized sample_repr_float repeated_base [LStr "k"])
                        (normalized sample_repr_float repeated_compare [LStr "k"])
                        [LStr "k"]))) by (vm_compute; auto).
  tauto.
Qed.

Lemma reconcile_partition_witness :
  reconcile sample_repr_float scenario_base scenario_compare [LStr "id"]
  = Ok (mkReport [] ["2"%string] ["3"%string]).
Proof.
  rewrite (proj1 (reconcile_partition sample_repr_float scenario_base
                                      scenario_compare [LStr "id"] eq_refl)).
  reflexivity.
Defined.

(** C5 (as stated, refuted). Two cells of a matched pair that are not
    equal record no difference when the merge has promoted their column:
    9007199254740993 becomes the float 9007199254740992.0, which equals
    the integer on the other side. *)
Lemma rounded_difference_not_recorded :
  well_formed wide_base wide_compare [LStr "k"] = true /\
  In (Some 0, Some 0)
     (join_of sample_repr_float
        (normalized sample_repr_float wide_base [LStr "k"])
        (normalized sample_repr_float wide_compare [LStr "k"])
        [LStr "k"]) /\
  py_eq (cell (columns wide_base) (nth 0 (data wide_base) []) (LStr "v"))
        (cell (columns wide_compare) (nth 0 (data wide_compare) []) (LStr "v"))
  = false /\
  reconcile sample_repr_float wide_base wide_compare [LStr "k"]
  = Ok (mkReport [] [] ["2"%string]).
Proof.
  split; [vm_compute; reflexivity|].
  split; [vm_compute; left; reflexivity|].
  split; vm_compute; reflexivity.
Qed.

Lemma differences_of_matched_rows_witness :
  In (LStr "v", Some (VFloat (float64_of_int 1)), Some (VFloat (float64_of_int 9)))
     (row_differences sample_repr_float
        (normalized sample_repr_float partial_base [LStr "id"])
        (normalized sample_repr_float partial_compare [LStr "id"])
        [LStr "id"] (Some 0, Some 0)).
Proof.
  apply (proj1 (proj2 (proj2 (proj2
           (differences_of_matched_rows sample_repr_float
              partial_base partial_compare [LStr "id"] 0 0
              (LStr "v") eq_refl
              (or_introl eq_refl)
              (or_intror (or_introl eq_refl))
              (or_intror (or_introl eq_refl))
              ltac:(intros [E | []]; discriminate)))))).
  repeat split; vm_compute; reflexivity.
Defined.



Lemma missing_keys_match_witness :
  In (Some 0, Some 1)
     (join_of sample_repr_float
        (normalized sample_repr_float blank_key_base [LStr "id"])
        (normalized sample_repr_float blank_key_compare [LStr "id"])
        [LStr "id"]).
Proof.
  apply (missing_keys_match sample_repr_float blank_key_base blank_key_compare
                            [LStr "id"] 0 1 eq_refl).
  - vm_compute. lia.
  - vm_compute. lia.
  - intros k [<- | []]. left. split; reflexivity.
Defined.

(** C9 (the code at the failing input). The base table has the columns
    [X] and [X_compare], the compare table neither.  With the tables in
    this order the key is reported in Changed, with a difference for [X]
    whose base value is Python's [None]; with the tables swapped nothing is
    reported. *)
Lemma swap_changes_changed_keys :
  well_formed suffixed_base suffixed_compare [LStr "k"] = true /\
  well_formed suffixed_compare suffixed_base [LStr "k"] = true /\
  reconcile sample_repr_float suffixed_base suffixed_compare [LStr "k"]
  = Ok (mkReport [mkDiffRow "1" [(LStr "X", None, Some (VInt 7))]] [] []) /\
  reconcile sample_repr_float suffixed_compare suffixed_base [LStr "k"]
  = Ok (mkReport [] [] []).
Proof. repeat split; reflexivity. Qed.

Lemma swap_symmetry_on_scenario :
  Permutation
    (only_in_base
       (report_of sample_repr_float
          (normalized sample_repr_float scenario_base [LStr "id"])
          (normalized sample_repr_float scenario_compare [LStr "id"])
          [LStr "id"]))
    (only_in_compare
       (report_of sample_repr_float
          (normalized sample_repr_float scenario_compare [LStr "id"])
          (normalized sample_repr_float scenario_base [LStr "id"])
          [LStr "id"])).
Proof.
  refine (proj1 (proj2 (proj2
            (swap_symmetry_without_stray_suffix sample_repr_float
               scenario_base scenario_compare [LStr "id"]
               eq_refl eq_refl _ _)))).
  - intros c Hc HK HB. exfalso. apply HB. exact Hc.
  - intros c Hc HK HB. exfalso. apply HB. exact Hc.
Defined.


(** * Choice of the two files *)

Section FileChoiceFacts.

Variable isfile : string -> bool.
Variable listdir : list string.

Lemma leb_trans (a b c : string) :
  String.leb a b = true -> String.leb b c = true -> String.leb a c = true.
Proof.
  unfold String.leb. revert b c.
  induction a as [|c1 a IH]; intros [|c2 b] [|c3 c]; simpl;
    try reflexivity; try discriminate.
  unfold Ascii.compare.
  destruct (N.compare_spec (N_of_ascii c1) (N_of_ascii c2)) as [E1|E1|E1];
    destruct (N.compare_spec (N_of_ascii c2) (N_of_ascii c3)) as [E2|E2|E2];
    try discriminate; intros H1 H2.
  - rewrite E1, E2, N.compare_refl. apply IH with (b := b); assumption.
  - rewrite E1. apply N.compare_lt_iff in E2. rewrite E2. reflexivity.
  - rewrite <- E2. apply N.compare_lt_iff in E1. rewrite E1. reflexivity.
  - assert (E : (N_of_ascii c1 < N_of_ascii c3)%N) by lia.
    apply N.compare_lt_iff in E. rewrite E. reflexivity.
Qed.

Lemma insert_perm (x : string) (l : list string) :
  Permutation (FileChoice.insert x l) (x :: l).
Proof.
  induction l as [|y l IH]; simpl; [apply Permutation_refl|].
  destruct (String.leb x y); [apply Permutation_refl|].
  apply Permutation_trans with (y :: x :: l);
    [apply perm_skip; exact IH | apply perm_swap].
Qed.

Lemma sorted_perm (l : list string) : Permutation (FileChoice.sorted l) l.
Proof.
  induction l as [|x l IH]; simpl; [apply perm_nil|].
  apply Permutation_trans with (x :: FileChoice.sorted l);
    [apply insert_perm | apply perm_skip; exact IH].
Qed.

Lemma insert_sorted (x : string) (l : list string) :
  Sorted.StronglySorted (fun a b => String.leb a b = true) l ->
  Sorted.StronglySorted (fun a b => String.leb a b = true)
                        (FileChoice.insert x l).
Proof.
  induction 1 as [|y l Hs IH Hy]; simpl.
  - constructor; constructor.
  - destruct (String.leb x y) eqn:E.
    + constructor; [constructor; assumption|].
      constructor; [exact E|].
      apply Forall_forall. intros z Hz.
      apply leb_trans with (b := y); [exact E|].
      rewrite Forall_forall in Hy. apply Hy. exact Hz.
    + constructor; [exact IH|].
      apply Forall_forall. intros z Hz.
      apply (Permutation_in _ (insert_perm x l)) in Hz.
      destruct Hz as [<-|Hz].
      * destruct (String.leb_total x y) as [H|H]; [congruence | exact H].
      * rewrite Forall_forall in Hy. apply Hy. exact Hz.
Qed.

Lemma sorted_sorted (l : list string) :
  Sorted.StronglySorted (fun a b => String.leb a b = true)
                        (FileChoice.sorted l).
Proof.
  induction l as [|x l IH]; simpl; [constructor|].
  apply insert_sorted. exact IH.
Qed.

(** The two names the fallback takes from the directory. *)
Lemma two_smallest (l : list string) :
  (List.length l < 2 ->
   match FileChoice.sorted l with _ :: _ :: _ => False | _ => True end) /\
  (2 <= List.length l ->
   exists f0 f1 rest,
     FileChoice.sorted l = f0 :: f1 :: rest /\
     Permutation l (f0 :: f1 :: rest) /\
     String.leb f0 f1 = true /\
     (forall f, In f rest -> String.leb f1 f = true)).
Proof.
  pose proof (sorted_perm l) as Hp.
  pose proof (sorted_sorted l) as Hs.
  pose proof (Permutation_length Hp) as Hl.
  destruct (FileChoice.sorted l) as [|f0 [|f1 rest]] eqn:E; simpl in Hl;
    split; intros Hn; try exact I; try lia.
  exists f0, f1, rest. split; [reflexivity|].
  split; [apply Permutation_sym; exact Hp|].
  apply Sorted.StronglySorted_inv in Hs as [Hs H0].
  apply Sorted.StronglySorted_inv in Hs as [_ H1].
  rewrite Forall_forall in H0, H1.
  split; [apply H0; left; reflexivity | exact H1].
Qed.

(** When a file is not given, the script falls back on the directory:
    with fewer than two [.xlsx] names there it fails, also when one file
    was given; otherwise a base not given is the first name in sorted
    order and a compare not given is the second, whatever the base is. *)
Theorem choose_files_fallback (base_file compare_file : option string) :
  FileChoice.given base_file = None \/ FileChoice.given compare_file = None ->
  (forall f, FileChoice.given base_file = Some f -> isfile f = true) ->
  (forall f, FileChoice.given compare_file = Some f -> isfile f = true) ->
  (List.length (FileChoice.xlsx_files listdir) < 2 ->
   FileChoice.choose_files isfile listdir base_file compare_file
   = Err (Raised
       "At least two .xlsx files are required in the current directory.")) /\
  (2 <= List.length (FileChoice.xlsx_files listdir) ->
   exists f0 f1 rest,
     Permutation (FileChoice.xlsx_files listdir) (f0 :: f1 :: rest) /\
     String.leb f0 f1 = true /\
     (forall f, In f rest -> String.leb f1 f = true) /\
     FileChoice.choose_files isfile listdir base_file compare_file
     = Ok (match FileChoice.given base_file with Some b => b | None => f0 end,
           match FileChoice.given compare_file with
           | Some c => c
           | None => f1
           end)).
Proof.
  intros Hnone Hb Hc.
  assert (E : FileChoice.choose_files isfile listdir base_file compare_file
              = match FileChoice.sorted (FileChoice.xlsx_files listdir) with
                | f0 :: f1 :: _ =>
                    Ok (match FileChoice.given base_file with
                        | Some b => b
                        | None => f0
                        end,
                        match FileChoice.given compare_file with
                        | Some c => c
                        | None => f1
                        end)
                | _ => Err (Raised
       "At least two .xlsx files are required in the current directory.")
                end).
  { unfold FileChoice.choose_files, FileChoice.check_exists.
    destruct (FileChoice.given base_file) as [b|] eqn:Eb;
      destruct (FileChoice.given compare_file) as [c|] eqn:Ec;
      try (rewrite (Hb b eq_refl)); try (rewrite (Hc c eq_refl)); simpl;
      try reflexivity.
    destruct Hnone; discriminate. }
  destruct (two_smallest (FileChoice.xlsx_files listdir)) as [Hlt Hge].
  split; intros Hn.
  - specialize (Hlt Hn). rewrite E.
    destruct (FileChoice.sorted (FileChoice.xlsx_files listdir))
      as [|f0 [|f1 rest]]; [reflexivity | reflexivity | contradiction].
  - destruct (Hge Hn) as (f0 & f1 & rest & Es & Hp & H01 & Hrest).
    exists f0, f1, rest. repeat split; try assumption.
    rewrite E, Es. reflexivity.
Qed.

(** A file given on the command line is checked before anything else:
    the run fails on the first given file that does not exist, base
    before compare, and it succeeds with the two given files when both
    exist, whatever the directory holds. *)
Theorem choose_files_given (base_file compare_file : option string)
        (b c : string) :
  (FileChoice.given base_file = Some b -> isfile b = false ->
   FileChoice.choose_files isfile listdir base_file compare_file
   = Err (Raised ("Base file not found: " ++ b))) /\
  ((forall f, FileChoice.given base_file = Some f -> isfile f = true) ->
   FileChoice.given compare_file = Some c -> isfile c = false ->
   FileChoice.choose_files isfile listdir base_file compare_file
   = Err (Raised ("Compare file not found: " ++ c))) /\
  (FileChoice.given base_file = Some b ->
   FileChoice.given compare_file = Some c ->
   isfile b = true -> isfile c = true ->
   FileChoice.choose_files isfile listdir base_file compare_file
   = Ok (b, c)).
Proof.
  unfold FileChoice.choose_files, FileChoice.check_exists.
  split; [|split].
  - intros -> ->. reflexivity.
  - intros Hb -> Hc.
    destruct (FileChoice.given base_file) as [f|];
      [rewrite (Hb f eq_refl)|]; simpl; rewrite Hc; reflexivity.
  - intros -> -> -> ->. reflexivity.
Qed.

End FileChoiceFacts.


(** * The command line *)

Lemma rstrip_cons (c : ascii) (t : string) :
  PyStr.rstrip t <> EmptyString ->
  PyStr.rstrip (String c t) = String c (PyStr.rstrip t).
Proof.
  intros H. simpl. destruct (PyStr.rstrip t); [congruence | reflexivity].
Qed.

Lemma rstrip_idem (s : string) : PyStr.rstrip (PyStr.rstrip s) = PyStr.rstrip s.
Proof.
  induction s as [|c s IH]; [reflexivity|].
  simpl. destruct (PyStr.rstrip s) as [|a u] eqn:E.
  - destruct (PyStr.isspace c) eqn:Hc; simpl; [|rewrite Hc]; reflexivity.
  - rewrite rstrip_cons; rewrite IH; [reflexivity | discriminate].
Qed.

Lemma lstrip_cases (s : string) :
  PyStr.lstrip s = EmptyString \/
  exists c t, PyStr.lstrip s = String c t /\ PyStr.isspace c = false.
Proof.
  induction s as [|c s IH]; simpl; [left; reflexivity|].
  destruct (PyStr.isspace c) eqn:Hc; [exact IH|].
  right. exists c, s. split; [reflexivity | exact Hc].
Qed.

Lemma strip_idem (s : string) : PyStr.strip (PyStr.strip s) = PyStr.strip s.
Proof.
  unfold PyStr.strip.
  destruct (lstrip_cases s) as [E | (c & t & E & Hc)]; rewrite E.
  - reflexivity.
  - rewrite (rstrip_cons_nonspace c t Hc). simpl PyStr.lstrip. rewrite Hc.
    rewrite (rstrip_cons_nonspace c _ Hc), rstrip_idem. reflexivity.
Qed.

Lemma prefix_append (p t : string) : String.prefix p (p ++ t) = true.
Proof.
  induction p as [|a p IH]; simpl; [destruct t; reflexivity|].
  destruct (ascii_dec a a); [exact IH | congruence].
Qed.

Lemma truthy_nonempty (s : string) :
  PyStr.truthy s = true <-> s <> EmptyString.
Proof.
  destruct s; simpl; split; intros H; congruence.
Qed.

Section CommandLineFacts.

Variable py_int : string -> option Z.

(** Exactly the accepted arguments let the loop go on. *)
Lemma parse_arg_accepted (o : CommandLine.Options) (arg : string) :
  (CommandLine.accepted py_int arg = true ->
   exists o', CommandLine.parse_arg py_int o arg = CommandLine.Parsed o') /\
  (CommandLine.accepted py_int arg = false ->
   CommandLine.parse_arg py_int o arg
   = if String.eqb arg "--help" then CommandLine.Exit 0
     else if negb (existsb (PyStr.startswith arg) CommandLine.valid_options)
          then CommandLine.Exit 1
          else CommandLine.Failed "Invalid maxline value. Use an integer.").
Proof.
  unfold CommandLine.accepted, CommandLine.parse_arg.
  destruct (String.eqb arg "--help"); cbn [negb andb];
    [split; [discriminate | reflexivity]|].
  destruct (existsb (PyStr.startswith arg) CommandLine.valid_options);
    cbn [negb andb]; [|split; [discriminate | reflexivity]].
  destruct (PyStr.startswith arg "maxline=") eqn:Hm.
  - assert (Hk : PyStr.startswith arg "keys=" = false).
    { unfold PyStr.startswith in *. destruct arg as [|c t]; [discriminate|].
      cbn [String.prefix] in *.
      destruct (ascii_dec "m" c) as [<-|]; [reflexivity | discriminate]. }
    rewrite Hk.
    destruct (py_int (CommandLine.drop 8 arg));
      split; intros H; try discriminate; eauto.
  - split; [intros _ | discriminate].
    repeat match goal with
           | |- context [if ?b then _ else _] => destruct b
           end; eauto.
Qed.

(** The loop reads all arguments exactly when each one is accepted: it is
    not [--help], it begins with a known option, and after [maxline=] it
    holds an integer.  Otherwise the first argument that is not accepted
    ends it: [--help] with exit status 0, an unknown option with exit
    status 1, a bad [maxline] with an exception; nothing after that
    argument is looked at. *)
Theorem parse_args_outcome (o : CommandLine.Options) (args : list string) :
  ((exists o', CommandLine.parse_args py_int o args = CommandLine.Parsed o')
   <-> forallb (CommandLine.accepted py_int) args = true) /\
  (forall before arg after,
     args = before ++ arg :: after ->
     forallb (CommandLine.accepted py_int) before = true ->
     CommandLine.accepted py_int arg = false ->
     CommandLine.parse_args py_int o args
     = if String.eqb arg "--help" then CommandLine.Exit 0
       else if negb (existsb (PyStr.startswith arg) CommandLine.valid_options)
            then CommandLine.Exit 1
            else CommandLine.Failed "Invalid maxline value. Use an integer.").
Proof.
  split.
  - revert o. induction args as [|a args IH]; intros o; simpl.
    + split; [reflexivity | eauto].
    + destruct (parse_arg_accepted o a) as [Hyes Hno].
      destruct (CommandLine.accepted py_int a) eqn:Ea; simpl.
      * destruct (Hyes eq_refl) as [o1 E1]. rewrite E1. apply IH.
      * rewrite (Hno eq_refl).
        split; [|discriminate]. intros [o' H].
        destruct (String.eqb a "--help"); [discriminate|].
        destruct (negb _); discriminate.
  - intros before arg after ->. revert o.
    induction before as [|a before IH]; intros o Hb Ha; simpl.
    + destruct (parse_arg_accepted o arg) as [_ Hno].
      rewrite (Hno Ha).
      destruct (String.eqb arg "--help"); [reflexivity|].
      destruct (negb _); reflexivity.
    + simpl in Hb. apply andb_true_iff in Hb as [Hb1 Hb2].
      destruct (parse_arg_accepted o a) as [Hyes _].
      destruct (Hyes Hb1) as [o1 E1]. rewrite E1. apply IH; assumption.
Qed.

(** [keys=] sets the keys to the comma-separated parts of its value that
    are not blank, each with the blanks around it removed and in their
    order; the other settings stay.  So no key is empty or has a blank
    at either end, and a value made of blanks and commas only gives no
    key at all, which the script treats like no [keys=] argument. *)
Theorem keys_option (o : CommandLine.Options) (text : string) :
  exists o',
    CommandLine.parse_arg py_int o ("keys=" ++ text) = CommandLine.Parsed o' /\
    CommandLine.max_lines o' = CommandLine.max_lines o /\
    CommandLine.base_file o' = CommandLine.base_file o /\
    CommandLine.compare_file o' = CommandLine.compare_file o /\
    CommandLine.excel_output o' = CommandLine.excel_output o /\
    CommandLine.debug_mode o' = CommandLine.debug_mode o /\
    CommandLine.keys_in_use o'
    = map PyStr.strip
          (filter (fun part => negb (String.eqb (PyStr.strip part) ""))
                  (CommandLine.split "," text)) /\
    (forall k, In k (CommandLine.keys_in_use o') ->
               k <> EmptyString /\ PyStr.strip k = k) /\
    (CommandLine.keys_in_use o' = [] <->
     forall part, In part (CommandLine.split "," text) ->
                  PyStr.strip part = EmptyString).
Proof.
  exists (CommandLine.mkOptions
            (Some (CommandLine.parse_keys text)) (CommandLine.max_lines o)
            (CommandLine.base_file o) (CommandLine.compare_file o)
            (CommandLine.excel_output o) (CommandLine.debug_mode o)).
  assert (Hpre : PyStr.startswith ("keys=" ++ text) "keys=" = true)
    by apply prefix_append.
  split.
  { unfold CommandLine.parse_arg.
    replace (existsb (PyStr.startswith ("keys=" ++ text))
                     CommandLine.valid_options) with true
      by (cbn [existsb CommandLine.valid_options]; rewrite Hpre; reflexivity).
    rewrite Hpre. reflexivity. }
  do 5 (split; [reflexivity|]).
  unfold CommandLine.keys_in_use, CommandLine.parse_keys.
  cbn [CommandLine.user_keys].
  assert (Ef : forall part,
             PyStr.truthy (PyStr.strip part)
             = negb (String.eqb (PyStr.strip part) "")).
  { intros part. destruct (PyStr.strip part); reflexivity. }
  split; [rewrite (filter_ext _ _ Ef); reflexivity|].
  split.
  - intros k Hk. apply in_map_iff in Hk as (part & <- & Hp).
    apply filter_In in Hp as [_ Hp]. apply truthy_nonempty in Hp.
    split; [exact Hp | apply strip_idem].
  - split.
    + intros E part Hp.
      destruct (PyStr.strip part) as [|c t] eqn:Es; [reflexivity|].
      apply map_eq_nil in E.
      assert (Hin : In part (filter (fun k => PyStr.truthy (PyStr.strip k))
                                    (CommandLine.split "," text))).
      { apply filter_In. split; [exact Hp | rewrite Es; reflexivity]. }
      rewrite E in Hin. destruct Hin.
    + intros H.
      rewrite filter_nil; [reflexivity|].
      intros part Hp. rewrite (H part Hp). reflexivity.
Qed.

(** An argument only has to begin with an option's name.  Text after
    [--help] makes an argument that is accepted and changes nothing, and
    no help is shown; text after [debug=1] still turns the debug mode
    on. *)
Theorem option_prefixes (o : CommandLine.Options) (rest : string) :
  rest <> EmptyString ->
  CommandLine.parse_arg py_int o ("--help" ++ rest) = CommandLine.Parsed o /\
  CommandLine.parse_arg py_int o ("debug=1" ++ rest)
  = CommandLine.Parsed
      (CommandLine.mkOptions
         (CommandLine.user_keys o) (CommandLine.max_lines o)
         (CommandLine.base_file o) (CommandLine.compare_file o)
         (CommandLine.excel_output o) true).
Proof.
  intros Hr. destruct rest as [|c t]; [congruence|].
  split; reflexivity.
Qed.

End CommandLineFacts.


(** * The further properties on the sample data *)

Lemma detect_header_row_first_witness :
  detect_header_row banner_preview 3 = Some 1.
Proof.
  apply (proj2 (proj1 (detect_header_row_first banner_preview 3) 1)).
  split.
  - exists [VStr "ID"; VStr "Name"; VStr "Amount"].
    split; [reflexivity | vm_compute; lia].
  - intros i row Hi H. destruct i; [|lia].
    vm_compute in H. injection H as <-. vm_compute. lia.
Defined.

Lemma rename_unnamed_columns_idempotent_witness :
  rename_unnamed_columns
    (rename_unnamed_columns [LStr "ID"; LStr "Unnamed: 1"; LStr "Amount"])
  = rename_unnamed_columns [LStr "ID"; LStr "Unnamed: 1"; LStr "Amount"].
Proof.
  exact (proj2 (rename_unnamed_columns_idempotent
                  [LStr "ID"; LStr "Unnamed: 1"; LStr "Amount"])).
Defined.

Lemma load_with_header_witness :
  exists df,
    load_excel_clean sample_header_labels sample_parse_text None banner_workbook
    = Ok df /\
    columns df
    = rename_unnamed_columns
        (sample_header_labels
           (pad_row (sheet_width banner_sheet) (nth 1 banner_sheet []))) /\
    (forall c, In c (columns df) -> is_placeholder c = false) /\
    List.length (data df) = kept_rows None (skipn 2 banner_sheet).
Proof.
  refine (proj1 (proj2 (load_with_header sample_header_labels
                          sample_parse_text None banner_workbook
                          banner_sheet 1 eq_refl _ _ _)) I).
  - vm_compute. lia.
  - vm_compute. lia.
  - intros i Hi. destruct i; [vm_compute; lia | lia].
Defined.

Lemma find_unique_key_search_order_witness :
  (exists before after,
      candidates codes_table = before ++ LStr "Code" :: after /\
      forall c, In c before -> is_unique codes_table c = false) /\
  (forall c, In c (candidates pairs_table) -> is_unique pairs_table c = false).
Proof.
  split.
  - exact (proj1 (find_unique_key_search_order
                    sample_repr_float codes_table 3 [LStr "Code"] eq_refl)
                 (LStr "Code") eq_refl).
  - apply (proj2 (find_unique_key_search_order
                    sample_repr_float pairs_table 3
                    [LStr "Doc"; LStr "Item"] eq_refl)).
    simpl. lia.
Defined.

Lemma find_unique_key_excludes_witness :
  In (LStr "Code") (columns codes_table) /\
  dtype_of codes_table (LStr "Code") <> DFloat /\
  exists v, In v (column_values codes_table (LStr "Code")) /\ isna v = false.
Proof.
  exact (find_unique_key_excludes sample_repr_float codes_table 3
           [LStr "Code"] (LStr "Code") eq_refl (or_introl eq_refl)).
Defined.


Lemma discovered_key_survives_normalisation_witness :
  NoDup (keys_of sample_repr_float
           (normalized sample_repr_float codes_table [LStr "Code"])
           [LStr "Code"]).
Proof.
  apply (discovered_key_survives_normalisation
           sample_repr_float codes_table 3 [LStr "Code"] eq_refl eq_refl).
  right. exists (LStr "Code"). split; [reflexivity|].
  left. reflexivity.
Defined.

Lemma normalize_keys_effect_witness :
  exists df',
    normalize_keys sample_repr_float scenario_base [LStr "id"] = Ok df' /\
    columns df' = columns scenario_base /\
    List.length (data df') = List.length (data scenario_base) /\
    wf_frame df' = true /\
    (forall i c, i < List.length (data scenario_base) ->
       In c (columns scenario_base) ->
       cell (columns scenario_base) (nth i (data df') []) c
       = if label_in c [LStr "id"]
         then VStr (py_str sample_repr_float
                      (cell (columns scenario_base)
                            (nth i (data scenario_base) []) c))
         else cell (columns scenario_base) (nth i (data scenario_base) []) c) /\
    normalize_keys sample_repr_float df' [LStr "id"] = Ok df'.
Proof.
  apply (proj2 (normalize_keys_effect sample_repr_float scenario_base
                                      [LStr "id"]) eq_refl).
  intros c [<-|[]]. left. reflexivity.
Defined.

Lemma one_sided_rows_witness :
  exists report,
    reconcile sample_repr_float scenario_base scenario_compare [LStr "id"]
    = Ok report /\
    In "2"%string (only_in_base report) /\
    ~ In "1"%string (only_in_compare report).
Proof.
  destruct (one_sided_rows sample_repr_float scenario_base scenario_compare
                           [LStr "id"] eq_refl) as (report & E & HA & HB).
  exists report. split; [exact E|]. split.
  - apply HA. exists 1. split; [simpl; lia|].
    split; [|reflexivity].
    vm_compute. intros [H|[H|[]]]; discriminate.
  - intros H. apply HB in H as (j & Hj & Hnot & Hs).
    simpl in Hj.
    destruct j as [|[|j]]; [|vm_compute in Hs; discriminate | lia].
    apply Hnot. vm_compute. left. reflexivity.
Defined.

Lemma self_comparison_witness :
  reconcile sample_repr_float scenario_base scenario_base [LStr "id"]
  = Ok (mkReport [] [] []).
Proof.
  apply (proj2 (self_comparison sample_repr_float scenario_base [LStr "id"]
                                eq_refl)).
  vm_compute.
  constructor; [intros [H|[]]; discriminate|].
  constructor; [intros []|constructor].
Defined.

Lemma choose_files_fallback_witness :
  exists f0 f1 rest,
    Permutation (FileChoice.xlsx_files sample_listing) (f0 :: f1 :: rest) /\
    String.leb f0 f1 = true /\
    (forall f, In f rest -> String.leb f1 f = true) /\
    FileChoice.choose_files (fun _ => true) sample_listing None (Some ""%string)
    = Ok (f0, f1).
Proof.
  apply (proj2 (choose_files_fallback (fun _ => true) sample_listing
                  None (Some ""%string) (or_introl eq_refl)
                  (fun f H => eq_refl) (fun f H => eq_refl))).
  vm_compute. lia.
Defined.

Lemma choose_files_given_witness :
  FileChoice.choose_files (String.eqb "a.xlsx") sample_listing
                          (Some "a.xlsx"%string) (Some "z.xlsx"%string)
  = Err (Raised "Compare file not found: z.xlsx").
Proof.
  apply (proj1 (proj2 (choose_files_given
                         (String.eqb "a.xlsx") sample_listing
                         (Some "a.xlsx"%string) (Some "z.xlsx"%string)
                         "a.xlsx" "z.xlsx")));
    [|reflexivity|reflexivity].
  intros f H. injection H as <-. reflexivity.
Defined.

Lemma parse_args_outcome_witness :
  CommandLine.parse_args sample_py_int CommandLine.defaults
    ["base=a.xlsx"; "maxline=abc"; "--help"]%string
  = CommandLine.Failed "Invalid maxline value. Use an integer.".
Proof.
  exact (proj2 (parse_args_outcome sample_py_int CommandLine.defaults
                  ["base=a.xlsx"; "maxline=abc"; "--help"]%string)
               ["base=a.xlsx"%string] "maxline=abc"%string ["--help"%string]
               eq_refl eq_refl eq_refl).
Defined.

Lemma keys_option_witness :
  exists o',
    CommandLine.parse_arg sample_py_int CommandLine.defaults
                          "keys= ID , ,Doc Num"
    = CommandLine.Parsed o' /\
    CommandLine.keys_in_use o' = ["ID"; "Doc Num"]%string.
Proof.
  destruct (keys_option sample_py_int CommandLine.defaults " ID , ,Doc Num")
    as (o' & E & _ & _ & _ & _ & _ & Hk & _).
  exists o'. split; [exact E | exact Hk].
Defined.

Lemma option_prefixes_witness :
  CommandLine.parse_arg sample_py_int CommandLine.defaults "--helpx"
  = CommandLine.Parsed CommandLine.defaults.
Proof.
  refine (proj1 (option_prefixes sample_py_int CommandLine.defaults "x" _)).
  discriminate.
Defined.
